(** * MultiAgent-Voice-Intelligence: routing, retrieval and session pipeline

    A shallow embedding of the Python services
    - [app/services/orchestrator.py]       (keyword / classifier router),
    - [app/services/vector_store.py]       (per-agent FAISS stores),
    - [app/services/document_loader.py]    (document ingestion),
    - [app/services/specialized_agents.py] and [app/routers/chat.py]
      (agent dispatch and the chat turn),
    together with the properties the specification states about them.

    Python code that mutates objects and raises exceptions is written in a
    state-and-exception monad; a raised exception keeps the mutations done
    before it, exactly as in Python.  External collaborators (the language
    model, the JSON decoder, the FAISS index, the file system and parsers,
    the agent executors) are the fields of an environment class per
    component; every property holds for all environments. *)

From Stdlib Require Import ZArith QArith Ascii String Floats.
From stdpp Require Import gmap strings list pretty.

Set Warnings "-register-all,-inexact-float".
Set Default Proof Using "Type*".

(** ** Exceptions, outcomes and the monad *)

Inductive exn : Type :=
| ValueError (msg : string)          (* raised by this repository's code *)
| JSONDecodeError (msg : string)     (* json.JSONDecodeError *)
| AttributeError (msg : string)      (* method call on an object lacking it *)
| HTTPException (status : Z) (detail : string)
| ExternalError (msg : string).      (* anything a collaborator may raise *)

(** [str(e)] *)
Definition exn_str (e : exn) : string :=
  match e with
  | ValueError m | JSONDecodeError m | AttributeError m | ExternalError m => m
  | HTTPException _ d => d
  end.

Definition is_JSONDecodeError (e : exn) : bool :=
  match e with JSONDecodeError _ => true | _ => false end.

Inductive outcome (A : Type) : Type :=
| Ok (a : A)
| Raise (e : exn).
Arguments Ok {A} a.
Arguments Raise {A} e.

Definition is_Ok {A} (o : outcome A) : bool :=
  match o with Ok _ => true | Raise _ => false end.

(** A computation over a mutable world [S]. *)
Definition M (S A : Type) : Type := S → outcome A * S.

Definition ret {S A} (a : A) : M S A := λ s, (Ok a, s).
Definition raise {S A} (e : exn) : M S A := λ s, (Raise e, s).
Definition bind {S A B} (m : M S A) (k : A → M S B) : M S B :=
  λ s, match m s with
       | (Ok a, s') => k a s'
       | (Raise e, s') => (Raise e, s')
       end.
Definition get {S} : M S S := λ s, (Ok s, s).
Definition modify {S} (f : S → S) : M S unit := λ s, (Ok tt, f s).
Definition lift_outcome {S A} (o : outcome A) : M S A := λ s, (o, s).

(** [try: m except Exception as e: h e] *)
Definition try_except {S A} (m : M S A) (h : exn → M S A) : M S A :=
  λ s, match m s with
       | (Ok a, s') => (Ok a, s')
       | (Raise e, s') => h e s'
       end.

(** [try: m except <class> as e: h e], the class given by the test [p]. *)
Definition try_except_if {S A} (p : exn → bool) (m : M S A) (h : exn → M S A)
  : M S A :=
  λ s, match m s with
       | (Ok a, s') => (Ok a, s')
       | (Raise e, s') => if p e then h e s' else (Raise e, s')
       end.

(** Run a computation of a component inside a larger world. *)
Definition zoom {S T A} (proj : T → S) (upd : S → T → T) (m : M S A) : M T A :=
  λ t, match m (proj t) with (o, s') => (o, upd s' t) end.

Declare Scope py_scope.
Delimit Scope py_scope with py.
Notation "x <- m ;; k" := (bind m (λ x, k))
  (at level 100, m at next level, right associativity) : py_scope.
Notation "m ;;; k" := (bind m (λ _, k))
  (at level 100, right associativity) : py_scope.
Local Open Scope py_scope.

(** ** Logging *)

Inductive Level := INFO | WARNING | ERROR.
Definition LogRecord : Type := Level * string.

(** ** Python string operations *)

(** [sub in s] on strings: substring containment. *)
Fixpoint str_in (sub s : string) : bool :=
  String.prefix sub s ||
  match s with
  | EmptyString => false
  | String _ s' => str_in sub s'
  end.

(** What "contains" means: [s] is [a + sub + b] for some [a], [b]. *)
Definition substring_of (sub s : string) : Prop :=
  ∃ a b, s = a +:+ sub +:+ b.

(** Python text is a sequence of code points; a [string] here holds its
    UTF-8 bytes.  Substring tests on the bytes of well-formed text are substring
    tests on the code points.  A code point starts at every byte that is not a
    continuation byte [10xxxxxx]. *)
Definition is_continuation (c : Ascii.ascii) : bool :=
  let n := Ascii.N_of_ascii c in ((128 <=? n) && (n <? 192))%N.

(** [len(s)]: the number of code points. *)
Fixpoint str_len (s : string) : nat :=
  match s with
  | EmptyString => 0
  | String c s' => if is_continuation c then str_len s' else S (str_len s')
  end.

(** [s[:n]]: the first [n] code points, each with its continuation bytes. *)
Fixpoint str_take (n : nat) (s : string) : string :=
  match s with
  | EmptyString => EmptyString
  | String c s' =>
      if is_continuation c then String c (str_take n s')
      else match n with
           | O => EmptyString
           | S n' => String c (str_take n' s')
           end
  end.

(** Text of ASCII characters only. *)
Fixpoint is_ascii (s : string) : bool :=
  match s with
  | EmptyString => true
  | String c s' => (Ascii.N_of_ascii c <? 128)%N && is_ascii s'
  end.

(** [c.lower()] for an ASCII character: only A-Z are cased. *)
Definition ascii_lower_char (c : Ascii.ascii) : Ascii.ascii :=
  let n := Ascii.N_of_ascii c in
  if ((65 <=? n) && (n <=? 90))%N then Ascii.ascii_of_N (n + 32) else c.

(** [s.lower()] for ASCII text. *)
Fixpoint ascii_lower (s : string) : string :=
  match s with
  | EmptyString => EmptyString
  | String c s' => String (ascii_lower_char c) (ascii_lower s')
  end.

(** [s.lower()].  Python lower-cases by the Unicode tables of the
    interpreter, which are no part of this repository: [lower] is a
    collaborator.  Of it only this is used: on ASCII text it turns A-Z into
    a-z and leaves the rest alone.  (Outside ASCII it may well produce ASCII
    letters: U+212A becomes [k], U+0130 becomes [i] and U+0307.) *)
Class TextEnv : Type := {
  lower : string → string;
  lower_ascii : ∀ s, is_ascii s = true → lower s = ascii_lower s;
}.

(** [any(keyword in s for keyword in keywords)] *)
Definition any_keyword_in (keywords : list string) (s : string) : bool :=
  existsb (λ keyword, str_in keyword s) keywords.

(** ** The orchestrator: [app/services/orchestrator.py] *)

(** A decoded JSON value; an object is the Python dict it decodes to, kept
    as an association list ([dict.get] finds the binding of a key). *)
Inductive json : Type :=
| JNull
| JBool (b : bool)
| JNum (q : Q)
| JStr (s : string)
| JArr (items : list json)
| JObj (fields : list (string * json)).

(** What the router talks to.  [ainvoke n messages] is the reply of the
    [n]-th call of [self.llm.ainvoke] (the model need not answer the same way
    twice); [json_loads] is [json.loads]. *)
Class RouterEnv : Type := {
  router_text_env :: TextEnv;
  ainvoke : nat → string → outcome string;
  json_loads : string → outcome json;
}.

Record RouterWorld : Type := {
  llm_calls : list string;       (* messages passed to llm.ainvoke, in order *)
  router_log : list LogRecord;
}.

Module Orchestrator.

Definition general_keywords : list string :=
  ["weather"; "temperature"; "forecast"; "rain"; "sunny";
   "calculate"; "math"; "time"; "timezone"; "what time";
   "hello"; "hi"; "how are you"; "thank"].

Definition medical_keywords : list string :=
  ["sick"; "ill"; "pain"; "symptom"; "disease"; "health";
   "medical"; "doctor"; "medicine"; "treatment"; "diagnosis"].

Definition ai_keywords : list string :=
  ["ai"; "ml"; "machine learning"; "neural"; "deep learning";
   "model"; "algorithm"; "training"; "dataset"; "tensorflow";
   "pytorch"; "scikit"; "nlp"; "computer vision"].

Definition real_estate_keywords : list string :=
  ["property"; "house"; "apartment"; "real estate";
   "mortgage"; "rent"; "buy house"; "sell house"].

Definition sales_keywords : list string :=
  ["sales"; "customer"; "client"; "revenue"; "deal";
   "lead"; "crm"; "pipeline"; "quota"; "prospect"].

Definition education_keywords : list string :=
  ["learn"; "study"; "education"; "course"; "teach";
   "school"; "university"; "exam"; "homework"; "curriculum"].

Definition valid_agents : list string :=
  ["general"; "real_estate"; "medical"; "ai_ml"; "sales"; "education"].

(** [logger.info], [logger.warning], [logger.error].  Messages that print a
    decoded value keep their fixed text only. *)
Definition logger (lvl : Level) (msg : string) : M RouterWorld unit :=
  modify (λ w, {| llm_calls := llm_calls w;
                  router_log := router_log w ++ [(lvl, msg)] |}).

(** [self.routing_prompt.format_messages(query=query)]: the fixed template
    with the query substituted. *)
Definition format_messages (query : string) : string :=
  "Analyze the following query and determine which agent(s) should handle it. Query: "
  +:+ query +:+ " Response (JSON only):".

(** [await self.llm.ainvoke(messages)]: the call is recorded, then the model
    answers or raises. *)
Definition llm_ainvoke `{RouterEnv} (messages : string) : M RouterWorld string :=
  λ w, (ainvoke (length (llm_calls w)) messages,
        {| llm_calls := llm_calls w ++ [messages];
           router_log := router_log w |}).

(** The longest prefix of [s] that ends with a closing brace. *)
Fixpoint upto_last_close (s : string) : option string :=
  match s with
  | EmptyString => None
  | String c s' =>
      match upto_last_close s' with
      | Some p => Some (String c p)
      | None => if Ascii.eqb c "}"%char then Some (String c EmptyString) else None
      end
  end.

(** [re.search(r'\{.*\}', text, re.DOTALL)]: the leftmost opening brace and,
    the star being greedy and the dot matching newlines, everything up to the
    last closing brace after it; [None] when there is no such pair. *)
Fixpoint re_search_braces (text : string) : option string :=
  match text with
  | EmptyString => None
  | String c s' =>
      if Ascii.eqb c "{"%char
      then String c <$> upto_last_close s'
      else re_search_braces s'
  end.

(** [routing_decision.get(key, default)]; on a value that is not a dict the
    attribute lookup raises. *)
Definition dict_get (d : json) (key : string) (default : json)
  : M RouterWorld json :=
  match d with
  | JObj fields =>
      ret (match list_find (λ kv, kv.1 = key) fields with
           | Some (_, (_, v)) => v
           | None => default
           end)
  | _ => raise (AttributeError "object has no attribute 'get'")
  end.

(** [primary_agent not in valid_agents]: only a string equals a string. *)
Definition not_in_valid_agents (primary_agent : json) : bool :=
  match primary_agent with
  | JStr s => negb (bool_decide (s ∈ valid_agents))
  | _ => true
  end.

(** The value returned for a primary agent that passed validation. *)
Definition agent_name_of (primary_agent : json) : string :=
  match primary_agent with JStr s => s | _ => "" end.

Definition route_query `{RouterEnv} (query : string) : M RouterWorld string :=
  try_except
    (let query_lower := lower query in
     if any_keyword_in general_keywords query_lower then
       logger INFO ("Routing to general agent for query: " +:+ str_take 50 query +:+ "...") ;;;
       ret "general"
     else if any_keyword_in medical_keywords query_lower then
       logger INFO ("Routing to medical agent for query: " +:+ str_take 50 query +:+ "...") ;;;
       ret "medical"
     else if any_keyword_in ai_keywords query_lower then
       logger INFO ("Routing to ai_ml agent for query: " +:+ str_take 50 query +:+ "...") ;;;
       ret "ai_ml"
     else if any_keyword_in real_estate_keywords query_lower then
       logger INFO ("Routing to real_estate agent for query: " +:+ str_take 50 query +:+ "...") ;;;
       ret "real_estate"
     else if any_keyword_in sales_keywords query_lower then
       logger INFO ("Routing to sales agent for query: " +:+ str_take 50 query +:+ "...") ;;;
       ret "sales"
     else if any_keyword_in education_keywords query_lower then
       logger INFO ("Routing to education agent for query: " +:+ str_take 50 query +:+ "...") ;;;
       ret "education"
     else
       let messages := format_messages query in
       response_text <- llm_ainvoke messages ;;
       try_except_if is_JSONDecodeError
         (match re_search_braces response_text with
          | Some json_match =>
              routing_decision <- lift_outcome (json_loads json_match) ;;
              primary_agent <- dict_get routing_decision "primary_agent" (JStr "general") ;;
              confidence <- dict_get routing_decision "confidence" (JNum 0) ;;
              reasoning <- dict_get routing_decision "reasoning" (JStr "") ;;
              logger INFO "Routing decision" ;;;
              if not_in_valid_agents primary_agent then
                logger WARNING "Invalid agent name, using general" ;;;
                ret "general"
              else ret (agent_name_of primary_agent)
          | None =>
              logger WARNING ("Could not parse routing response: " +:+ response_text) ;;;
              ret "general"
          end)
         (λ e, logger ERROR ("Error parsing routing response: " +:+ exn_str e) ;;;
               ret "general"))
    (λ e, logger ERROR ("Error in route_query: " +:+ exn_str e) ;;;
          ret "general").

(** The fast path in the specification's words: the six keyword sets in
    their declared priority order, and the identity of the first set with a
    hit in the lower-cased query. *)
Definition keyword_sets : list (string * list string) :=
  [("general", general_keywords); ("medical", medical_keywords);
   ("ai_ml", ai_keywords); ("real_estate", real_estate_keywords);
   ("sales", sales_keywords); ("education", education_keywords)].

Definition first_hit (query_lower : string) : option string :=
  fst <$> List.find (λ set, any_keyword_in set.2 query_lower) keyword_sets.

(** A keyword set hits a (lower-cased) query when the query contains one of
    its keywords. *)
Definition hits (keywords : list string) (query_lower : string) : Prop :=
  ∃ keyword, keyword ∈ keywords ∧ substring_of keyword query_lower.

(** The ways the classifier tier can fail on the [n]-th model call. *)
Inductive classifier_fails `{RouterEnv} (n : nat) (query : string) : Prop :=
| call_raises e :
    ainvoke n (format_messages query) = Raise e →
    classifier_fails n query
| no_json_object text :
    ainvoke n (format_messages query) = Ok text →
    re_search_braces text = None →
    classifier_fails n query
| json_unparseable text m e :
    ainvoke n (format_messages query) = Ok text →
    re_search_braces text = Some m →
    json_loads m = Raise e →
    classifier_fails n query
| not_an_object text m v :
    ainvoke n (format_messages query) = Ok text →
    re_search_braces text = Some m →
    json_loads m = Ok v →
    (∀ fields, v ≠ JObj fields) →
    classifier_fails n query
| unknown_primary_agent text m fields v :
    ainvoke n (format_messages query) = Ok text →
    re_search_braces text = Some m →
    json_loads m = Ok (JObj fields) →
    list_find (λ kv, kv.1 = "primary_agent") fields = Some v →
    not_in_valid_agents v.2.2 = true →
    classifier_fails n query.

End Orchestrator.

(** ** Documents *)

Inductive MetaVal : Type :=
| MStr (s : string)
| MInt (n : Z).

(** langchain's [Document]: text and a metadata dict. *)
Record Document : Type := {
  page_content : string;
  metadata : gmap string MetaVal;
}.

(** [doc.metadata.update(new)]: new keys win. *)
Definition metadata_update (new : gmap string MetaVal) (doc : Document)
  : Document :=
  {| page_content := page_content doc; metadata := new ∪ metadata doc |}.

(** A collaborator outside this repository returns a value or fails with an
    error of its own. *)
Inductive extern (A : Type) : Type :=
| Returns (a : A)
| Fails (msg : string).
Arguments Returns {A} a.
Arguments Fails {A} msg.

Global Instance extern_eq_dec {A} `{EqDecision A} : EqDecision (extern A).
Proof. solve_decision. Defined.

Definition call {S A} (r : extern A) : M S A :=
  match r with
  | Returns a => ret a
  | Fails msg => raise (ExternalError msg)
  end.

(** ** The vector store service: [app/services/vector_store.py] *)

(** A FAISS store, as far as this service looks into it: the documents it
    indexes. *)
Record FAISS : Type := { docstore : list Document }.

(** [a >= b] on the values of two floats. *)
Definition float_ge (a b : float) : bool := PrimFloat.leb b a.

(** A Python float rounded to single precision (to nearest, ties to even;
    infinite on overflow), as a cast to [numpy.float32] does. *)
Definition to_float32 (x : float) : float :=
  match Prim2SF x with
  | S754_finite s m e =>
      SF2Prim (SpecFloat.binary_normalize 24 128 (if s then Z.neg m else Z.pos m) e s)
  | _ => x
  end.

(** [similarity_search_with_score store query k] is langchain's
    [FAISS.similarity_search_with_score(query, k=k)].  Its scores are
    [numpy.float32] values; a score is kept as the float of the same value,
    which is also what [float(score)] gives.  [numpy2] tells whether NumPy
    promotes by NEP 50 (NumPy 2 and later).  [unlink_error file] is the error,
    if any, that deleting [file] meets. *)
Class VectorEnv : Type := {
  similarity_search_with_score :
    FAISS → string → Z → outcome (list (Document * float));
  numpy2 : bool;
  unlink_error : string → option exn;
}.

(** [score >= threshold] for a [numpy.float32] score and a Python float
    threshold.  From NumPy 2 on the threshold is cast to the score's type and
    the comparison is made in single precision; before, the score is promoted
    and the comparison is made in double precision. *)
Definition score_ge `{VectorEnv} (score threshold : float) : bool :=
  float_ge score (if numpy2 then to_float32 threshold else threshold).

(** One [VectorStoreService] object and the directory it persists to.  A
    store that failed to load is present in the dict as [None]. *)
Record VectorWorld : Type := {
  vector_stores : gmap string (option FAISS);
  disk : gset string;                  (* files under vector_store_path *)
  vs_log : list LogRecord;
}.

Module VectorStoreService.

Definition logger (lvl : Level) (msg : string) : M VectorWorld unit :=
  modify (λ w, {| vector_stores := vector_stores w; disk := disk w;
                  vs_log := vs_log w ++ [(lvl, msg)] |}).

(** [vector_store.similarity_search_with_score(query, k=k)] on the dict's
    entry; the attribute is missing on [None]. *)
Definition store_search `{VectorEnv} (vector_store : option FAISS)
    (query : string) (k : Z) : M VectorWorld (list (Document * float)) :=
  match vector_store with
  | Some store => lift_outcome (similarity_search_with_score store query k)
  | None => raise (AttributeError
      "'NoneType' object has no attribute 'similarity_search_with_score'")
  end.

Definition search `{VectorEnv} (agent query : string) (k : Z) (threshold : float)
  : M VectorWorld (list (Document * float)) :=
  try_except
    (w <- get ;;
     match vector_stores w !! agent with
     | None =>
         logger WARNING ("No vector store found for " +:+ agent) ;;;
         ret []
     | Some vector_store =>
         results <- store_search vector_store query k ;;
         let filtered_results :=
           filter (λ r, score_ge r.2 threshold = true) results in
         logger INFO ("Found " +:+ pretty (length filtered_results)
                      +:+ " relevant documents for query in " +:+ agent) ;;;
         ret filtered_results
     end)
    (λ e, logger ERROR ("Error searching in " +:+ agent +:+ ": " +:+ exn_str e) ;;;
          ret []).

(** The defaults of [search]: [k = 5], [threshold = 0.7]. *)
Definition default_k : Z := 5.
Definition default_threshold : float := 0.7%float.

Definition _rebuild_store_without_file (agent filename : string)
  : M VectorWorld unit :=
  logger INFO ("Rebuilding store for " +:+ agent +:+ " without " +:+ filename) ;;;
  ret tt.

Definition remove_document (agent filename : string) : M VectorWorld unit :=
  w <- get ;;
  match vector_stores w !! agent with
  | None => ret tt
  | Some _ =>
      try_except
        (logger INFO ("Document removal requested for " +:+ filename +:+ " in " +:+ agent) ;;;
         _rebuild_store_without_file agent filename)
        (λ e, logger ERROR ("Error removing document: " +:+ exn_str e))
  end.

(** [if file.exists(): file.unlink()] *)
Definition unlink_if_exists `{VectorEnv} (file : string) : M VectorWorld unit :=
  w <- get ;;
  if bool_decide (file ∈ disk w) then
    match unlink_error file with
    | Some e => raise e
    | None =>
        modify (λ w, {| vector_stores := vector_stores w;
                        disk := disk w ∖ {[file]};
                        vs_log := vs_log w |})
    end
  else ret tt.

Definition clear_store `{VectorEnv} (agent : string) : M VectorWorld unit :=
  try_except
    (modify (λ w, {| vector_stores := delete agent (vector_stores w);
                     disk := disk w; vs_log := vs_log w |}) ;;;
     unlink_if_exists (agent +:+ ".pkl") ;;;
     unlink_if_exists (agent +:+ ".faiss") ;;;
     logger INFO ("Cleared vector store for " +:+ agent))
    (λ e, logger ERROR ("Error clearing store for " +:+ agent +:+ ": " +:+ exn_str e)).

(** What the agent's store answers to [search]'s query: the list
    [similarity_search_with_score] returns, nothing when the agent has no
    usable store or the call raises. *)
Definition store_results `{VectorEnv} (w : VectorWorld) (agent query : string)
    (k : Z) : list (Document * float) :=
  match vector_stores w !! agent with
  | Some (Some store) =>
      match similarity_search_with_score store query k with
      | Ok results => results
      | Raise _ => []
      end
  | _ => []
  end.

(** [score_i >= score_j] whenever result [i] comes before result [j]. *)
Inductive descending : list (Document * float) → Prop :=
| descending_nil : descending []
| descending_cons r rs :
    Forall (λ r', float_ge r.2 r'.2 = true) rs →
    descending rs →
    descending (r :: rs).

(** The contract the specification gives for the sequence [search] returns. *)
Definition search_contract (k : Z) (threshold : float)
    (results : list (Document * float)) : Prop :=
  (Z.of_nat (length results) ≤ k)%Z ∧
  descending results ∧
  Forall (λ r, float_ge r.2 threshold = true) results.

End VectorStoreService.

(** ** The document loader: [app/services/document_loader.py] *)

(** The file system and the langchain parsers and splitter the loader calls.
    [Path.exists()] and [Path.is_file()] answer, or fail with an [OSError]
    other than the few they take for "no" (a name too long, a directory
    that may not be searched). *)
Class LoaderEnv : Type := {
  loader_text_env :: TextEnv;
  path_exists : string → extern bool;          (* Path.exists() *)
  path_is_file : string → extern bool;         (* Path.is_file() *)
  iterdir : string → extern (list string);     (* entries, as full paths *)
  PyPDFLoader : string → extern (list Document);
  UnstructuredPDFLoader : string → extern (list Document);
  TextLoader : string → extern (list Document);
  UnstructuredWordDocumentLoader : string → extern (list Document);
  UnstructuredMarkdownLoader : string → extern (list Document);
  CSVLoader : string → extern (list Document);
  split_documents : list Document → extern (list Document);
}.

Record LoaderWorld : Type := { loader_log : list LogRecord }.

Module DocumentLoader.

Definition logger (lvl : Level) (msg : string) : M LoaderWorld unit :=
  modify (λ w, {| loader_log := loader_log w ++ [(lvl, msg)] |}).

(** Split a path at its slashes. *)
Fixpoint path_parts (cur : string) (path : string) : list string :=
  match path with
  | EmptyString => [cur]
  | String c rest =>
      if Ascii.eqb c "/"%char
      then cur :: path_parts EmptyString rest
      else path_parts (cur +:+ String c EmptyString) rest
  end.

(** [Path(p).name]: the last component, empty and [.] components dropped. *)
Definition path_name (path : string) : string :=
  List.last
    (filter (λ part, part ≠ EmptyString ∧ part ≠ ".") (path_parts EmptyString path))
    EmptyString.

(** [name.rfind('.')] *)
Fixpoint rfind_dot (name : string) : option nat :=
  match name with
  | EmptyString => None
  | String c rest =>
      match rfind_dot rest with
      | Some i => Some (S i)
      | None => if Ascii.eqb c "."%char then Some 0%nat else None
      end
  end.

(** [Path(p).suffix]: the name from its last dot on, when that dot is neither
    the first nor the last character of the name. *)
Definition path_suffix (path : string) : string :=
  let name := path_name path in
  match rfind_dot name with
  | Some i =>
      if bool_decide (0 < i ∧ i < String.length name - 1)%nat
      then String.substring i (String.length name - i) name
      else EmptyString
  | None => EmptyString
  end.

Inductive loader_func : Type :=
| _load_pdf | _load_text | _load_docx | _load_markdown | _load_csv.

(** [self.loader_mapping.get(file_ext)] *)
Definition loader_mapping (file_ext : string) : option loader_func :=
  if String.eqb file_ext ".pdf" then Some _load_pdf
  else if String.eqb file_ext ".txt" then Some _load_text
  else if String.eqb file_ext ".docx" then Some _load_docx
  else if String.eqb file_ext ".doc" then Some _load_docx
  else if String.eqb file_ext ".md" then Some _load_markdown
  else if String.eqb file_ext ".csv" then Some _load_csv
  else None.

(** [get_supported_formats] *)
Definition supported_formats : list string :=
  [".pdf"; ".txt"; ".docx"; ".doc"; ".md"; ".csv"].

Definition run_loader `{LoaderEnv} (f : loader_func) (file_path : string)
  : M LoaderWorld (list Document) :=
  match f with
  | _load_pdf =>
      try_except (call (PyPDFLoader file_path))
        (λ e, logger ERROR ("Error loading PDF " +:+ file_path +:+ ": " +:+ exn_str e) ;;;
              call (UnstructuredPDFLoader file_path))
  | _load_text => call (TextLoader file_path)
  | _load_docx => call (UnstructuredWordDocumentLoader file_path)
  | _load_markdown => call (UnstructuredMarkdownLoader file_path)
  | _load_csv => call (CSVLoader file_path)
  end.

(** [for i, chunk in enumerate(chunks): chunk.metadata.update(...)] *)
Definition add_chunk_metadata (chunks : list Document) : list Document :=
  imap (λ i chunk,
          metadata_update
            (<["chunk_index" := MInt (Z.of_nat i)]>
               {["total_chunks" := MInt (Z.of_nat (length chunks))]})
            chunk)
       chunks.

Definition does_not_exist (file_path : string) : exn :=
  ValueError ("File " +:+ file_path +:+ " does not exist").

Definition unsupported_file_type (file_ext : string) : exn :=
  ValueError ("Unsupported file type: " +:+ file_ext).

Definition load_single_document `{LoaderEnv} (file_path : string)
  : M LoaderWorld (list Document) :=
  present <- call (path_exists file_path) ;;
  if negb present then raise (does_not_exist file_path)
  else
    let file_ext := lower (path_suffix file_path) in
    match loader_mapping file_ext with
    | None => raise (unsupported_file_type file_ext)
    | Some loader =>
        try_except
          (raw_documents <- run_loader loader file_path ;;
           let raw_documents :=
             map (metadata_update
                    (<["source" := MStr file_path]>
                       (<["filename" := MStr (path_name file_path)]>
                          {["file_type" := MStr file_ext]})))
                 raw_documents in
           chunks <- call (split_documents raw_documents) ;;
           ret (add_chunk_metadata chunks))
          (λ e, logger ERROR ("Error processing document " +:+ file_path +:+ ": " +:+ exn_str e) ;;;
                raise e)
    end.

(** The body of the loop of [load_documents], for one directory entry. *)
Definition load_entry `{LoaderEnv} (documents : list Document) (file_path : string)
  : M LoaderWorld (list Document) :=
  is_file <- call (path_is_file file_path) ;;
  if is_file then
    try_except
      (file_docs <- load_single_document file_path ;;
       logger INFO ("Loaded " +:+ pretty (length file_docs) +:+ " chunks from "
                    +:+ path_name file_path) ;;;
       ret (documents ++ file_docs))
      (λ e, logger ERROR ("Error loading " +:+ path_name file_path +:+ ": " +:+ exn_str e) ;;;
            ret documents)
  else ret documents.

Fixpoint load_entries `{LoaderEnv} (documents : list Document)
    (entries : list string) : M LoaderWorld (list Document) :=
  match entries with
  | [] => ret documents
  | file_path :: rest =>
      documents <- load_entry documents file_path ;;
      load_entries documents rest
  end.

Definition load_documents `{LoaderEnv} (directory_path : string)
  : M LoaderWorld (list Document) :=
  present <- call (path_exists directory_path) ;;
  if negb present then
    logger WARNING ("Directory " +:+ directory_path +:+ " does not exist") ;;;
    ret []
  else
    entries <- call (iterdir directory_path) ;;
    documents <- load_entries [] entries ;;
    logger INFO ("Total documents loaded from " +:+ directory_path +:+ ": "
                 +:+ pretty (length documents)) ;;;
    ret documents.

(** The record the loop writes for a file that raised [e]. *)
Definition error_loading (file_path : string) (e : exn) : LogRecord :=
  (ERROR, "Error loading " +:+ path_name file_path +:+ ": " +:+ exn_str e).

(** The chunks a file contributes to a batch: those of a successful
    [load_single_document], none when it raises.  (What
    [load_single_document] returns does not depend on the log it starts
    from.) *)
Definition chunks_of `{LoaderEnv} (file_path : string) : list Document :=
  match (load_single_document file_path {| loader_log := [] |}).1 with
  | Ok chunks => chunks
  | Raise _ => []
  end.

End DocumentLoader.

(** ** Sessions, agents and the chat turn:
       [app/services/specialized_agents.py], [app/routers/chat.py] *)

Inductive Message : Type :=
| HumanMessage (content : string)
| AIMessage (content : string).

(** An entry of the module-level [sessions] dict.  [memory] is the message
    list of the session's [ConversationBufferMemory]; the agent receives this
    very object and writes into it. *)
Record Session : Type := {
  memory : list Message;
  created_at : string;
  message_count : Z;
  agents_used : list string;
}.

Record ChatRequest : Type := {
  message : string;
  session_id : option string;
  agent_override : option string;
  include_sources : bool;
}.

Record Source : Type := {
  content : string;
  source_metadata : gmap string MetaVal;
  score : float;
}.

(** The dict [process_query] returns. *)
Record AgentResult : Type := {
  result_response : string;
  result_sources : option (list Source);
  result_agent : string;
  result_tokens_used : Z;
}.

Record ChatResponse : Type := {
  response : string;
  response_session_id : string;
  agent_used : string;
  sources : option (list Source);
  sources_count : Z;
  tokens_used : Z;
  timestamp : string;
}.

(** The collaborators of a chat turn.  [construct_agent name] is
    [agent_class()]: it builds the model client, the agent's own
    [VectorStoreService] (loading the persisted stores), the tools and the
    executor, and may raise.  [agent_ainvoke n name input chat_history] is the
    ["output"] of the [n]-th call of an agent executor's [ainvoke]. *)
Class ChatEnv : Type := {
  chat_router_env :: RouterEnv;
  chat_vector_env :: VectorEnv;
  uuid4 : nat → string;
  now_isoformat : nat → string;
  construct_agent : string → outcome VectorWorld;
  agent_ainvoke : nat → string → string → list Message → outcome string;
}.

(** The module-level state of [chat.py].  [route_calls] and [executor_calls]
    record, in order, the calls made to [orchestrator.route_query] and to the
    agent executors. *)
Record ChatWorld : Type := {
  sessions : gmap string Session;
  orchestrator : RouterWorld;
  route_calls : list string;
  _agent_cache : gmap string VectorWorld;
  executor_calls : list (string * string * list Message);
  chat_metrics : list (string * string * Z);
  chat_log : list LogRecord;
  uuids_drawn : nat;
  clock_reads : nat;
}.

Module Chat.

Definition set_sessions (f : gmap string Session → gmap string Session)
    (w : ChatWorld) : ChatWorld :=
  {| sessions := f (sessions w); orchestrator := orchestrator w;
     route_calls := route_calls w; _agent_cache := _agent_cache w;
     executor_calls := executor_calls w; chat_metrics := chat_metrics w;
     chat_log := chat_log w; uuids_drawn := uuids_drawn w;
     clock_reads := clock_reads w |}.

Definition set_orchestrator (o : RouterWorld) (w : ChatWorld) : ChatWorld :=
  {| sessions := sessions w; orchestrator := o;
     route_calls := route_calls w; _agent_cache := _agent_cache w;
     executor_calls := executor_calls w; chat_metrics := chat_metrics w;
     chat_log := chat_log w; uuids_drawn := uuids_drawn w;
     clock_reads := clock_reads w |}.

Definition add_route_call (query : string) (w : ChatWorld) : ChatWorld :=
  {| sessions := sessions w; orchestrator := orchestrator w;
     route_calls := route_calls w ++ [query]; _agent_cache := _agent_cache w;
     executor_calls := executor_calls w; chat_metrics := chat_metrics w;
     chat_log := chat_log w; uuids_drawn := uuids_drawn w;
     clock_reads := clock_reads w |}.

Definition set_agent_cache (f : gmap string VectorWorld → gmap string VectorWorld)
    (w : ChatWorld) : ChatWorld :=
  {| sessions := sessions w; orchestrator := orchestrator w;
     route_calls := route_calls w; _agent_cache := f (_agent_cache w);
     executor_calls := executor_calls w; chat_metrics := chat_metrics w;
     chat_log := chat_log w; uuids_drawn := uuids_drawn w;
     clock_reads := clock_reads w |}.

Definition add_executor_call (c : string * string * list Message)
    (w : ChatWorld) : ChatWorld :=
  {| sessions := sessions w; orchestrator := orchestrator w;
     route_calls := route_calls w; _agent_cache := _agent_cache w;
     executor_calls := executor_calls w ++ [c]; chat_metrics := chat_metrics w;
     chat_log := chat_log w; uuids_drawn := uuids_drawn w;
     clock_reads := clock_reads w |}.

Definition add_metric (m : string * string * Z) (w : ChatWorld) : ChatWorld :=
  {| sessions := sessions w; orchestrator := orchestrator w;
     route_calls := route_calls w; _agent_cache := _agent_cache w;
     executor_calls := executor_calls w; chat_metrics := chat_metrics w ++ [m];
     chat_log := chat_log w; uuids_drawn := uuids_drawn w;
     clock_reads := clock_reads w |}.

Definition add_log (r : LogRecord) (w : ChatWorld) : ChatWorld :=
  {| sessions := sessions w; orchestrator := orchestrator w;
     route_calls := route_calls w; _agent_cache := _agent_cache w;
     executor_calls := executor_calls w; chat_metrics := chat_metrics w;
     chat_log := chat_log w ++ [r]; uuids_drawn := uuids_drawn w;
     clock_reads := clock_reads w |}.

Definition logger (lvl : Level) (msg : string) : M ChatWorld unit :=
  modify (add_log (lvl, msg)).

(** [str(uuid.uuid4())] *)
Definition draw_uuid `{ChatEnv} : M ChatWorld string :=
  λ w, (Ok (uuid4 (uuids_drawn w)),
        {| sessions := sessions w; orchestrator := orchestrator w;
           route_calls := route_calls w; _agent_cache := _agent_cache w;
           executor_calls := executor_calls w; chat_metrics := chat_metrics w;
           chat_log := chat_log w; uuids_drawn := S (uuids_drawn w);
           clock_reads := clock_reads w |}).

(** [datetime.now().isoformat()] *)
Definition now `{ChatEnv} : M ChatWorld string :=
  λ w, (Ok (now_isoformat (clock_reads w)),
        {| sessions := sessions w; orchestrator := orchestrator w;
           route_calls := route_calls w; _agent_cache := _agent_cache w;
           executor_calls := executor_calls w; chat_metrics := chat_metrics w;
           chat_log := chat_log w; uuids_drawn := uuids_drawn w;
           clock_reads := S (clock_reads w) |}).

(** Truthiness of an [Optional[str]]: neither [None] nor empty. *)
Definition truthy (s : option string) : option string :=
  match s with
  | Some s => if String.eqb s EmptyString then None else Some s
  | None => None
  end.

(** *** Session mutations (all through the alias [session = sessions[id]]) *)

Definition new_session (created : string) : Session :=
  {| memory := []; created_at := created; message_count := 0; agents_used := [] |}.

Definition incr_message_count (s : Session) : Session :=
  {| memory := memory s; created_at := created_at s;
     message_count := message_count s + 1; agents_used := agents_used s |}.

(** [if a not in session["agents_used"]: session["agents_used"].append(a)] *)
Definition track_agent (a : string) (s : Session) : Session :=
  {| memory := memory s; created_at := created_at s;
     message_count := message_count s;
     agents_used := if bool_decide (a ∈ agents_used s) then agents_used s
                    else agents_used s ++ [a] |}.

Definition add_message (m : Message) (s : Session) : Session :=
  {| memory := memory s ++ [m]; created_at := created_at s;
     message_count := message_count s; agents_used := agents_used s |}.

(** *** [SpecializedAgentFactory] *)

Definition agents : list string :=
  ["general"; "real_estate"; "medical"; "ai_ml"; "sales"; "education"].

Definition unknown_agent (agent_name : string) : exn :=
  ValueError ("Unknown agent: " +:+ agent_name).

(** Returns the agent object, here named by its identity; its state lives in
    the cache. *)
Definition get_agent `{ChatEnv} (agent_name : string) : M ChatWorld string :=
  if negb (bool_decide (agent_name ∈ agents)) then raise (unknown_agent agent_name)
  else
    w <- get ;;
    match _agent_cache w !! agent_name with
    | Some _ => ret agent_name
    | None =>
        agent <- lift_outcome (construct_agent agent_name) ;;
        modify (set_agent_cache <[agent_name := agent]>) ;;;
        ret agent_name
    end.

(** *** [BaseSpecializedAgent.process_query] *)

Definition nl : string := String (Ascii.ascii_of_nat 10) EmptyString.

Definition empty_vector_world : VectorWorld :=
  {| vector_stores := ∅; disk := ∅; vs_log := [] |}.

(** [self.vector_store_service.search(agent=self.agent_name, query=query, k=5)]
    on the service object the agent owns. *)
Definition agent_search `{ChatEnv} (agent_name query : string)
  : M ChatWorld (list (Document * float)) :=
  zoom (λ w, default empty_vector_world (_agent_cache w !! agent_name))
       (λ vs', set_agent_cache (alter (λ _, vs') agent_name))
       (VectorStoreService.search agent_name query
          VectorStoreService.default_k VectorStoreService.default_threshold).

Definition context_of (search_results : list (Document * float)) : string :=
  fold_left
    (λ context r, context +:+ nl +:+ "- " +:+ str_take 500 (page_content r.1) +:+ "...")
    search_results
    (nl +:+ nl +:+ "Relevant information from knowledge base:" +:+ nl).

Definition sources_of (search_results : list (Document * float)) : list Source :=
  map (λ r, {| content := str_take 200 (page_content r.1);
               source_metadata := metadata r.1;
               score := r.2 |})
      search_results.

(** [await self.agent.ainvoke({...})]: recorded, then the executor answers
    or raises. *)
Definition executor_ainvoke `{ChatEnv} (agent_name input : string)
    (chat_history : list Message) : M ChatWorld string :=
  λ w, (agent_ainvoke (length (executor_calls w)) agent_name input chat_history,
        add_executor_call (agent_name, input, chat_history) w).

(** [memory] is the session whose memory object is passed, if any. *)
Definition process_query `{ChatEnv} (agent_name query : string)
    (memory_of : option string) (include_sources : bool)
  : M ChatWorld AgentResult :=
  try_except
    (search_results <-
       (if include_sources then agent_search agent_name query else ret []) ;;
     let context :=
       match search_results with [] => EmptyString | _ => context_of search_results end in
     let sources := sources_of search_results in
     let enhanced_query :=
       if String.eqb context EmptyString then query
       else query +:+ nl +:+ context in
     w <- get ;;
     let chat_history :=
       match memory_of with
       | Some sid => default [] (memory <$> sessions w !! sid)
       | None => []
       end in
     output <- executor_ainvoke agent_name enhanced_query chat_history ;;
     match memory_of with
     | Some sid =>
         modify (set_sessions (alter (add_message (HumanMessage query)) sid)) ;;;
         modify (set_sessions (alter (add_message (AIMessage output)) sid))
     | None => ret tt
     end ;;;
     ret {| result_response := output;
            result_sources := if include_sources then Some sources else None;
            result_agent := agent_name;
            result_tokens_used := 0 |})
    (λ e, logger ERROR ("Error processing query in " +:+ agent_name +:+ ": " +:+ exn_str e) ;;;
          raise e).

(** *** [send_message] *)

(** [await orchestrator.route_query(request.message)] *)
Definition call_route_query `{ChatEnv} (query : string) : M ChatWorld string :=
  modify (add_route_call query) ;;;
  zoom orchestrator set_orchestrator (Orchestrator.route_query query).

Definition failed_to_process (e : exn) : exn :=
  HTTPException 500 ("Failed to process message: " +:+ exn_str e).

Definition send_message `{ChatEnv} (request : ChatRequest)
  : M ChatWorld ChatResponse :=
  try_except
    (sid <- match truthy (session_id request) with
            | Some s => ret s
            | None => draw_uuid
            end ;;
     w <- get ;;
     match sessions w !! sid with
     | Some _ => ret tt
     | None =>
         created <- now ;;
         modify (set_sessions <[sid := new_session created]>)
     end ;;;
     modify (set_sessions (alter incr_message_count sid)) ;;;
     logger INFO ("Processing message for session " +:+ sid +:+ ": "
                  +:+ str_take 100 (message request) +:+ "...") ;;;
     selected_agent <-
       match truthy (agent_override request) with
       | Some a =>
           logger INFO ("Using override agent: " +:+ a) ;;;
           ret a
       | None =>
           a <- call_route_query (message request) ;;
           logger INFO ("Orchestrator selected agent: " +:+ a) ;;;
           ret a
       end ;;
     modify (set_sessions (alter (track_agent selected_agent) sid)) ;;;
     agent <- get_agent selected_agent ;;
     result <- process_query agent (message request) (Some sid)
                 (include_sources request) ;;
     let tokens := result_tokens_used result in
     let count :=
       if include_sources request
       then Z.of_nat (length (default [] (result_sources result)))
       else 0%Z in
     modify (add_metric (sid, selected_agent, tokens)) ;;;
     logger INFO "Message processed successfully" ;;;
     stamp <- now ;;
     ret {| response := result_response result;
            response_session_id := sid;
            agent_used := selected_agent;
            sources := if include_sources request then result_sources result else None;
            sources_count := count;
            tokens_used := tokens;
            timestamp := stamp |})
    (λ e, logger ERROR ("Error processing chat message: " +:+ exn_str e) ;;;
          raise (failed_to_process e)).

(** *** What a turn works on, read off the state it starts from *)

(** The session id: the client's, or a fresh UUID. *)
Definition turn_session_id `{ChatEnv} (request : ChatRequest) (w : ChatWorld)
  : string :=
  match truthy (session_id request) with
  | Some s => s
  | None => uuid4 (uuids_drawn w)
  end.

(** The identity [orchestrator.route_query] returns for a query. *)
Definition routed `{ChatEnv} (query : string) (w : ChatWorld) : string :=
  match (Orchestrator.route_query query (orchestrator w)).1 with
  | Ok a => a
  | Raise _ => "general"
  end.

(** The selected agent: the override when there is one, else the router's. *)
Definition turn_agent `{ChatEnv} (request : ChatRequest) (w : ChatWorld)
  : string :=
  match truthy (agent_override request) with
  | Some a => a
  | None => routed (message request) w
  end.

(** The session as the turn finds it (a new one when the id is unknown). *)
Definition session_at_start `{ChatEnv} (request : ChatRequest) (w : ChatWorld)
  : Session :=
  default (new_session (now_isoformat (clock_reads w)))
          (sessions w !! turn_session_id request w).

(** The session after the bookkeeping that precedes the dispatch. *)
Definition session_booked `{ChatEnv} (request : ChatRequest) (w : ChatWorld)
  : Session :=
  track_agent (turn_agent request w)
    (incr_message_count (session_at_start request w)).

(** The session after a successful answer [output]. *)
Definition session_answered `{ChatEnv} (request : ChatRequest) (w : ChatWorld)
    (output : string) : Session :=
  add_message (AIMessage output)
    (add_message (HumanMessage (message request)) (session_booked request w)).

(** The parts of the state a step of the turn may leave alone. *)
Definition same_turn_state (w w' : ChatWorld) : Prop :=
  sessions w' = sessions w ∧
  route_calls w' = route_calls w ∧
  executor_calls w' = executor_calls w ∧
  llm_calls (orchestrator w') = llm_calls (orchestrator w).

End Chat.

(** ** The orchestrator, continued: coordination and complexity analysis *)

(** The dict [analyze_query_complexity] returns.  [indicators] is a dict of
    flags (empty in the fallback result). *)
Record ComplexityAnalysis : Type := {
  complexity_score : float;
  indicators : gmap string bool;
  domains_mentioned : list string;
  requires_multi_agent : bool;
}.

Module OrchestratorAgent.

(** [domain_keywords], in the order of the dict literal. *)
Definition domain_keywords : list (string * list string) :=
  [("real_estate", ["property"; "house"; "apartment"; "mortgage"; "real estate"]);
   ("medical", ["health"; "medical"; "symptom"; "treatment"; "disease"]);
   ("ai_ml", ["AI"; "machine learning"; "neural"; "algorithm"; "model"]);
   ("sales", ["sales"; "customer"; "revenue"; "marketing"; "lead"]);
   ("education", ["learn"; "study"; "course"; "education"; "teach"])].

Definition comparison_words : list string :=
  ["compare"; "versus"; "vs"; "difference"; "better"; "choose"].

Definition technical_words : list string :=
  ["implement"; "architecture"; "optimize"; "integrate"; "develop"].

(** [any(keyword.lower() in query.lower() for keyword in keywords)] *)
Definition mentions `{TextEnv} (keywords : list string) (query : string) : bool :=
  existsb (λ keyword, str_in (lower keyword) (lower query)) keywords.

(** The loop that fills [domains_mentioned]. *)
Definition mentioned_domains `{TextEnv} (query : string) : list string :=
  (filter (λ d, mentions d.2 query = true) domain_keywords).*1.

(** [sum(d.values())] for a dict of booleans. *)
Definition sum_values (d : gmap string bool) : Z :=
  map_fold (λ _ (b : bool) acc, (acc + (if b then 1 else 0))%Z) 0%Z d.

(** [a / b] on two small non-negative ints: the float quotient. *)
Definition true_div (a b : Z) : float :=
  PrimFloat.div (PrimFloat.of_uint63 (Uint63.of_Z a))
                (PrimFloat.of_uint63 (Uint63.of_Z b)).

(** [a > b] on floats. *)
Definition float_gt (a b : float) : bool := PrimFloat.ltb b a.

Definition analyze_query_complexity `{TextEnv} (query : string)
  : M RouterWorld ComplexityAnalysis :=
  try_except
    (let domains := mentioned_domains query in
     let complexity_indicators : gmap string bool :=
       <["technical_depth" := any_keyword_in technical_words (lower query)]>
         (<["comparison" := any_keyword_in comparison_words (lower query)]>
            (<["multi_domain" := bool_decide (1 < length domains)%nat]>
               (<["requires_context" := false]> ∅))) in
     let score := true_div (sum_values complexity_indicators)
                           (Z.of_nat (size complexity_indicators)) in
     ret {| complexity_score := score;
            indicators := complexity_indicators;
            domains_mentioned := domains;
            requires_multi_agent :=
              float_gt score 0.5%float || bool_decide (1 < length domains)%nat |})
    (λ e, Orchestrator.logger ERROR
            ("Error analyzing query complexity: " +:+ exn_str e) ;;;
          ret {| complexity_score := 0%float; indicators := ∅;
                 domains_mentioned := []; requires_multi_agent := false |}).

(** The prompt [coordinate_multi_agent_response] builds; [secondary] is the
    dict of secondary responses in iteration order. *)
Definition coord_prompt (query primary_agent_response : string)
    (secondary_responses : list (string * string)) : string :=
  fold_left
    (λ prompt r, prompt +:+ Chat.nl +:+ r.1 +:+ ": " +:+ r.2 +:+ Chat.nl)
    secondary_responses
    ("You are coordinating responses from multiple specialized agents for this query: "
     +:+ query +:+ Chat.nl +:+ "Primary response (main answer):" +:+ Chat.nl
     +:+ primary_agent_response +:+ Chat.nl
     +:+ "Additional context from other agents:" +:+ Chat.nl)
  +:+ "Please synthesize these responses into a comprehensive, coherent answer. Synthesized response:".

(** The two messages sent, system then human. *)
Definition coord_messages (query primary_agent_response : string)
    (secondary_responses : list (string * string)) : string :=
  "You are a response coordinator that synthesizes multiple expert opinions into coherent answers."
  +:+ Chat.nl +:+ coord_prompt query primary_agent_response secondary_responses.

Definition coordinate_multi_agent_response `{RouterEnv}
    (query primary_agent_response : string)
    (secondary_responses : list (string * string)) : M RouterWorld string :=
  try_except
    (response <- Orchestrator.llm_ainvoke
                   (coord_messages query primary_agent_response secondary_responses) ;;
     ret response)
    (λ e, Orchestrator.logger ERROR ("Error coordinating responses: " +:+ exn_str e) ;;;
          ret primary_agent_response).

End OrchestratorAgent.

(** ** The vector store service, continued: building and loading stores *)

(** The rest of langchain's FAISS the service calls.  [from_documents] embeds
    and builds a store; [store_add_documents store docs] is the in-place
    [store.add_documents(docs)]: the store as the call leaves it, and the
    error it raised, if any; [save_local store name files] gives the folder as
    the call leaves it, and its error, if any; [load_local files name] reads a
    store back; [as_retriever] wraps a store. *)
Class IndexEnv : Type := {
  index_vector_env :: VectorEnv;
  from_documents : list Document → extern FAISS;
  store_add_documents : FAISS → list Document → FAISS * option string;
  save_local : FAISS → string → gset string → gset string * option string;
  load_local : gset string → string → extern FAISS;
  as_retriever : FAISS → extern FAISS;
}.

(** The dict [get_store_stats] returns. *)
Record StoreStats : Type := {
  stats_exists : bool;
  stats_agent : option string;
  stats_error : option string;
}.

Module VectorStore.

Definition set_stores (f : gmap string (option FAISS) → gmap string (option FAISS))
    (w : VectorWorld) : VectorWorld :=
  {| vector_stores := f (vector_stores w); disk := disk w; vs_log := vs_log w |}.

Definition set_disk (d : gset string) (w : VectorWorld) : VectorWorld :=
  {| vector_stores := vector_stores w; disk := d; vs_log := vs_log w |}.

Definition none_has_no (attribute : string) : exn :=
  AttributeError ("'NoneType' object has no attribute '" +:+ attribute +:+ "'").

Definition _save_store `{IndexEnv} (agent : string) (vector_store : option FAISS)
  : M VectorWorld unit :=
  try_except
    (match vector_store with
     | None => raise (none_has_no "save_local")
     | Some store =>
         w <- get ;;
         let saved := save_local store agent (disk w) in
         modify (set_disk saved.1) ;;;
         match saved.2 with
         | Some msg => raise (ExternalError msg)
         | None => ret tt
         end
     end ;;;
     VectorStoreService.logger INFO ("Saved vector store for " +:+ agent))
    (λ e, VectorStoreService.logger ERROR
            ("Error saving vector store for " +:+ agent +:+ ": " +:+ exn_str e)).

Definition _load_store `{IndexEnv} (agent : string) : M VectorWorld (option FAISS) :=
  try_except
    (w <- get ;;
     vector_store <- call (load_local (disk w) agent) ;;
     ret (Some vector_store))
    (λ e, VectorStoreService.logger ERROR
            ("Error loading vector store for " +:+ agent +:+ ": " +:+ exn_str e) ;;;
          ret None).

(** What a load attempt leaves for the dict: the store, or [None]. *)
Definition loaded `{IndexEnv} (files : gset string) (agent : string)
  : option FAISS :=
  match load_local files agent with
  | Returns store => Some store
  | Fails _ => None
  end.

(** [fnmatch(name, "*.pkl")] *)
Definition is_pkl (name : string) : bool :=
  (4 <=? String.length name)%nat &&
  String.eqb (String.substring (String.length name - 4) 4 name) ".pkl".

(** [Path(name).stem]: the name without its suffix. *)
Definition path_stem (name : string) : string :=
  String.substring 0
    (String.length name - String.length (DocumentLoader.path_suffix name)) name.

(** [self.vector_store_path.glob("*.pkl")], in the order [elements] lists the
    folder (the order only shows in the order of the log lines). *)
Definition glob_pkl (files : gset string) : list string :=
  filter (λ name, is_pkl name = true) (elements files).

Fixpoint load_each `{IndexEnv} (store_files : list string) : M VectorWorld unit :=
  match store_files with
  | [] => ret tt
  | store_file :: rest =>
      let agent_name := path_stem store_file in
      try_except
        (vector_store <- _load_store agent_name ;;
         modify (set_stores <[agent_name := vector_store]>) ;;;
         VectorStoreService.logger INFO ("Loaded vector store for " +:+ agent_name))
        (λ e, VectorStoreService.logger ERROR
                ("Error loading vector store for " +:+ agent_name +:+ ": " +:+ exn_str e)) ;;;
      load_each rest
  end.

Definition _load_existing_stores `{IndexEnv} : M VectorWorld unit :=
  w <- get ;;
  load_each (glob_pkl (disk w)).

Definition create_vector_store `{IndexEnv} (agent : string) (documents : list Document)
  : M VectorWorld (option FAISS) :=
  try_except
    (match documents with
     | [] =>
         VectorStoreService.logger WARNING ("No documents provided for " +:+ agent) ;;;
         ret None
     | _ =>
         vector_store <- call (from_documents documents) ;;
         modify (set_stores <[agent := Some vector_store]>) ;;;
         _save_store agent (Some vector_store) ;;;
         VectorStoreService.logger INFO
           ("Created vector store for " +:+ agent +:+ " with "
            +:+ pretty (length documents) +:+ " documents") ;;;
         ret (Some vector_store)
     end)
    (λ e, VectorStoreService.logger ERROR
            ("Error creating vector store for " +:+ agent +:+ ": " +:+ exn_str e) ;;;
          raise e).

Definition add_documents `{IndexEnv} (agent : string) (documents : list Document)
  : M VectorWorld Z :=
  try_except
    (match documents with
     | [] => ret 0%Z
     | _ =>
         w <- get ;;
         vector_store <-
           match vector_stores w !! agent with
           | Some None => raise (none_has_no "add_documents")
           | Some (Some store) =>
               let added := store_add_documents store documents in
               modify (set_stores <[agent := Some added.1]>) ;;;
               match added.2 with
               | Some msg => raise (ExternalError msg)
               | None => ret (Some added.1)
               end
           | None => create_vector_store agent documents
           end ;;
         _save_store agent vector_store ;;;
         VectorStoreService.logger INFO
           ("Added " +:+ pretty (length documents) +:+ " documents to "
            +:+ agent +:+ " vector store") ;;;
         ret (Z.of_nat (length documents))
     end)
    (λ e, VectorStoreService.logger ERROR
            ("Error adding documents to " +:+ agent +:+ ": " +:+ exn_str e) ;;;
          raise e).

Definition get_retriever `{IndexEnv} (agent : string)
  : M VectorWorld (option FAISS) :=
  w <- get ;;
  match vector_stores w !! agent with
  | None =>
      VectorStoreService.logger WARNING ("No vector store found for " +:+ agent) ;;;
      ret None
  | Some None => raise (none_has_no "as_retriever")
  | Some (Some store) =>
      retriever <- call (as_retriever store) ;;
      ret (Some retriever)
  end.

Definition get_store_stats (agent : string) : M VectorWorld StoreStats :=
  w <- get ;;
  match vector_stores w !! agent with
  | None => ret {| stats_exists := false; stats_agent := None; stats_error := None |}
  | Some _ =>
      try_except
        (ret {| stats_exists := true; stats_agent := Some agent; stats_error := None |})
        (λ e, VectorStoreService.logger ERROR
                ("Error getting stats for " +:+ agent +:+ ": " +:+ exn_str e) ;;;
              ret {| stats_exists := false; stats_agent := None;
                     stats_error := Some (exn_str e) |})
  end.

End VectorStore.

(** ** The document loader, continued *)

Module Loader.

Definition process_text `{LoaderEnv} (text : string)
    (metadata : option (gmap string MetaVal)) : M LoaderWorld (list Document) :=
  let document := {| page_content := text; metadata := default ∅ metadata |} in
  chunks <- call (split_documents [document]) ;;
  ret (DocumentLoader.add_chunk_metadata chunks).

(** What [load_single_document] makes of the documents a parser returned:
    provenance metadata, splitting, chunk metadata. *)
Definition finish_loading `{LoaderEnv} (file_path : string)
    (raw_documents : list Document) : outcome (list Document) :=
  let file_ext := lower (DocumentLoader.path_suffix file_path) in
  match split_documents
          (map (metadata_update
                  (<["source" := MStr file_path]>
                     (<["filename" := MStr (DocumentLoader.path_name file_path)]>
                        {["file_type" := MStr file_ext]})))
               raw_documents) with
  | Returns chunks => Ok (DocumentLoader.add_chunk_metadata chunks)
  | Fails msg => Raise (ExternalError msg)
  end.

End Loader.

(** ** Sessions, continued: clearing, and what a session always satisfies *)

(** The dict [clear_session] returns. *)
Record StatusReply : Type := {
  status : string;
  reply_message : string;
}.

Module Sessions.

Definition clear_session (session_id : string) : M ChatWorld StatusReply :=
  try_except
    (w <- get ;;
     match sessions w !! session_id with
     | Some _ =>
         modify (Chat.set_sessions (delete session_id)) ;;;
         Chat.logger INFO ("Cleared session: " +:+ session_id) ;;;
         ret {| status := "success";
                reply_message := "Session " +:+ session_id +:+ " cleared" |}
     | None =>
         ret {| status := "not_found";
                reply_message := "Session " +:+ session_id +:+ " not found" |}
     end)
    (λ e, Chat.logger ERROR ("Error clearing session: " +:+ exn_str e) ;;;
          raise (HTTPException 500 ("Failed to clear session: " +:+ exn_str e))).

(** A history made of whole turns: a query, then its answer. *)
Inductive turns : list Message → Prop :=
| turns_nil : turns []
| turns_snoc history query answer :
    turns history →
    turns (history ++ [HumanMessage query; AIMessage answer]).

(** What holds of every session the chat endpoints leave behind. *)
Definition session_ok (s : Session) : Prop :=
  NoDup (agents_used s) ∧
  (Z.of_nat (length (agents_used s)) ≤ message_count s)%Z ∧
  turns (memory s) ∧
  (Z.of_nat (length (memory s)) ≤ 2 * message_count s)%Z.

Definition sessions_ok (w : ChatWorld) : Prop :=
  ∀ sid s, sessions w !! sid = Some s → session_ok s.

End Sessions.

(** ** The RAG endpoints: [app/routers/rag.py] *)

(** What the endpoints need besides the loader and the store.  The two path
    functions are pathlib's: [upload_path agent filename] is
    [str(Path(f"dataset/{agent}") / filename)] and [dataset_file agent
    filename] is [Path(f"dataset/{agent}/{filename})"]; [dataset_dir agent] is
    [Path(f"dataset/{agent}")].  [write_upload path] stands for creating the
    directory, reading the upload and writing it to [path]: the error, if
    any.  [unlink_file] deletes a dataset file.  [http_exception_str] is
    [str()] of an [HTTPException].  The file system the loader sees is the
    one after the write. *)
Class RagEnv : Type := {
  rag_loader_env :: LoaderEnv;
  rag_index_env :: IndexEnv;
  dataset_dir : string → string;
  upload_path : string → string → string;
  dataset_file : string → string → string;
  write_upload : string → option string;
  unlink_file : string → option string;
  http_exception_str : Z → string → string;
}.

(** The module-level services of [rag.py]; the metric deques keep the
    integer fields of their records. *)
Record RagWorld : Type := {
  rag_vectors : VectorWorld;
  rag_loader : LoaderWorld;
  rag_log : list LogRecord;
  document_metrics : list (string * string * Z);
  retrieval_metrics : list (string * Z * Z);
}.

Record DocumentUploadResponse : Type := {
  upload_filename : string;
  upload_agent : string;
  chunks_created : Z;
  upload_status : string;
}.

Record RetrievalRequest : Type := {
  retrieval_query : string;
  retrieval_agent : string;
  top_k : Z;
  similarity_threshold : float;
}.

Record RetrievedDocument : Type := {
  retrieved_content : string;
  retrieved_metadata : gmap string MetaVal;
  relevance_score : float;
}.

Record RetrievalResponse : Type := {
  response_query : string;
  response_agent : string;
  documents : list RetrievedDocument;
  total_results : Z;
}.

Record ReindexReply : Type := {
  reindex_status : string;
  reindex_agent : string;
  files_processed : Z;
  total_chunks : Z;
}.

Module Rag.

Definition set_vectors (v : VectorWorld) (w : RagWorld) : RagWorld :=
  {| rag_vectors := v; rag_loader := rag_loader w; rag_log := rag_log w;
     document_metrics := document_metrics w;
     retrieval_metrics := retrieval_metrics w |}.

Definition set_loader (l : LoaderWorld) (w : RagWorld) : RagWorld :=
  {| rag_vectors := rag_vectors w; rag_loader := l; rag_log := rag_log w;
     document_metrics := document_metrics w;
     retrieval_metrics := retrieval_metrics w |}.

Definition logger (lvl : Level) (msg : string) : M RagWorld unit :=
  modify (λ w, {| rag_vectors := rag_vectors w; rag_loader := rag_loader w;
                  rag_log := rag_log w ++ [(lvl, msg)];
                  document_metrics := document_metrics w;
                  retrieval_metrics := retrieval_metrics w |}).

(** [deque(maxlen=1000).append(x)]: the oldest entry goes when full. *)
Definition deque_append {A} (x : A) (d : list A) : list A :=
  if (length d <? 1000)%nat then d ++ [x] else tail d ++ [x].

(** [metrics_logger.log_document_processing(...)] *)
Definition log_document_processing (agent filename : string) (chunks : Z)
  : M RagWorld unit :=
  modify (λ w, {| rag_vectors := rag_vectors w; rag_loader := rag_loader w;
                  rag_log := rag_log w;
                  document_metrics :=
                    deque_append (agent, filename, chunks) (document_metrics w);
                  retrieval_metrics := retrieval_metrics w |}).

(** [metrics_logger.log_retrieval_metrics(...)] *)
Definition log_retrieval_metrics (agent : string) (query_length results_count : Z)
  : M RagWorld unit :=
  modify (λ w, {| rag_vectors := rag_vectors w; rag_loader := rag_loader w;
                  rag_log := rag_log w;
                  document_metrics := document_metrics w;
                  retrieval_metrics :=
                    deque_append (agent, query_length, results_count)
                      (retrieval_metrics w) |}).

(** The services, called from the endpoints. *)
Definition in_vectors {A} (m : M VectorWorld A) : M RagWorld A :=
  zoom rag_vectors set_vectors m.

Definition in_loader {A} (m : M LoaderWorld A) : M RagWorld A :=
  zoom rag_loader set_loader m.

(** [str(e)] where [e] may be an [HTTPException]. *)
Definition str_of `{RagEnv} (e : exn) : string :=
  match e with
  | HTTPException status_code detail => http_exception_str status_code detail
  | _ => exn_str e
  end.

(** A failing file operation. *)
Definition file_operation (error : option string) : M RagWorld unit :=
  match error with
  | Some msg => raise (ExternalError msg)
  | None => ret tt
  end.

Definition valid_agents : list string :=
  ["real_estate"; "medical"; "ai_ml"; "sales"; "education"].

Definition allowed_extensions : list string :=
  [".pdf"; ".txt"; ".docx"; ".md"; ".csv"].

(** [', '.join(items)] *)
Fixpoint join_comma (items : list string) : string :=
  match items with
  | [] => EmptyString
  | [item] => item
  | item :: rest => item +:+ ", " +:+ join_comma rest
  end.

Definition invalid_agent : exn :=
  HTTPException 400 ("Invalid agent. Must be one of: " +:+ join_comma valid_agents).

Definition unsupported_upload : exn :=
  HTTPException 400
    ("Unsupported file type. Allowed: " +:+ join_comma allowed_extensions).

Definition upload_document `{RagEnv} (filename agent : string)
  : M RagWorld DocumentUploadResponse :=
  try_except
    (if negb (bool_decide (agent ∈ valid_agents)) then raise invalid_agent
     else
       let file_ext := lower (DocumentLoader.path_suffix filename) in
       if negb (bool_decide (file_ext ∈ allowed_extensions))
       then raise unsupported_upload
       else
         let file_path := upload_path agent filename in
         file_operation (write_upload file_path) ;;;
         logger INFO ("Saved document " +:+ filename +:+ " for agent " +:+ agent) ;;;
         documents <- in_loader (DocumentLoader.load_single_document file_path) ;;
         chunks <- in_vectors (VectorStore.add_documents agent documents) ;;
         log_document_processing agent filename chunks ;;;
         logger INFO ("Document processed successfully, created "
                      +:+ pretty chunks +:+ " chunks") ;;;
         ret {| upload_filename := filename; upload_agent := agent;
                chunks_created := chunks; upload_status := "success" |})
    (λ e, logger ERROR ("Error uploading document: " +:+ str_of e) ;;;
          raise (HTTPException 500 ("Failed to process document: " +:+ str_of e))).

Definition retrieve_documents `{RagEnv} (request : RetrievalRequest)
  : M RagWorld RetrievalResponse :=
  try_except
    (logger INFO ("Retrieving documents for query: "
                  +:+ str_take 100 (retrieval_query request)
                  +:+ "... from agent: " +:+ retrieval_agent request) ;;;
     results <- in_vectors
                  (VectorStoreService.search (retrieval_agent request)
                     (retrieval_query request) (top_k request)
                     (similarity_threshold request)) ;;
     let docs :=
       map (λ r, {| retrieved_content := page_content r.1;
                    retrieved_metadata := metadata r.1;
                    relevance_score := r.2 |}) results in
     log_retrieval_metrics (retrieval_agent request)
       (Z.of_nat (str_len (retrieval_query request)))
       (Z.of_nat (length docs)) ;;;
     logger INFO ("Retrieved " +:+ pretty (length docs) +:+ " documents") ;;;
     ret {| response_query := retrieval_query request;
            response_agent := retrieval_agent request;
            documents := docs;
            total_results := Z.of_nat (length docs) |})
    (λ e, logger ERROR ("Error retrieving documents: " +:+ str_of e) ;;;
          raise (HTTPException 500 ("Failed to retrieve documents: " +:+ str_of e))).

Definition delete_document `{RagEnv} (agent filename : string)
  : M RagWorld StatusReply :=
  try_except
    (let file_path := dataset_file agent filename in
     present <- call (path_exists file_path) ;;
     if negb present
     then raise (HTTPException 404 "Document not found")
     else
       in_vectors (VectorStoreService.remove_document agent filename) ;;;
       file_operation (unlink_file file_path) ;;;
       logger INFO ("Deleted document " +:+ filename +:+ " from agent " +:+ agent) ;;;
       ret {| status := "success";
              reply_message := "Document " +:+ filename +:+ " deleted successfully" |})
    (λ e, logger ERROR ("Error deleting document: " +:+ str_of e) ;;;
          raise (HTTPException 500 ("Failed to delete document: " +:+ str_of e))).

(** The loop of [reindex_agent_documents]; the state is
    [(total_chunks, processed_files)]. *)
Fixpoint reindex_files `{RagEnv} (agent : string) (counts : Z * Z)
    (entries : list string) : M RagWorld (Z * Z) :=
  match entries with
  | [] => ret counts
  | file_path :: rest =>
      is_file <- call (path_is_file file_path) ;;
      if is_file then
        documents <- in_loader (DocumentLoader.load_single_document file_path) ;;
        chunks <- in_vectors (VectorStore.add_documents agent documents) ;;
        reindex_files agent (counts.1 + chunks, counts.2 + 1)%Z rest
      else reindex_files agent counts rest
  end.

Definition reindex_agent_documents `{RagEnv} (agent : string)
  : M RagWorld ReindexReply :=
  try_except
    (let agent_dir := dataset_dir agent in
     present <- call (path_exists agent_dir) ;;
     if negb present
     then raise (HTTPException 404 "Agent directory not found")
     else
       in_vectors (VectorStoreService.clear_store agent) ;;;
       entries <- call (iterdir agent_dir) ;;
       counts <- reindex_files agent (0, 0)%Z entries ;;
       logger INFO ("Reindexed " +:+ pretty counts.2 +:+ " files with "
                    +:+ pretty counts.1 +:+ " chunks") ;;;
       ret {| reindex_status := "success"; reindex_agent := agent;
              files_processed := counts.2; total_chunks := counts.1 |})
    (λ e, logger ERROR ("Error reindexing documents: " +:+ str_of e) ;;;
          raise (HTTPException 500 ("Failed to reindex documents: " +:+ str_of e))).

End Rag.

(** ** Startup: [main.py] *)

(** What [startup_event] needs besides the loader's and the store's
    collaborators: [Path.is_dir], which answers or fails like [Path.exists],
    and the constructors the two services call, each with the error it raises,
    if any. *)
Class MainEnv : Type := {
  main_loader_env :: LoaderEnv;
  main_index_env :: IndexEnv;
  path_is_dir : string → extern bool;
  RecursiveCharacterTextSplitter : option string;
  OpenAIEmbeddings : option string;
  mkdir_vector_store_path : option string;
}.

(** The services [startup_event] creates, the store folder among them, and
    the log of [main.py]. *)
Record MainWorld : Type := {
  main_vectors : VectorWorld;
  main_loader : LoaderWorld;
  main_log : list LogRecord;
}.

Module Main.

Definition set_vectors (v : VectorWorld) (w : MainWorld) : MainWorld :=
  {| main_vectors := v; main_loader := main_loader w; main_log := main_log w |}.

Definition set_loader (l : LoaderWorld) (w : MainWorld) : MainWorld :=
  {| main_vectors := main_vectors w; main_loader := l; main_log := main_log w |}.

Definition logger (lvl : Level) (msg : string) : M MainWorld unit :=
  modify (λ w, {| main_vectors := main_vectors w; main_loader := main_loader w;
                  main_log := main_log w ++ [(lvl, msg)] |}).

Definition in_vectors {A} (m : M VectorWorld A) : M MainWorld A :=
  zoom main_vectors set_vectors m.

Definition in_loader {A} (m : M LoaderWorld A) : M MainWorld A :=
  zoom main_loader set_loader m.

(** A constructor call that may raise. *)
Definition construct {S} (error : option string) : M S unit :=
  match error with
  | Some msg => raise (ExternalError msg)
  | None => ret tt
  end.

(** [DocumentLoader()] *)
Definition DocumentLoader_init `{MainEnv} : M LoaderWorld unit :=
  construct RecursiveCharacterTextSplitter.

(** [VectorStoreService()]: a new service, with no stores, over the store
    folder. *)
Definition VectorStoreService_init `{MainEnv} : M VectorWorld unit :=
  construct OpenAIEmbeddings ;;;
  modify (VectorStore.set_stores (λ _, ∅)) ;;;
  construct mkdir_vector_store_path ;;;
  VectorStore._load_existing_stores.

(** The body of the loop of [startup_event], for one entry of [dataset]. *)
Definition load_agent_folder `{MainEnv} (agent_folder : string) : M MainWorld unit :=
  is_dir <- call (path_is_dir agent_folder) ;;
  if is_dir then
    let agent_name := DocumentLoader.path_name agent_folder in
    logger INFO ("Loading documents for " +:+ agent_name +:+ " agent...") ;;;
    documents <- in_loader (DocumentLoader.load_documents agent_folder) ;;
    match documents with
    | [] => ret tt
    | _ =>
        in_vectors (VectorStore.create_vector_store agent_name documents) ;;;
        logger INFO ("Created vector store for " +:+ agent_name +:+ " with "
                     +:+ pretty (length documents) +:+ " documents")
    end
  else ret tt.

Fixpoint load_agent_folders `{MainEnv} (entries : list string) : M MainWorld unit :=
  match entries with
  | [] => ret tt
  | agent_folder :: rest =>
      load_agent_folder agent_folder ;;;
      load_agent_folders rest
  end.

Definition startup_event `{MainEnv} : M MainWorld unit :=
  try_except
    (logger INFO "Starting Voice-Enabled AI Agent System..." ;;;
     in_loader DocumentLoader_init ;;;
     in_vectors VectorStoreService_init ;;;
     present <- call (path_exists "dataset") ;;
     (if present then
        entries <- call (iterdir "dataset") ;;
        load_agent_folders entries
      else ret tt) ;;;
     logger INFO "System initialization complete")
    (λ e, logger ERROR ("Error during startup: " +:+ exn_str e) ;;;
          raise e).

(** The documents [load_documents] returns for a folder, none when it
    raises.  (What it returns does not depend on the log it starts from.) *)
Definition folder_documents `{LoaderEnv} (directory_path : string) : list Document :=
  match (DocumentLoader.load_documents directory_path {| loader_log := [] |}).1 with
  | Ok documents => documents
  | Raise _ => []
  end.

(** The entry of [agent] in a new service over the folder [files]. *)
Definition persisted `{IndexEnv} (files : gset string) (agent : string)
  : option (option FAISS) :=
  if decide (agent ∈ VectorStore.path_stem <$> VectorStore.glob_pkl files)
  then Some (VectorStore.loaded files agent)
  else None.

End Main.

(** ** Concrete collaborators and worlds used by the examples *)

Module Examples.

(** Lower-casing that leaves every non-ASCII byte alone: what [str.lower]
    does on the texts of the examples, which are ASCII. *)
Definition ascii_text : TextEnv :=
  {| lower := ascii_lower; lower_ascii := λ _ _, eq_refl |}.

(** A classifier whose every call times out. *)
Definition timeout_model : RouterEnv :=
  {| router_text_env := ascii_text;
     ainvoke := λ _ _, Raise (ExternalError "Request timed out");
     json_loads := λ _, Raise (JSONDecodeError "Expecting value") |}.

Definition fresh_router : RouterWorld :=
  {| llm_calls := []; router_log := [] |}.

Definition chunk (text filename : string) : Document :=
  {| page_content := text; metadata := {["filename" := MStr filename]} |}.

Definition near_chunk : Document := chunk "Rent is due monthly." "lease.txt".
Definition far_chunk : Document := chunk "Deposits are refundable." "faq.txt".

(** A store answering the way langchain's FAISS does by default: the score
    is the L2 distance to the query, nearest (smallest) first, at most [k]
    results.  NumPy is a version 2. *)
Definition l2_store : VectorEnv :=
  {| similarity_search_with_score := λ store _ k,
       Ok (take (Z.to_nat k)
             (zip (docstore store) [0.25%float; 0.75%float]));
     numpy2 := true;
     unlink_error := λ _, None |}.

(** A store whose nearest chunk has the single-precision score closest to
    0.9. *)
Definition single_precision_store : VectorEnv :=
  {| similarity_search_with_score := λ store _ k,
       Ok (take (Z.to_nat k) (zip (docstore store) [0x1.ccccccp-1%float]));
     numpy2 := true;
     unlink_error := λ _, None |}.

Definition indexed : VectorWorld :=
  {| vector_stores := {["real_estate" := Some {| docstore := [near_chunk; far_chunk] |}]};
     disk := {["real_estate.pkl"; "real_estate.faiss"]};
     vs_log := [] |}.

(** A directory with a text file, a PDF no parser can read, a Markdown
    file and a file of an unsupported type; the splitter keeps each parsed
    document as one chunk. *)
Definition docs_files : list string :=
  ["docs/a.txt"; "docs/b.pdf"; "docs/c.md"; "docs/d.xyz"].

Definition plain (text : string) : Document :=
  {| page_content := text; metadata := ∅ |}.

Definition docs_folder : LoaderEnv :=
  {| loader_text_env := ascii_text;
     path_exists := λ p, Returns (bool_decide (p ∈ "docs" :: docs_files));
     path_is_file := λ p, Returns (bool_decide (p ∈ docs_files));
     iterdir := λ p, if String.eqb p "docs" then Returns docs_files
                     else Fails "Not a directory";
     PyPDFLoader := λ _, Fails "invalid pdf header";
     UnstructuredPDFLoader := λ _, Fails "cannot parse pdf";
     TextLoader := λ _, Returns [plain "alpha"];
     UnstructuredWordDocumentLoader := λ _, Fails "not a word document";
     UnstructuredMarkdownLoader := λ _, Returns [plain "gamma"];
     CSVLoader := λ _, Fails "not a csv";
     split_documents := λ docs, Returns docs |}.

Definition empty_log : LoaderWorld := {| loader_log := [] |}.

(** The chunk [load_single_document] makes of a one-chunk file. *)
Definition only_chunk (text file_path filename file_ext : string) : Document :=
  {| page_content := text;
     metadata :=
       <["chunk_index" := MInt 0]>
         (<["total_chunks" := MInt 1]>
            (<["source" := MStr file_path]>
               (<["filename" := MStr filename]>
                  {["file_type" := MStr file_ext]}))) |}.

(** Chat collaborators: agents that build, with the example store loaded,
    and whose executor either always raises or always answers. *)
Definition digit (n : nat) : string :=
  String (Ascii.ascii_of_nat (48 + n)) EmptyString.

Definition failing_agents : ChatEnv :=
  {| chat_router_env := timeout_model;
     chat_vector_env := l2_store;
     uuid4 := λ n, "session-" +:+ digit n;
     now_isoformat := λ _, "2024-05-01T10:00:00";
     construct_agent := λ _, Ok indexed;
     agent_ainvoke := λ _ _ _ _, Raise (ExternalError "model call failed") |}.

Definition answering_agents : ChatEnv :=
  {| chat_router_env := timeout_model;
     chat_vector_env := l2_store;
     uuid4 := λ n, "session-" +:+ digit n;
     now_isoformat := λ _, "2024-05-01T10:00:00";
     construct_agent := λ _, Ok indexed;
     agent_ainvoke := λ _ agent_name _ _, Ok ("answer of " +:+ agent_name) |}.

Definition greeted : list Message :=
  [HumanMessage "hello"; AIMessage "Hello! How can I help?"].

Definition fresh_chat : ChatWorld :=
  {| sessions := ∅; orchestrator := fresh_router; route_calls := [];
     _agent_cache := ∅; executor_calls := []; chat_metrics := [];
     chat_log := []; uuids_drawn := 0; clock_reads := 0 |}.

(** One session, [s1], after a first turn with the general agent. *)
Definition one_session : ChatWorld :=
  {| sessions := {["s1" := {| memory := greeted;
                              created_at := "2024-05-01T09:00:00";
                              message_count := 1;
                              agents_used := ["general"] |}]};
     orchestrator := fresh_router; route_calls := [];
     _agent_cache := ∅; executor_calls := []; chat_metrics := [];
     chat_log := []; uuids_drawn := 0; clock_reads := 0 |}.

Definition knee_request : ChatRequest :=
  {| message := "My knee is in pain"; session_id := Some "s1";
     agent_override := None; include_sources := true |}.


Definition weather_request : ChatRequest :=
  {| message := "What is the weather in Dhaka?"; session_id := None;
     agent_override := None; include_sources := true |}.

Definition follow_up (sid : string) : ChatRequest :=
  {| message := "And tomorrow?"; session_id := Some sid;
     agent_override := None; include_sources := true |}.

End Examples.

(** ** Further collaborators and worlds for the examples *)

Module ExtraExamples.

(** A FAISS whose stores build and grow, but whose persisted stores cannot
    be read back. *)
Definition unreadable_index : IndexEnv :=
  {| index_vector_env := Examples.l2_store;
     from_documents := λ docs, Returns {| docstore := docs |};
     store_add_documents := λ store docs,
       ({| docstore := docstore store ++ docs |}, None);
     save_local := λ _ name files,
       (files ∪ {[name +:+ ".faiss"; name +:+ ".pkl"]}, None);
     load_local := λ _ _, Fails "could not unpickle the store";
     as_retriever := λ store, Returns store |}.

Definition persisted_only : VectorWorld :=
  {| vector_stores := ∅; disk := {["medical.pkl"; "medical.faiss"]};
     vs_log := [] |}.


(** The example folder with a chosen directory listing; [docs/sub] is a
    sub-directory. *)
Definition listed (entries : list string) : LoaderEnv :=
  {| loader_text_env := Examples.ascii_text;
     path_exists := λ p,
       Returns (bool_decide (p ∈ "docs" :: "docs/sub" :: Examples.docs_files));
     path_is_file := λ p, Returns (bool_decide (p ∈ Examples.docs_files));
     iterdir := λ p, if String.eqb p "docs" then Returns entries
                     else Fails "Not a directory";
     PyPDFLoader := λ _, Fails "invalid pdf header";
     UnstructuredPDFLoader := λ _, Fails "cannot parse pdf";
     TextLoader := λ _, Returns [Examples.plain "alpha"];
     UnstructuredWordDocumentLoader := λ _, Fails "not a word document";
     UnstructuredMarkdownLoader := λ _, Returns [Examples.plain "gamma"];
     CSVLoader := λ _, Fails "not a csv";
     split_documents := λ docs, Returns docs |}.

(** The RAG endpoints over such a folder, which holds every agent's
    dataset. *)
Definition dataset_over (entries : list string) : RagEnv :=
  {| rag_loader_env := listed entries;
     rag_index_env := unreadable_index;
     dataset_dir := λ _, "docs";
     upload_path := λ _ filename, "docs/" +:+ filename;
     dataset_file := λ _ filename, "docs/" +:+ filename;
     write_upload := λ _, None;
     unlink_file := λ _, None;
     http_exception_str := λ status_code detail,
       pretty status_code +:+ ": " +:+ detail |}.

Definition rag_start : RagWorld :=
  {| rag_vectors := Examples.indexed; rag_loader := Examples.empty_log;
     rag_log := []; document_metrics := []; retrieval_metrics := [] |}.

(** A dataset with a folder for the real-estate agent holding one text
    file, an empty folder for the medical agent and a stray file. *)
Definition tree_files : list string :=
  ["dataset/real_estate/a.txt"; "dataset/readme.txt"].

Definition tree_folders : list string :=
  ["dataset"; "dataset/real_estate"; "dataset/medical"].

Definition tree : LoaderEnv :=
  {| loader_text_env := Examples.ascii_text;
     path_exists := λ p, Returns (bool_decide (p ∈ tree_folders ++ tree_files));
     path_is_file := λ p, Returns (bool_decide (p ∈ tree_files));
     iterdir := λ p,
       if String.eqb p "dataset"
       then Returns ["dataset/real_estate"; "dataset/readme.txt"; "dataset/medical"]
       else if String.eqb p "dataset/real_estate"
       then Returns ["dataset/real_estate/a.txt"]
       else if String.eqb p "dataset/medical" then Returns []
       else Fails "Not a directory";
     PyPDFLoader := λ _, Fails "invalid pdf header";
     UnstructuredPDFLoader := λ _, Fails "cannot parse pdf";
     TextLoader := λ _, Returns [Examples.plain "alpha"];
     UnstructuredWordDocumentLoader := λ _, Fails "not a word document";
     UnstructuredMarkdownLoader := λ _, Returns [Examples.plain "gamma"];
     CSVLoader := λ _, Fails "not a csv";
     split_documents := λ docs, Returns docs |}.

(** A FAISS that cannot embed anything. *)
Definition offline_index : IndexEnv :=
  {| index_vector_env := Examples.l2_store;
     from_documents := λ _, Fails "embedding request failed";
     store_add_documents := λ store docs,
       (store, Some "embedding request failed");
     save_local := λ _ _ files, (files, None);
     load_local := λ _ _, Fails "could not unpickle the store";
     as_retriever := λ store, Returns store |}.

Definition dataset_tree (index : IndexEnv) : MainEnv :=
  {| main_loader_env := tree;
     main_index_env := index;
     path_is_dir := λ p, Returns (bool_decide (p ∈ tree_folders));
     RecursiveCharacterTextSplitter := None;
     OpenAIEmbeddings := None;
     mkdir_vector_store_path := None |}.

Definition before_startup : MainWorld :=
  {| main_vectors := persisted_only; main_loader := Examples.empty_log;
     main_log := [] |}.

End ExtraExamples.

(** * Properties *)

(** ** Strings *)

Lemma append_nil_l (b : string) : EmptyString +:+ b = b.
Proof. reflexivity. Qed.

Lemma append_cons (c : Ascii.ascii) (a b : string) :
  String c a +:+ b = String c (a +:+ b).
Proof. reflexivity. Qed.

Lemma append_nil_r (s : string) : s +:+ EmptyString = s.
Proof. induction s as [|c s IH]; [done|]. by rewrite append_cons, IH. Qed.

Lemma prefix_spec (sub s : string) :
  String.prefix sub s = true ↔ ∃ b, s = sub +:+ b.
Proof.
  revert s. induction sub as [|c sub IH]; intros s.
  - destruct s; simpl; (split; [intros _; eexists; by rewrite append_nil_l | done]).
  - destruct s as [|d s]; simpl.
    + split; [done | intros [b Hb]; rewrite append_cons in Hb; discriminate].
    + destruct (Ascii.ascii_dec c d) as [->|Hne].
      * rewrite IH. split; intros [b Hb]; exists b;
          rewrite append_cons in *; congruence.
      * split; [done | intros [b Hb]; rewrite append_cons in Hb; congruence].
Qed.

Lemma str_in_spec (sub s : string) :
  str_in sub s = true ↔ substring_of sub s.
Proof.
  unfold substring_of. induction s as [|c s IH].
  - cbn [str_in]. rewrite orb_false_r, prefix_spec. split.
    + intros [b Hb]. exists EmptyString, b. by rewrite append_nil_l.
    + intros [[|? a] [b Hb]]; [rewrite append_nil_l in Hb; by exists b
                              | rewrite append_cons in Hb; discriminate].
  - cbn [str_in]. rewrite orb_true_iff, prefix_spec, IH. split.
    + intros [[b Hb] | (a & b & Hab)].
      * exists EmptyString, b. by rewrite append_nil_l.
      * exists (String c a), b. rewrite append_cons. by rewrite Hab.
    + intros ([|d a] & b & Hab).
      * left. rewrite append_nil_l in Hab. by exists b.
      * right. exists a, b. rewrite append_cons in Hab. congruence.
Qed.

Lemma any_keyword_in_hits (keywords : list string) (s : string) :
  any_keyword_in keywords s = true ↔ Orchestrator.hits keywords s.
Proof.
  unfold any_keyword_in, Orchestrator.hits. rewrite existsb_exists.
  split; intros (kw & Hin & Hs); exists kw.
  - split; [by apply list_elem_of_In | by apply str_in_spec].
  - split; [by apply list_elem_of_In | by apply str_in_spec].
Qed.

Lemma any_keyword_in_no_hit (keywords : list string) (s : string) :
  any_keyword_in keywords s = false ↔ ¬ Orchestrator.hits keywords s.
Proof.
  rewrite <- any_keyword_in_hits. by destruct (any_keyword_in keywords s).
Qed.

(** ** The router *)

Section Router.
Context {router_env : RouterEnv}.
Import Orchestrator.

Ltac run_router :=
  unfold route_query, try_except, try_except_if, bind, llm_ainvoke,
    lift_outcome, dict_get, logger, modify, ret, raise.

Ltac in_valid_agents := unfold valid_agents; set_solver.

(** The cascade of [if]s returns the identity of set [i] as soon as set [i]
    is the first whose test succeeds, and only logs. *)
Lemma route_query_fast query w i a kws :
  keyword_sets !! i = Some (a, kws) →
  any_keyword_in kws (lower query) = true →
  (∀ j b kws', (j < i)%nat → keyword_sets !! j = Some (b, kws') →
     any_keyword_in kws' (lower query) = false) →
  ∃ msg, route_query query w =
    (Ok a, {| llm_calls := llm_calls w;
              router_log := router_log w ++ [(INFO, msg)] |}).
Proof.
  intros Hi Hhit Hprev.
  pose proof (λ Hlt, Hprev 0%nat _ _ Hlt eq_refl) as H0.
  pose proof (λ Hlt, Hprev 1%nat _ _ Hlt eq_refl) as H1.
  pose proof (λ Hlt, Hprev 2%nat _ _ Hlt eq_refl) as H2.
  pose proof (λ Hlt, Hprev 3%nat _ _ Hlt eq_refl) as H3.
  pose proof (λ Hlt, Hprev 4%nat _ _ Hlt eq_refl) as H4.
  clear Hprev.
  do 6 (destruct i as [|i];
    [ injection Hi as <- <-; unfold route_query, try_except;
      rewrite ?H0, ?H1, ?H2, ?H3, ?H4 by lia; rewrite Hhit;
      eexists; reflexivity
    | ]).
  discriminate.
Qed.

Lemma no_hit_all ql :
  (∀ a kws, (a, kws) ∈ keyword_sets → ¬ hits kws ql) →
  any_keyword_in general_keywords ql = false ∧
  any_keyword_in medical_keywords ql = false ∧
  any_keyword_in ai_keywords ql = false ∧
  any_keyword_in real_estate_keywords ql = false ∧
  any_keyword_in sales_keywords ql = false ∧
  any_keyword_in education_keywords ql = false.
Proof.
  intros Hno. repeat split; apply any_keyword_in_no_hit;
    (eapply Hno; unfold keyword_sets;
     repeat first [apply list_elem_of_here | apply list_elem_of_further]).
Qed.

(** [first_hit] computes the first set that hits. *)
Lemma first_hit_None ql :
  first_hit ql = None →
  ∀ a kws, (a, kws) ∈ keyword_sets → ¬ hits kws ql.
Proof.
  unfold first_hit. intros Hnone a kws Hin.
  apply any_keyword_in_no_hit.
  destruct (List.find _ keyword_sets) as [set|] eqn:Hfind; [discriminate|].
  apply list_elem_of_In in Hin.
  exact (find_none _ _ Hfind _ Hin).
Qed.

(** Whatever the model and the decoder do, [route_query] returns, and
    returns one of the six identities. *)
Lemma route_query_total query w :
  ∃ a w', route_query query w = (Ok a, w') ∧ a ∈ valid_agents.
Proof.
  run_router.
  repeat match goal with
  | |- context [if any_keyword_in ?k ?q then _ else _] =>
      destruct (any_keyword_in k q)
  end; try (do 2 eexists; split; [reflexivity | in_valid_agents]).
  destruct (ainvoke _ _) as [text|e]; cbn;
    [| do 2 eexists; split; [reflexivity | in_valid_agents]].
  destruct (re_search_braces text) as [m|]; cbn;
    [| do 2 eexists; split; [reflexivity | in_valid_agents]].
  destruct (json_loads m) as [v|e]; cbn.
  - destruct v; cbn;
      try (do 2 eexists; split; [reflexivity | in_valid_agents]).
    destruct (list_find _ fields) as [[? [? v]]|]; cbn.
    + destruct (not_in_valid_agents v) eqn:Hv; cbn;
        [do 2 eexists; split; [reflexivity | in_valid_agents]|].
      do 2 eexists; split; [reflexivity|].
      destruct v; try discriminate. cbn in *.
      by apply negb_false_iff, bool_decide_eq_true in Hv.
    + do 2 eexists; split; [reflexivity | in_valid_agents].
  - destruct (is_JSONDecodeError e); cbn;
      do 2 eexists; (split; [reflexivity | in_valid_agents]).
Qed.

(** C2.  When set [i] of the declared priority order (general, medical,
    ai_ml, real_estate, sales, education) is the first one a keyword of which
    occurs in the lower-cased query, [route_query] returns the identity of
    set [i], from any state and whatever the classifier would answer, and
    the classifier is not invoked.  For [i = 0] this is: a query containing
    a general keyword is routed to [general] on every call. *)
Theorem route_keyword_priority (query : string) (w : RouterWorld)
    (i : nat) (a : string) (kws : list string) :
  keyword_sets !! i = Some (a, kws) →
  hits kws (lower query) →
  (∀ j b kws', (j < i)%nat → keyword_sets !! j = Some (b, kws') →
     ¬ hits kws' (lower query)) →
  ∃ w', route_query query w = (Ok a, w') ∧ llm_calls w' = llm_calls w.
Proof.
  intros Hi Hhit Hprev.
  destruct (route_query_fast query w i a kws Hi) as [msg Hr].
  - by apply any_keyword_in_hits.
  - intros j b kws' Hlt Hj. apply any_keyword_in_no_hit. eauto.
  - eexists; split; [exact Hr | reflexivity].
Qed.

(** C3.  When no keyword set matches and the classifier tier fails (the
    call raises, the reply holds no brace-delimited object, the object does
    not decode, decodes to something that is not an object, or names a
    primary agent outside the six identities), [route_query] returns
    [general]; it returns normally, so no exception reaches the caller. *)
Theorem route_classifier_failure_general (query : string) (w : RouterWorld) :
  (∀ a kws, (a, kws) ∈ keyword_sets → ¬ hits kws (lower query)) →
  classifier_fails (length (llm_calls w)) query →
  ∃ w', route_query query w = (Ok "general", w').
Proof.
  intros Hno Hfail.
  destruct (no_hit_all _ Hno) as (Hg & Hm & Ha & Hr & Hs & He).
  run_router. rewrite Hg, Hm, Ha, Hr, Hs, He.
  destruct Hfail as [e Hcall | text Hcall Hre | text m e Hcall Hre Hjs
                    | text m v Hcall Hre Hjs Hobj
                    | text m fields v Hcall Hre Hjs Hfind Hbad];
    rewrite Hcall; cbn; try rewrite Hre; cbn; try rewrite Hjs; cbn.
  - eexists; reflexivity.
  - eexists; reflexivity.
  - destruct (is_JSONDecodeError e); eexists; reflexivity.
  - destruct v; try (eexists; reflexivity). by destruct (Hobj fields).
  - rewrite Hfind. destruct v as [? [? v]]. cbn in *. rewrite Hbad.
    eexists; reflexivity.
Qed.

(** C10.  The fast path tests substrings, not words: every query whose
    lower-cased text contains [hi] anywhere is routed to [general], and every
    query whose lower-cased text contains [ai] anywhere while no general or
    medical keyword occurs in it is routed to [ai_ml]; neither invokes the
    classifier. *)
Theorem route_substring_not_word (q1 q2 : string) (w : RouterWorld) :
  substring_of "hi" (lower q1) →
  substring_of "ai" (lower q2) →
  ¬ hits general_keywords (lower q2) →
  ¬ hits medical_keywords (lower q2) →
  (∃ w', route_query q1 w = (Ok "general", w') ∧ llm_calls w' = llm_calls w) ∧
  (∃ w', route_query q2 w = (Ok "ai_ml", w') ∧ llm_calls w' = llm_calls w).
Proof.
  intros Hhi Hai Hg Hm. split.
  - destruct (route_query_fast q1 w 0 "general" general_keywords eq_refl)
      as [msg Hr].
    + apply any_keyword_in_hits. exists "hi". split; [|done].
      unfold general_keywords. set_solver.
    + intros j b kws' Hlt. lia.
    + eexists; split; [exact Hr | reflexivity].
  - destruct (route_query_fast q2 w 2 "ai_ml" ai_keywords eq_refl)
      as [msg Hr].
    + apply any_keyword_in_hits. exists "ai". split; [|done].
      unfold ai_keywords. set_solver.
    + intros j b kws' Hlt Hj. apply any_keyword_in_no_hit.
      destruct j as [|[|j]]; [| |lia]; injection Hj as <- <-; done.
    + eexists; split; [exact Hr | reflexivity].
Qed.

End Router.

(** Priority and lower-casing at work: [SYMPTOMS of a bad mortgage deal]
    holds, once lower-cased, a medical, a real-estate and a sales keyword and
    no general one, and goes to [medical], the first of the three sets; a
    weather question goes to [general].  Neither calls the classifier. *)
Lemma route_keyword_priority_symptoms :
  (∃ w', @Orchestrator.route_query Examples.timeout_model
           "SYMPTOMS of a bad mortgage deal" Examples.fresh_router
         = (Ok "medical", w') ∧
         llm_calls w' = llm_calls Examples.fresh_router) ∧
  Orchestrator.hits Orchestrator.real_estate_keywords
    (@lower Examples.ascii_text "SYMPTOMS of a bad mortgage deal") ∧
  Orchestrator.hits Orchestrator.sales_keywords
    (@lower Examples.ascii_text "SYMPTOMS of a bad mortgage deal") ∧
  ¬ Orchestrator.hits Orchestrator.medical_keywords
      "SYMPTOMS of a bad mortgage deal" ∧
  (∃ w', @Orchestrator.route_query Examples.timeout_model
           "What is the weather in Dhaka?" Examples.fresh_router
         = (Ok "general", w') ∧
         llm_calls w' = llm_calls Examples.fresh_router).
Proof.
  split; [|split; [|split; [|split]]].
  - apply (@route_keyword_priority Examples.timeout_model
             "SYMPTOMS of a bad mortgage deal" Examples.fresh_router
             1 "medical" Orchestrator.medical_keywords).
    + reflexivity.
    + apply any_keyword_in_hits. vm_compute. reflexivity.
    + intros j b kws' Hlt Hj. destruct j as [|j]; [|lia].
      injection Hj as <- <-. apply any_keyword_in_no_hit. vm_compute. reflexivity.
  - apply any_keyword_in_hits. vm_compute. reflexivity.
  - apply any_keyword_in_hits. vm_compute. reflexivity.
  - apply any_keyword_in_no_hit. vm_compute. reflexivity.
  - apply (@route_keyword_priority Examples.timeout_model
             "What is the weather in Dhaka?" Examples.fresh_router
             0 "general" Orchestrator.general_keywords).
    + reflexivity.
    + apply any_keyword_in_hits. vm_compute. reflexivity.
    + intros j b kws' Hlt. lia.
Defined.

(** A query without keywords whose classifier call times out goes to
    [general]. *)
Lemma route_classifier_failure_timeout :
  ∃ w', @Orchestrator.route_query Examples.timeout_model
          "Tell me a joke" Examples.fresh_router
        = (Ok "general", w').
Proof.
  apply (@route_classifier_failure_general Examples.timeout_model).
  - apply first_hit_None. vm_compute. reflexivity.
  - eapply Orchestrator.call_raises. reflexivity.
Defined.

(** Lower-cased, [WHICH] holds [hi] and [MAINTAIN] holds [ai]; neither is
    about greetings or machine learning. *)
Lemma route_substring_which_maintain :
  (∃ w', @Orchestrator.route_query Examples.timeout_model
           "WHICH plan is cheaper?" Examples.fresh_router
         = (Ok "general", w') ∧ llm_calls w' = llm_calls Examples.fresh_router) ∧
  (∃ w', @Orchestrator.route_query Examples.timeout_model
           "How do I MAINTAIN a garden?" Examples.fresh_router
         = (Ok "ai_ml", w') ∧ llm_calls w' = llm_calls Examples.fresh_router).
Proof.
  apply (@route_substring_not_word Examples.timeout_model).
  - apply str_in_spec. vm_compute. reflexivity.
  - apply str_in_spec. vm_compute. reflexivity.
  - apply any_keyword_in_no_hit. vm_compute. reflexivity.
  - apply any_keyword_in_no_hit. vm_compute. reflexivity.
Defined.

(** ** The vector store service *)

Section VectorStore.
Context {vector_env : VectorEnv}.
Import VectorStoreService.

Ltac run_vs :=
  unfold search, clear_store, remove_document, _rebuild_store_without_file,
    unlink_if_exists, store_search, try_except, bind, get, lift_outcome,
    logger, modify, ret, raise.

(** Filtering keeps a descending sequence descending. *)
Lemma descending_filter (P : Document * float → Prop) `{∀ r, Decision (P r)}
    (results : list (Document * float)) :
  descending results → descending (filter P results).
Proof.
  induction 1 as [|r rs Hall Hrs IH]; [constructor|].
  rewrite filter_cons. destruct (decide (P r)); [|exact IH].
  constructor; [|exact IH].
  apply Forall_forall. intros r' Hr'.
  apply list_elem_of_filter in Hr' as [_ Hr'].
  by eapply Forall_forall in Hall.
Qed.

Lemma Forall_filter_holds {A} (P : A → Prop) `{∀ x, Decision (P x)} (l : list A) :
  Forall P (filter P l).
Proof. apply Forall_forall. intros x Hx. by apply list_elem_of_filter in Hx as [? _]. Qed.

(** [search] always returns, and what it returns is the store's answer
    filtered by the threshold; it only writes to the log. *)
Lemma search_eq agent query k threshold w :
  ∃ log',
    search agent query k threshold w =
      (Ok (filter (λ r, score_ge r.2 threshold = true)
             (store_results w agent query k)),
       {| vector_stores := vector_stores w; disk := disk w; vs_log := log' |}).
Proof.
  run_vs. unfold store_results.
  destruct (vector_stores w !! agent) as [[store|]|]; cbn;
    try (eexists; reflexivity).
  destruct (similarity_search_with_score store query k); cbn;
    eexists; reflexivity.
Qed.

(** The result of [search] depends on the stores only, not on the log or
    the disk. *)
Lemma search_result_ext agent query k threshold w1 w2 :
  vector_stores w1 = vector_stores w2 →
  (search agent query k threshold w1).1 = (search agent query k threshold w2).1.
Proof.
  intros Heq.
  destruct (search_eq agent query k threshold w1) as [l1 ->].
  destruct (search_eq agent query k threshold w2) as [l2 ->].
  cbn. unfold store_results. by rewrite Heq.
Qed.

(** What [search] does with the store's answer.  It returns normally, and
    its result is the answer of [similarity_search_with_score(query, k)] with
    the entries failing the test [score >= threshold] dropped, in the store's
    order: the service itself neither truncates nor sorts.  Where NumPy compares
    in double precision every returned score is at least the threshold; from
    NumPy 2 on it is at least the threshold rounded to single precision. *)
Lemma search_filters_store_results (agent query : string) (k : Z)
    (threshold : float) (w : VectorWorld) :
  ∃ results w',
    search agent query k threshold w = (Ok results, w') ∧
    results = filter (λ r, score_ge r.2 threshold = true)
                (store_results w agent query k) ∧
    Forall (λ r, float_ge r.2 (if numpy2 then to_float32 threshold else threshold)
                 = true) results ∧
    (length results ≤ length (store_results w agent query k))%nat ∧
    (descending (store_results w agent query k) → descending results).
Proof.
  destruct (search_eq agent query k threshold w) as [log' Hs].
  do 2 eexists. split; [exact Hs|]. split; [reflexivity|].
  repeat split.
  - apply Forall_filter_holds.
  - apply length_filter.
  - apply descending_filter.
Qed.

(** Deleting a file either succeeds, after which the file is absent, or
    raises the error deletion met; the stores are not touched and no file
    appears. *)
Lemma unlink_if_exists_spec file w :
  ∃ o w',
    unlink_if_exists file w = (o, w') ∧
    vector_stores w' = vector_stores w ∧
    disk w' ⊆ disk w ∧
    ((o = Ok tt ∧ file ∉ disk w') ∨
     (∃ e, o = Raise e ∧ unlink_error file = Some e)).
Proof.
  run_vs. cbn.
  destruct (bool_decide (file ∈ disk w)) eqn:Hin; cbn.
  - destruct (unlink_error file) as [e|]; cbn; do 2 eexists;
      (split; [reflexivity|]); cbn; (split; [done|]).
    + split; [done|]. right. by exists e.
    + split; [by apply subseteq_difference_l|]. left. split; [done|].
      apply not_elem_of_difference. right. by apply elem_of_singleton.
  - apply bool_decide_eq_false in Hin. do 2 eexists.
    split; [reflexivity|]. split; [done|]. split; [done|]. by left.
Qed.

Lemma clear_store_spec agent w :
  ∃ w1,
    clear_store agent w = (Ok tt, w1) ∧
    vector_stores w1 = delete agent (vector_stores w) ∧
    (unlink_error (agent +:+ ".pkl") = None →
     unlink_error (agent +:+ ".faiss") = None →
     ((agent +:+ ".pkl") ∉ disk w1) ∧ ((agent +:+ ".faiss") ∉ disk w1)).
Proof.
  unfold clear_store, try_except, bind at 1 2.
  set (w0 := {| vector_stores := delete agent (vector_stores w);
                disk := disk w; vs_log := vs_log w |}).
  change (modify _ w) with (Ok tt, w0).
  destruct (unlink_if_exists_spec (agent +:+ ".pkl") w0)
    as (o1 & wa & -> & Hsa & Hda & [[-> Hpkl] | (e & -> & He)]).
  - unfold bind at 1.
    destruct (unlink_if_exists_spec (agent +:+ ".faiss") wa)
      as (o2 & wb & -> & Hsb & Hdb & [[-> Hfaiss] | (e & -> & He)]).
    + eexists. split; [reflexivity|]. cbn. rewrite Hsb, Hsa.
      split; [done|]. intros _ _. set_solver.
    + eexists. split; [reflexivity|]. cbn. rewrite Hsb, Hsa.
      split; [done|]. intros _ Hno. congruence.
  - eexists. split; [reflexivity|]. cbn. rewrite Hsa.
    split; [done|]. intros Hno. congruence.
Qed.

(** C5.  On an agent without a store, [search] returns the empty list.
    [clear_store] returns normally and leaves the agent without a store, also
    when deleting a file fails; when the deletions succeed the two persisted
    files are gone; and every [search] after it returns the empty list. *)
Theorem search_without_index_empty (agent : string) (w : VectorWorld) :
  (∀ query k threshold,
     vector_stores w !! agent = None →
     ∃ w', search agent query k threshold w = (Ok [], w')) ∧
  (∃ w1,
     clear_store agent w = (Ok tt, w1) ∧
     vector_stores w1 !! agent = None ∧
     (unlink_error (agent +:+ ".pkl") = None →
      unlink_error (agent +:+ ".faiss") = None →
      ((agent +:+ ".pkl") ∉ disk w1) ∧ ((agent +:+ ".faiss") ∉ disk w1)) ∧
     ∀ query k threshold,
       ∃ w2, search agent query k threshold w1 = (Ok [], w2)).
Proof.
  assert (Hnone : ∀ query k threshold w0,
            vector_stores w0 !! agent = None →
            ∃ w', search agent query k threshold w0 = (Ok [], w')).
  { intros query k threshold w0 Hw.
    destruct (search_eq agent query k threshold w0) as [log' Hs].
    rewrite Hs. unfold store_results. rewrite Hw. eexists; reflexivity. }
  split; [intros; by apply Hnone|].
  destruct (clear_store_spec agent w) as (w1 & Hc & Hstores & Hdisk).
  assert (vector_stores w1 !! agent = None) as Hgone
    by (rewrite Hstores; apply lookup_delete_eq).
  exists w1. split; [exact Hc|]. split; [exact Hgone|]. split; [exact Hdisk|].
  intros. by apply Hnone.
Qed.

(** C9.  [remove_document] returns normally and changes neither the stores
    nor the persisted files (it only logs), so every later [search] returns
    what it returned before. *)
Theorem remove_document_leaves_index (agent filename : string) (w : VectorWorld) :
  ∃ w',
    remove_document agent filename w = (Ok tt, w') ∧
    vector_stores w' = vector_stores w ∧
    disk w' = disk w ∧
    ∀ query k threshold,
      (search agent query k threshold w').1 = (search agent query k threshold w).1.
Proof.
  assert (∃ w', remove_document agent filename w = (Ok tt, w') ∧
            vector_stores w' = vector_stores w ∧ disk w' = disk w)
    as (w' & Hr & Hstores & Hdisk).
  { run_vs. destruct (vector_stores w !! agent); cbn;
      eexists; (split; [reflexivity|]); done. }
  exists w'. repeat split; try done.
  intros. by apply search_result_ext.
Qed.

End VectorStore.

(** C1.  The code at the inputs of the claim, over a store built the way
    the service builds it ([FAISS.from_documents], whose scores are L2
    distances, nearest first).  With [k = 3] and [threshold = 0.0] the two
    chunks come back by ascending score, so the ordering of the contract fails.
    With the default threshold 0.7 the nearest chunk (0.25) is dropped and the
    farthest (0.75) kept: the "minimum similarity threshold" of the docstring
    acts on distances.  And with [k = 5] and [threshold = 0.9], under NumPy 2,
    a chunk whose single-precision score is the nearest one to 0.9 is
    returned although its score is below 0.9. *)
Theorem search_takes_distance_for_similarity :
  (@VectorStoreService.search Examples.l2_store
     "real_estate" "when is rent due" 3 0%float Examples.indexed).1
    = Ok [(Examples.near_chunk, 0.25%float); (Examples.far_chunk, 0.75%float)] ∧
  ¬ VectorStoreService.search_contract 3 0%float
      [(Examples.near_chunk, 0.25%float); (Examples.far_chunk, 0.75%float)] ∧
  (@VectorStoreService.search Examples.l2_store
     "real_estate" "when is rent due" 5 0.7%float Examples.indexed).1
    = Ok [(Examples.far_chunk, 0.75%float)] ∧
  (@VectorStoreService.search Examples.single_precision_store
     "real_estate" "when is rent due" 5 0.9%float Examples.indexed).1
    = Ok [(Examples.near_chunk, 0x1.ccccccp-1%float)] ∧
  PrimFloat.ltb 0x1.ccccccp-1%float 0.9%float = true.
Proof.
  split; [vm_compute; reflexivity|]. split.
  { intros (_ & Hdesc & _). inversion Hdesc as [|r rs Hall _]; subst.
    inversion Hall as [|r' rs' Hge _]; subst. vm_compute in Hge. discriminate. }
  split; [vm_compute; reflexivity|].
  split; vm_compute; reflexivity.
Qed.

(** A chunk of [lease.txt] is still returned after [lease.txt] was removed. *)
Example remove_document_keeps_chunks :
  let w' := (VectorStoreService.remove_document "real_estate" "lease.txt"
               Examples.indexed).2 in
  (@VectorStoreService.search Examples.l2_store
     "real_estate" "when is rent due" 1 0%float w').1
    = Ok [(Examples.near_chunk, 0.25%float)].
Proof. vm_compute. reflexivity. Qed.

(** ** The document loader *)

Section Loader.
Context {loader_env : LoaderEnv}.
Import DocumentLoader.

Ltac run_loader_m :=
  unfold load_single_document, run_loader, try_except, bind, call, logger,
    modify, ret, raise.

Lemma loader_mapping_supported file_ext :
  loader_mapping file_ext = None ↔ file_ext ∉ supported_formats.
Proof.
  unfold loader_mapping, supported_formats.
  repeat match goal with
  | |- context [String.eqb file_ext ?s] =>
      destruct (String.eqb_spec file_ext s) as [->|?];
      [split; [discriminate
              | intros Hn; exfalso; apply Hn;
                repeat first [apply list_elem_of_here | apply list_elem_of_further]]|]
  end.
  split; [intros _ Hin|intros; reflexivity].
  repeat (apply elem_of_cons in Hin as [?|Hin]; [done|]).
  by apply elem_of_nil in Hin.
Qed.

(** What [load_single_document] returns does not depend on the log it starts
    from, and it only appends to the log. *)
Lemma load_single_document_log file_path w :
  ∃ extra,
    load_single_document file_path w =
      ((load_single_document file_path {| loader_log := [] |}).1,
       {| loader_log := loader_log w ++ extra |}).
Proof.
  destruct w as [log]. run_loader_m. cbn.
  destruct (path_exists file_path) as [[]|msg]; cbn;
    try (exists []; by rewrite app_nil_r).
  destruct (loader_mapping _) as [[]|]; cbn;
    [ destruct (PyPDFLoader file_path); cbn;
      [|destruct (UnstructuredPDFLoader file_path); cbn]
    | destruct (TextLoader file_path); cbn
    | destruct (UnstructuredWordDocumentLoader file_path); cbn
    | destruct (UnstructuredMarkdownLoader file_path); cbn
    | destruct (CSVLoader file_path); cbn
    | ];
    try (destruct (split_documents _); cbn);
    try (exists []; by rewrite app_nil_r);
    rewrite <- ?app_assoc; eexists; reflexivity.
Qed.

Lemma does_not_exist_not_unsupported file_path file_ext :
  does_not_exist file_path ≠ unsupported_file_type file_ext.
Proof.
  unfold does_not_exist, unsupported_file_type. intros [= Heq].
Qed.

(** The errors of [load_single_document], by the outcome of the existence
    test: an error of the test itself, the does-not-exist error, the
    unsupported-file-type error, or the error of a parser or of the splitter
    (never a [ValueError]). *)
Lemma load_single_document_cases file_path w :
  match path_exists file_path with
  | Fails msg => (load_single_document file_path w).1 = Raise (ExternalError msg)
  | Returns false =>
      (load_single_document file_path w).1 = Raise (does_not_exist file_path)
  | Returns true =>
      match loader_mapping (lower (path_suffix file_path)) with
      | None =>
          (load_single_document file_path w).1
            = Raise (unsupported_file_type (lower (path_suffix file_path)))
      | Some _ =>
          (∃ chunks, (load_single_document file_path w).1 = Ok chunks) ∨
          (∃ msg, (load_single_document file_path w).1 = Raise (ExternalError msg))
      end
  end.
Proof.
  destruct w as [log]. run_loader_m. cbn.
  destruct (path_exists file_path) as [[]|msg]; cbn; try reflexivity.
  destruct (loader_mapping _) as [[]|]; cbn;
    [ destruct (PyPDFLoader file_path); cbn;
      [|destruct (UnstructuredPDFLoader file_path); cbn]
    | destruct (TextLoader file_path); cbn
    | destruct (UnstructuredWordDocumentLoader file_path); cbn
    | destruct (UnstructuredMarkdownLoader file_path); cbn
    | destruct (CSVLoader file_path); cbn
    | ];
    try (destruct (split_documents _); cbn);
    try reflexivity;
    first [left; eexists; reflexivity | right; eexists; reflexivity].
Qed.

Lemma load_single_document_unsupported file_path w :
  (load_single_document file_path w).1
    = Raise (unsupported_file_type (lower (path_suffix file_path))) ↔
  path_exists file_path = Returns true ∧
  loader_mapping (lower (path_suffix file_path)) = None.
Proof.
  pose proof (load_single_document_cases file_path w) as Hcases.
  destruct (path_exists file_path) as [[]|msg].
  - destruct (loader_mapping _) as [f|].
    + split; [|intros [_ ?]; discriminate].
      intros Hrun. unfold unsupported_file_type in Hrun.
      destruct Hcases as [[chunks Hc]|[msg Hc]]; congruence.
    + by split.
  - rewrite Hcases. split; [|intros [? _]; discriminate].
    intros Heq. exfalso.
    apply (does_not_exist_not_unsupported file_path
             (lower (path_suffix file_path))).
    congruence.
  - rewrite Hcases. split; [discriminate|intros [? _]; discriminate].
Qed.

Lemma load_single_document_missing file_path w :
  (load_single_document file_path w).1 = Raise (does_not_exist file_path) ↔
  path_exists file_path = Returns false.
Proof.
  pose proof (load_single_document_cases file_path w) as Hcases.
  destruct (path_exists file_path) as [[]|msg].
  - split; [|discriminate]. intros Hrun.
    destruct (loader_mapping _) as [f|].
    + unfold does_not_exist in Hrun.
      destruct Hcases as [[chunks Hc]|[msg Hc]]; congruence.
    + rewrite Hcases in Hrun. exfalso.
      apply (does_not_exist_not_unsupported file_path
               (lower (path_suffix file_path))).
      congruence.
  - by split.
  - rewrite Hcases. split; discriminate.
Qed.

(** The first error [is_file] raises on the entries of a directory, if
    any. *)
Lemma is_file_answers_or_fails (entries : list string) :
  Forall (λ f, ∃ b, path_is_file f = Returns b) entries ∨
  ∃ before f after msg,
    entries = before ++ f :: after ∧
    Forall (λ p, ∃ b, path_is_file p = Returns b) before ∧
    path_is_file f = Fails msg.
Proof.
  induction entries as [|f entries IH]; [by left|].
  destruct (path_is_file f) as [b|msg] eqn:Hf.
  - destruct IH as [Hall|(before & g & after & msg & -> & Hbefore & Hg)].
    + left. constructor; [by exists b|done].
    + right. exists (f :: before), g, after, msg. split; [done|].
      split; [|done]. constructor; [by exists b|done].
  - right. exists [], f, entries, msg. done.
Qed.

(** One turn of the loop: the chunks of a file that loads are appended, a
    file that raises is logged and contributes nothing; an error of [is_file]
    is not caught. *)
Lemma load_entry_spec documents file_path w :
  ∃ extra,
    load_entry documents file_path w =
      (match path_is_file file_path with
       | Returns true => Ok (documents ++ chunks_of file_path)
       | Returns false => Ok documents
       | Fails msg => Raise (ExternalError msg)
       end,
       {| loader_log := loader_log w ++ extra |}) ∧
    ∀ e, path_is_file file_path = Returns true →
         (load_single_document file_path {| loader_log := [] |}).1 = Raise e →
         error_loading file_path e ∈ extra.
Proof.
  unfold load_entry, chunks_of. destruct (path_is_file file_path) as [[]|msg].
  - unfold bind at 1. cbn [call ret]. unfold try_except, bind at 1.
    destruct (load_single_document_log file_path w) as [extra ->].
    destruct (load_single_document file_path _).1 as [chunks|e]; cbn.
    + eexists. rewrite <- app_assoc. split; [reflexivity|]. intros; discriminate.
    + eexists. rewrite <- app_assoc, app_nil_r. split; [reflexivity|].
      intros e' _ [= <-]. unfold error_loading. set_solver.
  - exists []. rewrite !app_nil_r. destruct w. split; [reflexivity|]. discriminate.
  - exists []. rewrite !app_nil_r. destruct w. split; [reflexivity|]. discriminate.
Qed.

Lemma load_entries_spec entries documents w :
  Forall (λ f, ∃ b, path_is_file f = Returns b) entries →
  ∃ extra,
    load_entries documents entries w =
      (Ok (documents ++
           concat (map chunks_of
                     (filter (λ f, path_is_file f = Returns true) entries))),
       {| loader_log := loader_log w ++ extra |}) ∧
    ∀ f e, f ∈ entries → path_is_file f = Returns true →
           (load_single_document f {| loader_log := [] |}).1 = Raise e →
           error_loading f e ∈ extra.
Proof.
  intros Hall. revert documents w.
  induction Hall as [|f entries [b Hf] _ IH]; intros documents w.
  - exists []. cbn. rewrite !app_nil_r. destruct w.
    split; [reflexivity|]. intros ? ? Hin. by apply elem_of_nil in Hin.
  - cbn [load_entries]. unfold bind.
    destruct (load_entry_spec documents f w) as (extra1 & -> & Hlog1).
    rewrite Hf in *.
    destruct (IH (if b then documents ++ chunks_of f else documents)
                 {| loader_log := loader_log w ++ extra1 |})
      as (extra2 & Hrest & Hlog2).
    rewrite filter_cons, Hf. destruct b.
    + rewrite Hrest, decide_True by done.
      exists (extra1 ++ extra2). cbn [loader_log map concat].
      rewrite <- !app_assoc. split; [reflexivity|].
      intros f' e [->|Hin]%elem_of_cons Hfile Hraise;
        apply elem_of_app; [left|right]; eauto.
    + rewrite Hrest, decide_False by done.
      exists (extra1 ++ extra2). cbn [loader_log].
      rewrite <- !app_assoc. split; [reflexivity|].
      intros f' e [->|Hin]%elem_of_cons Hfile Hraise;
        apply elem_of_app; [left|right]; eauto.
      congruence.
Qed.

(** An error of [is_file] ends the loop: it is raised, and what was loaded
    so far is lost. *)
Lemma load_entries_abort before f after msg documents w :
  Forall (λ p, ∃ b, path_is_file p = Returns b) before →
  path_is_file f = Fails msg →
  ∃ w', load_entries documents (before ++ f :: after) w
          = (Raise (ExternalError msg), w').
Proof.
  intros Hbefore Hf. revert documents w.
  induction Hbefore as [|p before [b Hp] _ IH]; intros documents w.
  - cbn [app load_entries]. unfold bind.
    destruct (load_entry_spec documents f w) as (extra & -> & _).
    rewrite Hf. eexists. reflexivity.
  - cbn [app load_entries]. unfold bind at 1.
    destruct (load_entry_spec documents p w) as (extra & -> & _).
    rewrite Hp. destruct b; apply IH.
Qed.

(** C8, with the order of the checks as the code has it.
    [load_single_document] raises the unsupported-file-type error exactly
    when [Path.exists()] says the path exists and its lower-cased extension is
    none of [.pdf], [.txt], [.docx], [.doc], [.md], [.csv]; it raises the
    does-not-exist error exactly when [Path.exists()] says the path does not
    exist, whatever the extension; and when the existence test itself fails
    it raises that error.  [load_documents] on an existing directory every
    entry of which [is_file] answers for returns the chunks of every file that
    loads, in directory order, and logs an error for each file that
    raises. *)
Theorem load_errors_and_batch (file_path directory_path : string)
    (entries : list string) (w : LoaderWorld) :
  ((load_single_document file_path w).1
      = Raise (unsupported_file_type (lower (path_suffix file_path))) ↔
   path_exists file_path = Returns true ∧
   lower (path_suffix file_path) ∉ supported_formats) ∧
  ((load_single_document file_path w).1 = Raise (does_not_exist file_path) ↔
   path_exists file_path = Returns false) ∧
  (∀ msg, path_exists file_path = Fails msg →
     (load_single_document file_path w).1 = Raise (ExternalError msg)) ∧
  (path_exists directory_path = Returns true →
   iterdir directory_path = Returns entries →
   Forall (λ f, ∃ b, path_is_file f = Returns b) entries →
   ∃ w',
     load_documents directory_path w =
       (Ok (concat (map chunks_of
                      (filter (λ f, path_is_file f = Returns true) entries))),
        w') ∧
     ∀ f e, f ∈ entries → path_is_file f = Returns true →
            (load_single_document f {| loader_log := [] |}).1 = Raise e →
            error_loading f e ∈ loader_log w').
Proof.
  split; [|split; [|split]].
  - rewrite load_single_document_unsupported.
    by rewrite loader_mapping_supported.
  - apply load_single_document_missing.
  - intros msg Hmsg.
    pose proof (load_single_document_cases file_path w) as Hcases.
    by rewrite Hmsg in Hcases.
  - intros Hdir Hiter Hall. unfold load_documents.
    rewrite Hdir, Hiter. unfold bind at 1. cbn [call ret negb].
    unfold bind at 1. cbn [ret]. unfold bind at 1.
    destruct (load_entries_spec entries [] w Hall) as (extra & -> & Hlog).
    eexists. split; [reflexivity|].
    intros f e Hin Hfile Hraise. cbn.
    apply elem_of_app. left. apply elem_of_app. right. eauto.
Qed.

End Loader.

(** A path that does not exist and has an unsupported extension fails with
    the does-not-exist error, not with the unsupported-file-type error. *)
Lemma load_missing_file_unsupported_extension :
  (@DocumentLoader.load_single_document Examples.docs_folder
     "docs/missing.xyz" Examples.empty_log).1
    = Raise (DocumentLoader.does_not_exist "docs/missing.xyz") ∧
  @lower Examples.ascii_text (DocumentLoader.path_suffix "docs/missing.xyz")
    = ".xyz" ∧
  (".xyz" ∉ DocumentLoader.supported_formats) ∧
  DocumentLoader.does_not_exist "docs/missing.xyz"
    ≠ DocumentLoader.unsupported_file_type ".xyz".
Proof.
  split; [vm_compute; reflexivity|]. split; [vm_compute; reflexivity|].
  split; [|apply does_not_exist_not_unsupported].
  apply loader_mapping_supported. reflexivity.
Qed.

(** Batch-loading the example directory: the unreadable PDF and the
    unsupported file are logged and skipped, the text and Markdown chunks are
    returned. *)
Lemma load_documents_skips_failing_files :
  ∃ w',
    @DocumentLoader.load_documents Examples.docs_folder "docs" Examples.empty_log
      = (Ok [Examples.only_chunk "alpha" "docs/a.txt" "a.txt" ".txt";
             Examples.only_chunk "gamma" "docs/c.md" "c.md" ".md"], w') ∧
    DocumentLoader.error_loading "docs/b.pdf" (ExternalError "cannot parse pdf")
      ∈ loader_log w' ∧
    DocumentLoader.error_loading "docs/d.xyz"
      (DocumentLoader.unsupported_file_type ".xyz") ∈ loader_log w'.
Proof.
  destruct (proj2 (proj2 (proj2 (@load_errors_and_batch Examples.docs_folder
              "docs/a.txt" "docs" Examples.docs_files Examples.empty_log)))
              eq_refl eq_refl) as (w' & Hload & Hlog).
  { repeat constructor; eexists; reflexivity. }
  exists w'. split; [|split].
  - rewrite Hload. f_equal.
  - apply Hlog; [|reflexivity|vm_compute; reflexivity].
    apply list_elem_of_In. vm_compute. tauto.
  - apply Hlog; [|reflexivity|vm_compute; reflexivity].
    apply list_elem_of_In. vm_compute. tauto.
Defined.

(** ** The chat turn *)

Lemma bind_ok {S A B} (m : M S A) (k : A → M S B) s a s' :
  m s = (Ok a, s') → bind m k s = k a s'.
Proof. unfold bind. by intros ->. Qed.

Lemma bind_raise {S A B} (m : M S A) (k : A → M S B) s e s' :
  m s = (Raise e, s') → bind m k s = (Raise e, s').
Proof. unfold bind. by intros ->. Qed.

Section ChatTurn.
Context {chat_env : ChatEnv}.
Import Chat.

Lemma agent_search_run agent_name query w :
  ∃ results w',
    agent_search agent_name query w = (Ok results, w') ∧
    same_turn_state w w'.
Proof.
  unfold agent_search, zoom.
  destruct (search_eq agent_name query VectorStoreService.default_k
              VectorStoreService.default_threshold
              (default empty_vector_world (_agent_cache w !! agent_name)))
    as [log' ->].
  do 2 eexists. split; [reflexivity|]. by repeat split.
Qed.

Lemma get_agent_run agent_name w :
  ((agent_name ∉ agents) ∧
   get_agent agent_name w = (Raise (unknown_agent agent_name), w)) ∨
  (agent_name ∈ agents ∧
   ((∃ w', get_agent agent_name w = (Ok agent_name, w') ∧ same_turn_state w w' ∧
           (is_Some (_agent_cache w !! agent_name) ∨
            is_Ok (construct_agent agent_name) = true)) ∨
    (∃ e, _agent_cache w !! agent_name = None ∧
          construct_agent agent_name = Raise e ∧
          get_agent agent_name w = (Raise e, w)))).
Proof.
  unfold get_agent. destruct (decide (agent_name ∈ agents)) as [Hin|Hout].
  - right. split; [done|]. rewrite bool_decide_eq_true_2 by done. cbn.
    unfold bind, get, lift_outcome.
    destruct (_agent_cache w !! agent_name) eqn:Hcache.
    + left. eexists. split; [reflexivity|]. split; [by repeat split|].
      left. by eexists.
    + destruct (construct_agent agent_name) as [agent|e] eqn:Hctor.
      * left. eexists. split; [reflexivity|]. split; [by repeat split|].
        by right.
      * right. by exists e.
  - left. split; [done|]. by rewrite bool_decide_eq_false_2 by done.
Qed.

Lemma call_route_query_run query w :
  ∃ w',
    call_route_query query w = (Ok (routed query w), w') ∧
    routed query w ∈ agents ∧
    sessions w' = sessions w ∧
    route_calls w' = route_calls w ++ [query] ∧
    executor_calls w' = executor_calls w ∧
    _agent_cache w' = _agent_cache w.
Proof.
  unfold call_route_query, routed, bind, modify, zoom. cbn.
  destruct (route_query_total query (orchestrator w)) as (a & ow' & -> & Hvalid).
  cbn. eexists. split; [reflexivity|]. by repeat split.
Qed.

Lemma process_query_run agent_name query sid incl w :
  ∃ input,
    (String.prefix query input = true ∧ (incl = false → input = query)) ∧
    let chat_history := default [] (memory <$> sessions w !! sid) in
    match agent_ainvoke (length (executor_calls w)) agent_name input chat_history with
    | Ok output =>
        ∃ result w',
          process_query agent_name query (Some sid) incl w = (Ok result, w') ∧
          result_response result = output ∧
          sessions w' =
            alter (add_message (AIMessage output)) sid
              (alter (add_message (HumanMessage query)) sid (sessions w)) ∧
          route_calls w' = route_calls w ∧
          executor_calls w' =
            executor_calls w ++ [(agent_name, input, chat_history)]
    | Raise e =>
        ∃ w',
          process_query agent_name query (Some sid) incl w = (Raise e, w') ∧
          sessions w' = sessions w ∧
          route_calls w' = route_calls w ∧
          executor_calls w' =
            executor_calls w ++ [(agent_name, input, chat_history)]
    end.
Proof.
  assert (∃ results w1,
            (if incl then agent_search agent_name query else ret []) w
              = (Ok results, w1) ∧ same_turn_state w w1 ∧
            (incl = false → results = []))
    as (results & w1 & Hsearch & (Hs & Hr & Hx & _) & Hoff).
  { destruct incl.
    - destruct (agent_search_run agent_name query w) as (results & w1 & ? & ?).
      exists results, w1. split; [done|]. split; [done|]. discriminate.
    - do 2 eexists. split; [reflexivity|]. by repeat split. }
  unfold process_query, try_except.
  rewrite (bind_ok _ _ _ _ _ Hsearch).
  unfold bind, get, executor_ainvoke. cbn.
  rewrite Hs, Hx.
  match goal with
  | |- context [agent_ainvoke _ agent_name ?input _] => exists input
  end.
  split.
  { split.
    - destruct (String.eqb _ _); apply prefix_spec;
        [exists EmptyString; by rewrite append_nil_r | by eexists].
    - intros Hincl. by rewrite (Hoff Hincl). }
  destruct (agent_ainvoke _ _ _ _) as [output|e]; cbn.
  - do 2 eexists. split; [reflexivity|]. cbn. by rewrite Hs, Hr, Hx.
  - eexists. split; [reflexivity|]. cbn. by rewrite Hs, Hr, Hx.
Qed.

Lemma send_message_run request w :
  let sid := turn_session_id request w in
  let a := turn_agent request w in
  ∃ o w',
    send_message request w = (o, w') ∧
    route_calls w' =
      match truthy (agent_override request) with
      | Some _ => route_calls w
      | None => route_calls w ++ [message request]
      end ∧
    (((a ∉ agents) ∧
      o = Raise (failed_to_process (unknown_agent a)) ∧
      sessions w' = <[sid := session_booked request w]> (sessions w) ∧
      executor_calls w' = executor_calls w) ∨
     (a ∈ agents ∧
      ∃ e, _agent_cache w !! a = None ∧ construct_agent a = Raise e ∧
           o = Raise (failed_to_process e) ∧
           sessions w' = <[sid := session_booked request w]> (sessions w) ∧
           executor_calls w' = executor_calls w) ∨
     (a ∈ agents ∧
      ∃ input,
        (String.prefix (message request) input = true ∧
         (include_sources request = false → input = message request) ∧
         (is_Some (_agent_cache w !! a) ∨ is_Ok (construct_agent a) = true)) ∧
        executor_calls w' =
          executor_calls w ++ [(a, input, memory (session_at_start request w))] ∧
        match agent_ainvoke (length (executor_calls w)) a input
                (memory (session_at_start request w)) with
        | Raise e =>
            o = Raise (failed_to_process e) ∧
            sessions w' = <[sid := session_booked request w]> (sessions w)
        | Ok output =>
            ∃ resp, o = Ok resp ∧ response resp = output ∧
                    response_session_id resp = sid ∧ agent_used resp = a ∧
                    sessions w' =
                      <[sid := session_answered request w output]> (sessions w)
        end)).
Proof.
  intros sid a.
  (* the session id *)
  assert (∃ w1, match truthy (session_id request) with
                | Some s => ret s
                | None => draw_uuid
                end w = (Ok sid, w1) ∧
                same_turn_state w w1 ∧ _agent_cache w1 = _agent_cache w ∧
                clock_reads w1 = clock_reads w ∧ orchestrator w1 = orchestrator w)
    as (w1 & H1 & (Hs1 & Hr1 & Hx1 & _) & Hc1 & Hk1 & Ho1).
  { subst sid. unfold turn_session_id.
    destruct (truthy (session_id request)); eexists;
      (split; [reflexivity|]); by repeat split. }
  unfold send_message, try_except.
  rewrite (bind_ok _ _ _ _ _ H1). cbv beta.
  rewrite (bind_ok get _ w1 w1 w1 eq_refl).
  (* the session is looked up or created *)
  assert (∃ w2, match sessions w1 !! sid with
                | Some _ => ret ()
                | None =>
                    created <- now;;
                    modify (set_sessions <[sid:=new_session created]>)
                end w1 = (Ok (), w2) ∧
                sessions w2 = <[sid := session_at_start request w]> (sessions w) ∧
                route_calls w2 = route_calls w ∧
                executor_calls w2 = executor_calls w ∧
                _agent_cache w2 = _agent_cache w ∧
                orchestrator w2 = orchestrator w)
    as (w2 & H2 & Hs2 & Hr2 & Hx2 & Hc2 & Ho2).
  { unfold session_at_start. fold sid. rewrite Hs1.
    destruct (sessions w !! sid) as [s|] eqn:Hsid.
    - exists w1. split; [reflexivity|]. cbn. by rewrite Hs1, insert_id.
    - eexists. split; [reflexivity|]. cbn. by rewrite Hs1, Hk1. }
  rewrite (bind_ok _ _ _ _ _ H2). clear H1 H2.
  rewrite (bind_ok (modify _) _ _ _ _ eq_refl).
  rewrite (bind_ok (logger _ _) _ _ _ _ eq_refl).
  set (w3 := add_log _ (set_sessions _ w2)).
  (* the agent is selected *)
  assert (∃ w4, match truthy (agent_override request) with
                | Some a0 => logger INFO ("Using override agent: " +:+ a0);;; ret a0
                | None =>
                    a0 <- call_route_query (message request);;
                    logger INFO ("Orchestrator selected agent: " +:+ a0);;; ret a0
                end w3 = (Ok a, w4) ∧
                (truthy (agent_override request) = None → a ∈ agents) ∧
                sessions w4 = sessions w3 ∧
                route_calls w4 =
                  match truthy (agent_override request) with
                  | Some _ => route_calls w
                  | None => route_calls w ++ [message request]
                  end ∧
                executor_calls w4 = executor_calls w ∧
                _agent_cache w4 = _agent_cache w)
    as (w4 & H4 & Hrouted & Hs4 & Hr4 & Hx4 & Hc4).
  { subst a. unfold turn_agent.
    destruct (truthy (agent_override request)) as [a0|].
    - eexists. split; [reflexivity|]. by repeat split.
    - destruct (call_route_query_run (message request) w3)
        as (w4 & Hcall & Hin & Hs & Hr & Hx & Hc).
      rewrite (bind_ok _ _ _ _ _ Hcall).
      replace (routed (message request) w3) with (routed (message request) w)
        in * by (unfold routed; cbn; by rewrite Ho2).
      eexists. split; [reflexivity|]. cbn.
      split; [done|]. rewrite Hs, Hr, Hx, Hc. cbn. by rewrite Hr2, Hx2, Hc2. }
  rewrite (bind_ok _ _ _ _ _ H4). clear H4.
  rewrite (bind_ok (modify _) _ _ _ _ eq_refl).
  set (w5 := set_sessions _ w4).
  assert (sessions w5 = <[sid := session_booked request w]> (sessions w)) as Hs5.
  { subst w5 w3. cbn. rewrite Hs4. cbn. rewrite Hs2.
    unfold session_booked. fold a sid.
    by rewrite !alter_insert_eq. }
  assert (sessions w5 !! sid = Some (session_booked request w)) as Hsid5
    by (rewrite Hs5; apply lookup_insert_eq).
  assert (memory (session_booked request w) = memory (session_at_start request w))
    as Hmem by reflexivity.
  assert (route_calls w5 = route_calls w4 ∧ executor_calls w5 = executor_calls w4
          ∧ _agent_cache w5 = _agent_cache w4) as (Hr5 & Hx5 & Hc5) by done.
  clearbody w5. clear Hs4 w3.
  (* the dispatch *)
  destruct (get_agent_run a w5)
    as [[Hout Hget]
       | [Hin [(w6 & Hget & (Hs6 & Hr6 & Hx6 & _) & Hbuilt)
              | (e & Hcache & Hctor & Hget)]]].
  - rewrite (bind_raise _ _ _ _ _ Hget). do 2 eexists.
    split; [reflexivity|]. cbn. rewrite Hr5, Hr4. split; [done|].
    left. rewrite Hs5, Hx5, Hx4. by repeat split.
  - rewrite (bind_ok _ _ _ _ _ Hget).
    destruct (process_query_run a (message request) sid
                (include_sources request) w6) as (input & [Hpre Hoff] & Hpq).
    rewrite Hc5, Hc4 in Hbuilt.
    assert (String.prefix (message request) input = true ∧
            (include_sources request = false → input = message request) ∧
            (is_Some (_agent_cache w !! a) ∨ is_Ok (construct_agent a) = true))
      as Hinput by done.
    cbv zeta in Hpq. rewrite Hs6, Hx6, Hsid5, Hx5, Hx4 in Hpq.
    change (default [] (memory <$> Some (session_booked request w)))
      with (memory (session_at_start request w)) in Hpq.
    destruct (agent_ainvoke _ _ _ _) as [output|e] eqn:Hcall.
    + destruct Hpq as (result & w7 & Hrun & Hout & Hs7 & Hr7 & Hx7).
      rewrite (bind_ok _ _ _ _ _ Hrun). do 2 eexists.
      split; [reflexivity|]. cbn. rewrite Hr7, Hr6, Hr5, Hr4. split; [done|].
      right; right. split; [done|]. exists input. split; [exact Hinput|]. rewrite Hx7. split; [done|].
      rewrite Hcall. eexists. split; [reflexivity|]. cbn.
      rewrite Hs7, Hs5. repeat split; try done.
      unfold session_answered. by rewrite !alter_insert_eq.
    + destruct Hpq as (w7 & Hrun & Hs7 & Hr7 & Hx7).
      rewrite (bind_raise _ _ _ _ _ Hrun). do 2 eexists.
      split; [reflexivity|]. cbn. rewrite Hr7, Hr6, Hr5, Hr4. split; [done|].
      right; right. split; [done|]. exists input. split; [exact Hinput|]. rewrite Hx7. split; [done|].
      rewrite Hcall. by rewrite Hs7, Hs5.
  - rewrite (bind_raise _ _ _ _ _ Hget). do 2 eexists.
    split; [reflexivity|]. cbn. rewrite Hr5, Hr4. split; [done|].
    right; left. split; [done|]. exists e.
    rewrite Hs5, Hx5, Hx4. rewrite Hc5, Hc4 in Hcache. by repeat split.
Qed.

(** Whatever happens to the dispatch, the session of the turn ends up
    booked: one more message counted and the agent tracked; its history is
    either untouched or, after an answer, extended by the query and the
    answer.  No other session changes. *)
Lemma send_message_session request w o w' :
  send_message request w = (o, w') →
  (∀ sid', sid' ≠ turn_session_id request w →
           sessions w' !! sid' = sessions w !! sid') ∧
  ∃ s',
    sessions w' !! turn_session_id request w = Some s' ∧
    message_count s' = (message_count (session_at_start request w) + 1)%Z ∧
    agents_used s' = agents_used (session_booked request w) ∧
    ((is_Ok o = false ∧ memory s' = memory (session_at_start request w)) ∨
     (∃ resp, o = Ok resp ∧
              response_session_id resp = turn_session_id request w ∧
              agent_used resp = turn_agent request w ∧
              memory s' = memory (session_at_start request w) ++
                          [HumanMessage (message request);
                           AIMessage (response resp)])).
Proof.
  intros Hrun.
  destruct (send_message_run request w) as (o0 & w0 & Hrun0 & _ & Hcases).
  rewrite Hrun in Hrun0. injection Hrun0 as <- <-.
  assert (∀ s, sessions w' = <[turn_session_id request w := s]> (sessions w) →
            (∀ sid', sid' ≠ turn_session_id request w →
                     sessions w' !! sid' = sessions w !! sid') ∧
            sessions w' !! turn_session_id request w = Some s) as Hins.
  { intros s ->. split; [|apply lookup_insert_eq].
    intros sid' Hne. by apply lookup_insert_ne. }
  destruct Hcases as [(_ & -> & Hs & _) | [(_ & e & _ & _ & -> & Hs & _)
                                          | (_ & input & _ & _ & Hcall)]].
  - destruct (Hins _ Hs) as [Hother Hsid]. split; [done|].
    eexists. split; [exact Hsid|]. repeat split. by left.
  - destruct (Hins _ Hs) as [Hother Hsid]. split; [done|].
    eexists. split; [exact Hsid|]. repeat split. by left.
  - destruct (agent_ainvoke _ _ _ _) as [output|e].
    + destruct Hcall as (resp & -> & Hresp & Hrsid & Hagent & Hs).
      destruct (Hins _ Hs) as [Hother Hsid]. split; [done|].
      eexists. split; [exact Hsid|]. repeat split.
      right. exists resp. repeat split; try done.
      cbn. rewrite Hresp. by rewrite <- app_assoc.
    + destruct Hcall as (-> & Hs).
      destruct (Hins _ Hs) as [Hother Hsid]. split; [done|].
      eexists. split; [exact Hsid|]. repeat split. by left.
Qed.

Lemma app_singleton_neq {A} (l : list A) (x : A) : l ≠ l ++ [x].
Proof.
  intros Heq. apply (f_equal length) in Heq. rewrite length_app in Heq.
  cbn in Heq. lia.
Qed.

Lemma track_agent_elem a s : a ∈ agents_used (track_agent a s).
Proof.
  cbn. case_bool_decide; [done|].
  apply elem_of_app. right. by apply list_elem_of_singleton.
Qed.

(** C4, as the code orders the turn.  The history of the turn's session is
    written only after a successful answer, the query and then the answer;
    on every failing turn, and so when the agent's reasoning step raises
    (the turn then fails with the HTTP 500 error), the history is what it was
    before the turn (empty for a session the turn created) and no other
    session changes.  The bookkeeping done before the dispatch is kept on
    every path: the message count is one more than before and the selected
    agent is in [agents_used]. *)
Theorem failed_turn_keeps_history (request : ChatRequest) (w w' : ChatWorld)
    (o : outcome ChatResponse) :
  send_message request w = (o, w') →
  (∀ sid', sid' ≠ turn_session_id request w →
           sessions w' !! sid' = sessions w !! sid') ∧
  ∃ s',
    sessions w' !! turn_session_id request w = Some s' ∧
    (is_Ok o = false → memory s' = memory (session_at_start request w)) ∧
    (∀ resp, o = Ok resp →
       memory s' = memory (session_at_start request w) ++
                   [HumanMessage (message request); AIMessage (response resp)]) ∧
    message_count s' = (message_count (session_at_start request w) + 1)%Z ∧
    turn_agent request w ∈ agents_used s' ∧
    (∀ a input chat_history e,
       executor_calls w' = executor_calls w ++ [(a, input, chat_history)] →
       agent_ainvoke (length (executor_calls w)) a input chat_history = Raise e →
       a = turn_agent request w ∧ o = Raise (failed_to_process e)).
Proof.
  intros Hrun.
  destruct (send_message_session _ _ _ _ Hrun)
    as (Hother & s' & Hs & Hcount & Hused & Hmem).
  split; [exact Hother|]. exists s'. split; [exact Hs|].
  split; [|split; [|split; [exact Hcount|split]]].
  - intros Hfail.
    destruct Hmem as [[_ Hm] | (resp & -> & _)]; [exact Hm | discriminate].
  - intros resp ->.
    destruct Hmem as [[[=] _] | (resp' & [= <-] & _ & _ & Hm)]. exact Hm.
  - rewrite Hused. apply track_agent_elem.
  - intros a input chat_history e Hcalls Hraise.
    destruct (send_message_run request w) as (o0 & w0 & Hrun0 & _ & Hcases).
    rewrite Hrun in Hrun0. injection Hrun0 as <- <-.
    destruct Hcases as [(_ & _ & _ & Hx) | [(_ & e' & _ & _ & _ & _ & Hx)
                                           | (_ & input' & _ & Hx & Hcall)]].
    + rewrite Hx in Hcalls. by destruct (app_singleton_neq _ _ Hcalls).
    + rewrite Hx in Hcalls. by destruct (app_singleton_neq _ _ Hcalls).
    + rewrite Hx in Hcalls. apply app_inj_tail in Hcalls as [_ [= <- <- <-]].
      rewrite Hraise in Hcall. by destruct Hcall as [-> _].
Qed.


(** C7.  A turn without session id that succeeds, its UUID being new to
    the session store, leaves under the returned id a session with message
    count 1 whose [agents_used] is exactly the selected agent; a second turn
    carrying the returned id leaves that session with message count 2,
    whether it succeeds or not. *)
Theorem session_lifecycle (request1 request2 : ChatRequest)
    (w w1 w2 : ChatWorld) (resp : ChatResponse) (o2 : outcome ChatResponse) :
  truthy (session_id request1) = None →
  sessions w !! uuid4 (uuids_drawn w) = None →
  uuid4 (uuids_drawn w) ≠ EmptyString →
  send_message request1 w = (Ok resp, w1) →
  session_id request2 = Some (response_session_id resp) →
  send_message request2 w1 = (o2, w2) →
  (∃ s1, sessions w1 !! response_session_id resp = Some s1 ∧
         message_count s1 = 1%Z ∧
         agents_used s1 = [agent_used resp]) ∧
  (∃ s2, sessions w2 !! response_session_id resp = Some s2 ∧
         message_count s2 = 2%Z).
Proof.
  intros Hnoid Hfresh Hnonempty Hrun1 Hid2 Hrun2.
  destruct (send_message_session _ _ _ _ Hrun1)
    as (_ & s1 & Hs1 & Hcount1 & Hused1 & Hmem1).
  destruct Hmem1 as [[[=] _] | (resp' & [= <-] & Hsid & Hagent & _)].
  assert (turn_session_id request1 w = uuid4 (uuids_drawn w)) as Huuid
    by (unfold turn_session_id; by rewrite Hnoid).
  assert (session_at_start request1 w = new_session (now_isoformat (clock_reads w)))
    as Hstart by (unfold session_at_start; by rewrite Huuid, Hfresh).
  rewrite <- Hsid in Hs1.
  assert (message_count s1 = 1%Z) as Hone by (by rewrite Hcount1, Hstart).
  split.
  - exists s1. split; [done|]. split; [done|].
    rewrite Hused1, Hagent. unfold session_booked. by rewrite Hstart.
  - assert (turn_session_id request2 w1 = response_session_id resp) as Hsid2.
    { unfold turn_session_id, truthy. rewrite Hid2.
      rewrite Hsid, Huuid.
      by destruct (String.eqb_spec (uuid4 (uuids_drawn w)) EmptyString). }
    destruct (send_message_session _ _ _ _ Hrun2)
      as (_ & s2 & Hs2 & Hcount2 & _).
    rewrite Hsid2 in Hs2. exists s2. split; [done|].
    rewrite Hcount2. unfold session_at_start. rewrite Hsid2, Hs1. cbn. lia.
Qed.
End ChatTurn.

(** A turn on session [s1] whose agent raises: the history is kept, but the
    message count went from 1 to 2 and [medical] joined [agents_used]. *)
Lemma failed_turn_changes_bookkeeping :
  (@Chat.send_message Examples.failing_agents
     Examples.knee_request Examples.one_session).1
    = Raise (HTTPException 500 "Failed to process message: model call failed") ∧
  executor_calls (@Chat.send_message Examples.failing_agents
                    Examples.knee_request Examples.one_session).2
    = [("medical", "My knee is in pain", Examples.greeted)] ∧
  sessions Examples.one_session !! "s1"
    = Some {| memory := Examples.greeted;
              created_at := "2024-05-01T09:00:00";
              message_count := 1;
              agents_used := ["general"] |} ∧
  sessions (@Chat.send_message Examples.failing_agents
              Examples.knee_request Examples.one_session).2 !! "s1"
    = Some {| memory := Examples.greeted;
              created_at := "2024-05-01T09:00:00";
              message_count := 2;
              agents_used := ["general"; "medical"] |}.
Proof. repeat split; vm_compute; reflexivity. Qed.

(** The same turn, through the theorem: the history of [s1] is kept. *)
Lemma failed_turn_keeps_history_knee :
  ∃ s',
    sessions (@Chat.send_message Examples.failing_agents
                Examples.knee_request Examples.one_session).2 !! "s1" = Some s' ∧
    memory s' = Examples.greeted ∧
    message_count s' = 2%Z ∧
    "medical" ∈ agents_used s'.
Proof.
  destruct (@failed_turn_keeps_history Examples.failing_agents
              Examples.knee_request Examples.one_session _ _
              (surjective_pairing _))
    as (_ & s' & Hs & Hfail & _ & Hcount & Hused & _).
  exists s'. split; [exact Hs|]. split; [|split; [exact Hcount | exact Hused]].
  apply Hfail. vm_compute. reflexivity.
Defined.



(** Two turns: the first creates session [session-0] with count 1 and
    [agents_used = [general]], the second brings the count to 2. *)
Lemma two_turns_count_two :
  ∃ resp w1,
    @Chat.send_message Examples.answering_agents
      Examples.weather_request Examples.fresh_chat = (Ok resp, w1) ∧
    response_session_id resp = "session-0" ∧
    (∃ s1, sessions w1 !! "session-0" = Some s1 ∧
           message_count s1 = 1%Z ∧ agents_used s1 = ["general"]) ∧
    (∃ s2, sessions (@Chat.send_message Examples.answering_agents
                       (Examples.follow_up "session-0") w1).2 !! "session-0"
             = Some s2 ∧
           message_count s2 = 2%Z).
Proof.
  destruct (@Chat.send_message Examples.answering_agents
              Examples.weather_request Examples.fresh_chat)
    as [[resp|e] w1] eqn:Hrun1; [|vm_compute in Hrun1; discriminate].
  assert (response_session_id resp = "session-0" ∧ agent_used resp = "general")
    as [Hsid Hagent].
  { vm_compute in Hrun1. injection Hrun1 as <- _. split; reflexivity. }
  exists resp, w1. split; [reflexivity|]. split; [exact Hsid|].
  rewrite <- Hsid, <- Hagent.
  apply (@session_lifecycle Examples.answering_agents
           Examples.weather_request
           (Examples.follow_up (response_session_id resp))
           Examples.fresh_chat w1
           (@Chat.send_message Examples.answering_agents
              (Examples.follow_up (response_session_id resp)) w1).2
           resp
           (@Chat.send_message Examples.answering_agents
              (Examples.follow_up (response_session_id resp)) w1).1).
  - reflexivity.
  - reflexivity.
  - discriminate.
  - exact Hrun1.
  - reflexivity.
  - apply surjective_pairing.
Defined.

(** ** The orchestrator, continued *)

Section Analysis.
Context {router_env : RouterEnv}.
Import Orchestrator OrchestratorAgent.

Lemma analysis_score_cases (b1 b2 b3 : bool) :
  let d : gmap string bool :=
    <["technical_depth" := b3]>
      (<["comparison" := b2]>
         (<["multi_domain" := b1]> (<["requires_context" := false]> ∅))) in
  let score := true_div (sum_values d) (Z.of_nat (size d)) in
  (float_gt score 0.5%float = b1 && b2 && b3) ∧
  PrimFloat.leb score 0.75%float = true.
Proof. destruct b1, b2, b3; vm_compute; split; reflexivity. Qed.

Lemma analyze_query_complexity_eq (query : string) (w : RouterWorld) :
  ∃ r,
    analyze_query_complexity query w = (Ok r, w) ∧
    domains_mentioned r = mentioned_domains query ∧
    requires_multi_agent r = bool_decide (1 < length (mentioned_domains query))%nat ∧
    indicators r !! "multi_domain" = Some (requires_multi_agent r) ∧
    (float_gt (complexity_score r) 0.5%float = true →
     (1 < length (mentioned_domains query))%nat) ∧
    PrimFloat.leb (complexity_score r) 0.75%float = true.
Proof.
  unfold analyze_query_complexity, try_except, ret. cbv zeta.
  eexists. split; [reflexivity|]. cbn [domains_mentioned requires_multi_agent
    indicators complexity_score].
  destruct (analysis_score_cases
              (bool_decide (1 < length (mentioned_domains query))%nat)
              (any_keyword_in comparison_words (lower query))
              (any_keyword_in technical_words (lower query))) as [Hgt Hle].
  cbv zeta in Hgt, Hle. rewrite Hgt.
  split; [reflexivity|]. split; [|split; [|split; [|exact Hle]]].
  - by destruct (bool_decide _), (any_keyword_in comparison_words _),
      (any_keyword_in technical_words _).
  - rewrite lookup_insert_ne by done. rewrite lookup_insert_ne by done.
    rewrite lookup_insert_eq.
    by destruct (bool_decide _), (any_keyword_in comparison_words _),
      (any_keyword_in technical_words _).
  - intros Hb. apply andb_true_iff in Hb as [Hb _].
    apply andb_true_iff in Hb as [Hb _]. by apply bool_decide_eq_true in Hb.
Qed.

Lemma mentions_spec (keywords : list string) (query : string) :
  mentions keywords query = true ↔
  ∃ kw, kw ∈ keywords ∧ substring_of (lower kw) (lower query).
Proof.
  unfold mentions. rewrite existsb_exists.
  split; intros (kw & Hin & Hkw); exists kw;
    (split; [by apply list_elem_of_In | by apply str_in_spec]).
Qed.

Lemma mentioned_domains_spec (query d : string) :
  d ∈ mentioned_domains query ↔
  ∃ kws, (d, kws) ∈ domain_keywords ∧
         ∃ kw, kw ∈ kws ∧ substring_of (lower kw) (lower query).
Proof.
  unfold mentioned_domains. rewrite list_elem_of_fmap. split.
  - intros ([d' kws] & -> & [Hm Hin]%list_elem_of_filter).
    exists kws. split; [done|]. by apply mentions_spec.
  - intros (kws & Hin & Hkw). exists (d, kws). split; [done|].
    apply list_elem_of_filter. split; [|done]. by apply mentions_spec.
Qed.

Lemma mentioned_domains_NoDup (query : string) :
  NoDup (mentioned_domains query).
Proof.
  unfold mentioned_domains.
  assert (NoDup domain_keywords.*1) as Hnodup
    by (apply (bool_decide_unpack _); vm_compute; reflexivity).
  revert Hnodup. generalize domain_keywords.
  induction l as [|[d kws] l IH]; [constructor|].
  rewrite fmap_cons, filter_cons. intros [Hd Hl]%NoDup_cons.
  case_decide; [|by apply IH].
  rewrite fmap_cons. apply NoDup_cons. split; [|by apply IH].
  intros ([d' kws'] & Heq & [_ Hin]%list_elem_of_filter)%list_elem_of_fmap.
  cbn in Heq. subst d'. apply Hd. apply list_elem_of_fmap. by exists (d, kws').
Qed.

Lemma two_distinct_elements {A} (l : list A) :
  NoDup l →
  (1 < length l)%nat ↔ ∃ x y, x ≠ y ∧ x ∈ l ∧ y ∈ l.
Proof.
  intros Hnodup. split.
  - destruct l as [|x [|y l]]; cbn; try lia. intros _.
    exists x, y. apply NoDup_cons in Hnodup as [Hx _].
    split; [|split; [apply list_elem_of_here
                    |apply list_elem_of_further, list_elem_of_here]].
    intros ->. apply Hx, list_elem_of_here.
  - intros (x & y & Hne & Hx & Hy).
    destruct l as [|a [|b l]]; cbn; try lia.
    + by apply elem_of_nil in Hx.
    + apply list_elem_of_singleton in Hx, Hy. congruence.
Qed.

(** X1.  [analyze_query_complexity] returns normally, without touching
    the state.  A domain is reported as mentioned exactly when one of its
    keywords, lower-cased, occurs in the lower-cased query, and
    [requires_multi_agent] is true exactly when two different domains are
    mentioned: the score, at most 0.75, exceeds 0.5 only when all three
    indicators hold, and then two domains are mentioned anyway. *)
Theorem multi_agent_iff_two_domains (query : string) (w : RouterWorld) :
  ∃ r,
    analyze_query_complexity query w = (Ok r, w) ∧
    (∀ d, d ∈ domains_mentioned r ↔
          ∃ kws, (d, kws) ∈ domain_keywords ∧
                 ∃ kw, kw ∈ kws ∧ substring_of (lower kw) (lower query)) ∧
    (requires_multi_agent r = true ↔
     ∃ d1 d2, d1 ≠ d2 ∧ d1 ∈ domains_mentioned r ∧ d2 ∈ domains_mentioned r) ∧
    indicators r !! "multi_domain" = Some (requires_multi_agent r) ∧
    PrimFloat.leb (complexity_score r) 0.75%float = true.
Proof.
  destruct (analyze_query_complexity_eq query w)
    as (r & Hrun & Hdomains & Hreq & Hind & _ & Hle).
  exists r. split; [exact Hrun|]. rewrite Hdomains. split; [|split; [|done]].
  - apply mentioned_domains_spec.
  - rewrite Hreq, bool_decide_eq_true.
    apply two_distinct_elements, mentioned_domains_NoDup.
Qed.

(** The fast path, read through [first_hit]. *)
Lemma route_query_first_hit query w a :
  first_hit (lower query) = Some a →
  ∃ msg, route_query query w =
    (Ok a, {| llm_calls := llm_calls w;
              router_log := router_log w ++ [(INFO, msg)] |}).
Proof.
  unfold first_hit, keyword_sets, route_query, try_except.
  cbn [List.find snd fst fmap option_fmap option_map].
  repeat match goal with
  | |- context [any_keyword_in ?k (lower query)] =>
      destruct (any_keyword_in k (lower query))
  end; intros [= <-]; eexists; reflexivity.
Qed.

Lemma mentions_any (own router : list string) (query : string) :
  Forall (λ kw, is_ascii kw = true ∧ ascii_lower kw ∈ router) own →
  mentions own query = true →
  any_keyword_in router (lower query) = true.
Proof.
  intros Hsub. unfold mentions, any_keyword_in. rewrite !existsb_exists.
  intros (kw & Hin & Hkw). exists (lower kw). split; [|done].
  apply list_elem_of_In in Hin.
  eapply Forall_forall in Hsub as [Hascii Hrouter]; [|exact Hin].
  apply list_elem_of_In. by rewrite lower_ascii.
Qed.

Ltac keywords_included :=
  apply (bool_decide_unpack _); vm_compute; reflexivity.

(** Two mentioned domains: one of them is not [sales], and the keywords of
    the other four domains are router keywords. *)
Lemma two_domains_hit query :
  (1 < length (mentioned_domains query))%nat →
  first_hit (lower query) ≠ None.
Proof.
  intros Hlen. unfold mentioned_domains, domain_keywords in Hlen.
  rewrite !filter_cons, filter_nil in Hlen. cbn [snd] in Hlen.
  assert (any_keyword_in real_estate_keywords (lower query) = true ∨
          any_keyword_in medical_keywords (lower query) = true ∨
          any_keyword_in ai_keywords (lower query) = true ∨
          any_keyword_in education_keywords (lower query) = true) as Hhit.
  { repeat case_decide; cbn in Hlen; try lia;
      match goal with
      | Hm : mentions ?own query = true |- _ =>
          first
            [ left; apply (mentions_any own); [keywords_included | exact Hm]
            | right; left;
              apply (mentions_any own); [keywords_included | exact Hm]
            | right; right; left;
              apply (mentions_any own); [keywords_included | exact Hm]
            | right; right; right;
              apply (mentions_any own); [keywords_included | exact Hm] ]
      end. }
  unfold first_hit, keyword_sets.
  cbn [List.find snd fst fmap option_fmap option_map].
  destruct Hhit as [Hh | [Hh | [Hh | Hh]]]; rewrite Hh;
    repeat match goal with
    | |- context [any_keyword_in ?k (lower query)] =>
        destruct (any_keyword_in k (lower query))
    end; done.
Qed.

(** X2.  A query that [analyze_query_complexity] flags as needing several
    agents never reaches the classifier: one of its domains has a keyword of
    the router, so [route_query] returns the first keyword set that hits and
    makes no model call. *)
Theorem multi_agent_queries_take_fast_path (query : string)
    (wa wa' w : RouterWorld) (r : ComplexityAnalysis) :
  analyze_query_complexity query wa = (Ok r, wa') →
  requires_multi_agent r = true →
  ∃ a w',
    first_hit (lower query) = Some a ∧
    route_query query w = (Ok a, w') ∧
    llm_calls w' = llm_calls w.
Proof.
  intros Hrun Hmulti.
  destruct (analyze_query_complexity_eq query wa) as (r0 & Hrun0 & _ & Hreq & _).
  rewrite Hrun in Hrun0. injection Hrun0 as <- _.
  rewrite Hreq in Hmulti. apply bool_decide_eq_true in Hmulti.
  pose proof (two_domains_hit query Hmulti) as Hhit.
  destruct (first_hit (lower query)) as [a|] eqn:Hfirst; [|done].
  destruct (route_query_first_hit query w a Hfirst) as [msg Hroute].
  exists a. eexists. split; [done|]. split; [exact Hroute | reflexivity].
Qed.

(** X6.  [coordinate_multi_agent_response] never raises and makes exactly
    one model call, also when there are no secondary responses: it returns
    the model's text, or the primary response unchanged when the call
    raises. *)
Theorem coordination_falls_back_to_primary (query primary : string)
    (secondary : list (string * string)) (w : RouterWorld) :
  ∃ out w',
    coordinate_multi_agent_response query primary secondary w = (Ok out, w') ∧
    llm_calls w' = llm_calls w ++ [coord_messages query primary secondary] ∧
    out = match ainvoke (length (llm_calls w))
                  (coord_messages query primary secondary) with
          | Ok text => text
          | Raise _ => primary
          end.
Proof.
  unfold coordinate_multi_agent_response, try_except, bind, llm_ainvoke.
  destruct (ainvoke _ _); cbn; do 2 eexists; repeat split; reflexivity.
Qed.
End Analysis.

(** A question about houses and health is flagged and routed by keyword. *)
Lemma multi_agent_house_and_health :
  ∃ a w',
    Orchestrator.first_hit
      (@lower Examples.ascii_text "Compare house prices and health costs")
      = Some a ∧
    @Orchestrator.route_query Examples.timeout_model
      "Compare house prices and health costs" Examples.fresh_router = (Ok a, w') ∧
    llm_calls w' = llm_calls Examples.fresh_router.
Proof.
  destruct (@analyze_query_complexity_eq Examples.timeout_model
              "Compare house prices and health costs" Examples.fresh_router)
    as (r & Hrun & _ & Hreq & _).
  apply (@multi_agent_queries_take_fast_path Examples.timeout_model
           "Compare house prices and health costs"
           Examples.fresh_router Examples.fresh_router Examples.fresh_router r Hrun).
  rewrite Hreq. vm_compute. reflexivity.
Defined.

(** ** The vector store service, continued *)

Section Index.
Context {index_env : IndexEnv}.
Import VectorStoreService VectorStore.

Ltac step_ok := erewrite bind_ok by reflexivity; cbv beta.
Ltac step_raise := erewrite bind_raise by reflexivity; cbv beta.

Ltac run_index :=
  unfold _save_store, _load_store, try_except, bind, get, call, modify,
    set_stores, set_disk, VectorStoreService.logger, ret, raise.

(** Saving never raises and never touches the stores. *)
Lemma save_store_spec agent vector_store w :
  ∃ w', _save_store agent vector_store w = (Ok tt, w') ∧
        vector_stores w' = vector_stores w.
Proof.
  run_index. destruct vector_store as [store|]; cbn.
  - destruct (save_local store agent (disk w)).2; cbn;
      eexists; (split; [reflexivity|done]).
  - eexists. split; [reflexivity|done].
Qed.

Lemma load_store_spec agent w :
  ∃ log', _load_store agent w =
    (Ok (loaded (disk w) agent),
     {| vector_stores := vector_stores w; disk := disk w; vs_log := log' |}).
Proof.
  destruct w as [stores files log]. run_index. unfold loaded. cbn.
  destruct (load_local files agent); cbn; eexists; reflexivity.
Qed.

Lemma load_each_spec store_files w :
  ∃ w',
    load_each store_files w = (Ok tt, w') ∧
    disk w' = disk w ∧
    ∀ agent,
      vector_stores w' !! agent =
        if decide (agent ∈ path_stem <$> store_files)
        then Some (loaded (disk w) agent)
        else vector_stores w !! agent.
Proof.
  revert w. induction store_files as [|f rest IH]; intros w.
  - exists w. split; [reflexivity|]. split; [done|]. intros agent.
    rewrite decide_False; [done|]. cbn. apply not_elem_of_nil.
  - cbn [load_each]. unfold bind at 1, try_except at 1, bind at 1.
    destruct (load_store_spec (path_stem f) w) as [log' ->].
    unfold bind at 1. cbn [modify VectorStoreService.logger].
    match goal with
    | |- context [load_each rest ?w1] =>
        destruct (IH w1) as (w' & -> & Hdisk & Hstores)
    end.
    exists w'. split; [reflexivity|]. split; [exact Hdisk|].
    intros agent. rewrite Hstores. cbn [disk vector_stores set_stores].
    rewrite fmap_cons.
    destruct (decide (agent ∈ path_stem <$> rest)) as [Hin|Hout].
    + rewrite decide_True; [done|]. by apply list_elem_of_further.
    + destruct (decide (agent = path_stem f)) as [->|Hne].
      * rewrite decide_True by apply list_elem_of_here.
        by rewrite lookup_insert_eq.
      * rewrite decide_False.
        -- by rewrite lookup_insert_ne.
        -- intros [?|?]%elem_of_cons; done.
Qed.

(** X3.  [_load_existing_stores] never raises, leaves the folder alone, and
    registers the stem of every [*.pkl] file in it: with the store when it
    loads, with [None] when loading fails.  Other entries are kept. *)
Theorem load_existing_stores_registers (w : VectorWorld) :
  ∃ w',
    _load_existing_stores w = (Ok tt, w') ∧
    disk w' = disk w ∧
    (∀ f, f ∈ disk w → is_pkl f = true →
          vector_stores w' !! path_stem f = Some (loaded (disk w) (path_stem f))) ∧
    (∀ agent, (∀ f, f ∈ disk w → is_pkl f = true → path_stem f ≠ agent) →
              vector_stores w' !! agent = vector_stores w !! agent).
Proof.
  unfold _load_existing_stores, bind, get.
  destruct (load_each_spec (glob_pkl (disk w)) w) as (w' & -> & Hdisk & Hstores).
  exists w'. split; [reflexivity|]. split; [exact Hdisk|]. split.
  - intros f Hf Hpkl. rewrite Hstores, decide_True; [done|].
    apply list_elem_of_fmap. exists f. split; [done|].
    apply list_elem_of_filter. split; [done|]. by apply elem_of_elements.
  - intros agent Hno. rewrite Hstores, decide_False; [done|].
    intros (f & -> & [Hpkl Hf%elem_of_elements]%list_elem_of_filter)%list_elem_of_fmap.
    by apply (Hno f).
Qed.

Lemma create_vector_store_spec agent documents w :
  documents ≠ [] →
  match from_documents documents with
  | Returns store =>
      ∃ w', create_vector_store agent documents w = (Ok (Some store), w') ∧
            vector_stores w' = <[agent := Some store]> (vector_stores w)
  | Fails msg =>
      ∃ w', create_vector_store agent documents w = (Raise (ExternalError msg), w') ∧
            vector_stores w' = vector_stores w
  end.
Proof.
  intros Hne. unfold create_vector_store, try_except.
  destruct documents as [|d documents]; [done|].
  destruct (from_documents (d :: documents)) as [store|msg].
  - step_ok.
    step_ok.
    match goal with
    | |- context [bind (_save_store agent (Some store)) _ ?w1] =>
        destruct (save_store_spec agent (Some store) w1) as (w2 & Hsave & Hs)
    end.
    rewrite (bind_ok _ _ _ _ _ Hsave).
    eexists. split; [reflexivity|]. cbn. by rewrite Hs.
  - step_raise.
    eexists. split; [reflexivity|]. done.
Qed.

Lemma add_documents_spec (agent : string) (documents : list Document)
    (w : VectorWorld) :
  ∃ o w',
    add_documents agent documents w = (o, w') ∧
    (∀ other, other ≠ agent →
              vector_stores w' !! other = vector_stores w !! other) ∧
    match documents, vector_stores w !! agent with
    | [], _ => o = Ok 0%Z ∧ w' = w
    | _, None =>
        match from_documents documents with
        | Returns store =>
            o = Ok (Z.of_nat (length documents)) ∧
            vector_stores w' !! agent = Some (Some store)
        | Fails msg =>
            o = Raise (ExternalError msg) ∧ vector_stores w' !! agent = None
        end
    | _, Some (Some store) =>
        vector_stores w' !! agent
          = Some (Some (store_add_documents store documents).1) ∧
        o = match (store_add_documents store documents).2 with
            | None => Ok (Z.of_nat (length documents))
            | Some msg => Raise (ExternalError msg)
            end
    | _, Some None =>
        o = Raise (none_has_no "add_documents") ∧
        vector_stores w' !! agent = Some None
    end.
Proof.
  destruct documents as [|d documents].
  { exists (Ok 0%Z), w. split; [reflexivity|]. done. }
  unfold add_documents, try_except.
  step_ok.
  destruct (vector_stores w !! agent) as [[store|]|] eqn:Hagent.
  - destruct (store_add_documents store (d :: documents)) as [store' [msg|]] eqn:Hadd;
      cbn [fst snd].
    + step_raise.
      do 2 eexists. split; [reflexivity|]. cbn. split.
      * intros other Hne. by rewrite lookup_insert_ne.
      * by rewrite lookup_insert_eq.
    + step_ok.
      match goal with
      | |- context [bind (_save_store agent (Some store')) _ ?w1] =>
          destruct (save_store_spec agent (Some store') w1) as (w2 & Hsave & Hs)
      end.
      rewrite (bind_ok _ _ _ _ _ Hsave).
      do 2 eexists. split; [reflexivity|]. cbn. rewrite Hs. cbn. split.
      * intros other Hne. by rewrite lookup_insert_ne.
      * by rewrite lookup_insert_eq.
  - step_raise.
    do 2 eexists. split; [reflexivity|]. cbn. by rewrite Hagent.
  - pose proof (create_vector_store_spec agent (d :: documents) w) as Hcreate.
    destruct (from_documents (d :: documents)) as [store|msg].
    + destruct Hcreate as (w1 & Hc & Hs1); [done|].
      rewrite (bind_ok _ _ _ _ _ Hc).
      destruct (save_store_spec agent (Some store) w1) as (w2 & Hsave & Hs2).
      rewrite (bind_ok _ _ _ _ _ Hsave).
      do 2 eexists. split; [reflexivity|]. cbn. rewrite Hs2, Hs1. split.
      * intros other Hne. by rewrite lookup_insert_ne.
      * by rewrite lookup_insert_eq.
    + destruct Hcreate as (w1 & Hc & Hs1); [done|].
      rewrite (bind_raise _ _ _ _ _ Hc).
      do 2 eexists. split; [reflexivity|]. cbn. by rewrite Hs1, Hagent.
Qed.

(** X4.  [add_documents], in memory.  Nothing happens for an empty list.
    For a new agent the store is created, and when creation fails the agent
    still has no entry.  For an agent with a store the call succeeds exactly
    when the store's own [add_documents] does.  A failure to persist never
    fails the call, and the number returned is the number of documents given.
    No other agent's entry changes. *)
Theorem add_documents_result (agent : string) (documents : list Document)
    (w : VectorWorld) :
  ∃ o w',
    add_documents agent documents w = (o, w') ∧
    (∀ other, other ≠ agent →
              vector_stores w' !! other = vector_stores w !! other) ∧
    match documents, vector_stores w !! agent with
    | [], _ => o = Ok 0%Z ∧ w' = w
    | _, None =>
        match from_documents documents with
        | Returns store =>
            o = Ok (Z.of_nat (length documents)) ∧
            vector_stores w' !! agent = Some (Some store)
        | Fails msg =>
            o = Raise (ExternalError msg) ∧ vector_stores w' !! agent = None
        end
    | _, Some (Some store) =>
        vector_stores w' !! agent
          = Some (Some (store_add_documents store documents).1) ∧
        o = match (store_add_documents store documents).2 with
            | None => Ok (Z.of_nat (length documents))
            | Some msg => Raise (ExternalError msg)
            end
    | _, Some None =>
        o = Raise (none_has_no "add_documents") ∧
        vector_stores w' !! agent = Some None
    end.
Proof. apply add_documents_spec. Qed.

(** X5.  An agent whose persisted store could not be read is registered
    with [None]: its statistics say it exists, [search] finds nothing,
    [get_retriever] and [add_documents] raise, and the entry stays as it is.
    Only after [clear_store] can documents be added again. *)
Theorem unreadable_store_blocks_agent (agent : string)
    (documents : list Document) (w : VectorWorld) :
  vector_stores w !! agent = Some None →
  documents ≠ [] →
  (∀ query k threshold,
     ∃ w1, search agent query k threshold w = (Ok [], w1)) ∧
  (∃ stats w1, get_store_stats agent w = (Ok stats, w1) ∧
               stats_exists stats = true) ∧
  get_retriever agent w = (Raise (none_has_no "as_retriever"), w) ∧
  (∃ w1, add_documents agent documents w
           = (Raise (none_has_no "add_documents"), w1) ∧
         vector_stores w1 !! agent = Some None) ∧
  (∀ store, from_documents documents = Returns store →
     ∃ w1 w2,
       clear_store agent w = (Ok tt, w1) ∧
       add_documents agent documents w1
         = (Ok (Z.of_nat (length documents)), w2) ∧
       vector_stores w2 !! agent = Some (Some store)).
Proof.
  intros Hnone Hdocs. repeat split.
  - intros query k threshold.
    destruct (search_eq agent query k threshold w) as [log' ->].
    unfold store_results. rewrite Hnone. eexists; reflexivity.
  - unfold get_store_stats, bind, get. rewrite Hnone. do 2 eexists.
    split; reflexivity.
  - unfold get_retriever, bind, get. by rewrite Hnone.
  - destruct (add_documents_spec agent documents w) as (o & w1 & Hrun & _ & Hcase).
    rewrite Hnone in Hcase. destruct documents as [|d documents]; [done|].
    destruct Hcase as [-> Hentry]. by exists w1.
  - intros store Hstore.
    destruct (clear_store_spec agent w) as (w1 & Hclear & Hstores & _).
    destruct (add_documents_spec agent documents w1) as (o & w2 & Hrun & _ & Hcase).
    rewrite Hstores, lookup_delete_eq, Hstore in Hcase.
    destruct documents as [|d documents]; [done|].
    destruct Hcase as [-> Hentry]. by exists w1, w2.
Qed.
(** X22.  [create_vector_store], in memory.  An empty list builds nothing
    and returns [None].  Otherwise the new index replaces whatever the agent
    had, also when saving it fails; when the index cannot be built the error
    is raised again and the stores are as before. *)
Theorem create_vector_store_result (agent : string)
    (documents : list Document) (w : VectorWorld) :
  ∃ o w',
    create_vector_store agent documents w = (o, w') ∧
    match documents, from_documents documents with
    | [], _ => o = Ok None ∧ vector_stores w' = vector_stores w
    | _, Returns store =>
        o = Ok (Some store) ∧
        vector_stores w' = <[agent := Some store]> (vector_stores w)
    | _, Fails msg =>
        o = Raise (ExternalError msg) ∧ vector_stores w' = vector_stores w
    end.
Proof.
  destruct documents as [|d documents].
  - unfold create_vector_store, try_except. step_ok.
    do 2 eexists. split; [reflexivity|]. done.
  - pose proof (create_vector_store_spec agent (d :: documents) w ltac:(done))
      as Hcreate.
    destruct (from_documents (d :: documents)) as [store|msg];
      destruct Hcreate as (w' & Hrun & Hstores);
      do 2 eexists; (split; [exact Hrun|done]).
Qed.
End Index.

(** A folder holding a store that cannot be read back. *)
Lemma unreadable_medical_store :
  vector_stores (@VectorStore._load_existing_stores ExtraExamples.unreadable_index
                   ExtraExamples.persisted_only).2 !! "medical" = Some None ∧
  (∃ w1, @VectorStore.add_documents ExtraExamples.unreadable_index "medical"
           [Examples.near_chunk]
           (@VectorStore._load_existing_stores ExtraExamples.unreadable_index
              ExtraExamples.persisted_only).2
         = (Raise (VectorStore.none_has_no "add_documents"), w1) ∧
         vector_stores w1 !! "medical" = Some None).
Proof.
  assert (vector_stores (@VectorStore._load_existing_stores
                           ExtraExamples.unreadable_index
                           ExtraExamples.persisted_only).2 !! "medical" = Some None)
    as Hnone by (vm_compute; reflexivity).
  split; [exact Hnone|].
  apply (@unreadable_store_blocks_agent ExtraExamples.unreadable_index
           "medical" [Examples.near_chunk] _ Hnone).
  discriminate.
Defined.

(** ** The document loader, continued *)

Section LoaderMore.
Context {loader_env : LoaderEnv}.
Import DocumentLoader Loader.

(** Position and count are written on every chunk, over whatever the
    splitter left under these keys. *)
Lemma add_chunk_metadata_spec (chunks : list Document) :
  length (add_chunk_metadata chunks) = length chunks ∧
  ∀ i c, add_chunk_metadata chunks !! i = Some c →
    ∃ c0, chunks !! i = Some c0 ∧
          page_content c = page_content c0 ∧
          metadata c !! "chunk_index" = Some (MInt (Z.of_nat i)) ∧
          metadata c !! "total_chunks" = Some (MInt (Z.of_nat (length chunks))) ∧
          ∀ key, key ≠ "chunk_index" → key ≠ "total_chunks" →
                 metadata c !! key = metadata c0 !! key.
Proof.
  unfold add_chunk_metadata. split; [apply length_imap|].
  intros i c Hc. rewrite list_lookup_imap in Hc.
  destruct (chunks !! i) as [c0|]; [|discriminate]. injection Hc as <-.
  exists c0. split; [done|]. split; [done|]. cbn.
  split; [|split].
  - apply lookup_union_Some_l. apply lookup_insert_eq.
  - apply lookup_union_Some_l. rewrite lookup_insert_ne by done.
    apply lookup_singleton_eq.
  - intros key Hk1 Hk2. apply lookup_union_r.
    rewrite lookup_insert_ne by done. by apply lookup_singleton_ne.
Qed.

Lemma load_single_document_chunks file_path w chunks w' :
  load_single_document file_path w = (Ok chunks, w') →
  ∃ split, chunks = add_chunk_metadata split.
Proof.
  destruct w as [log]. unfold load_single_document, run_loader, try_except,
    bind, call, logger, modify, ret, raise. cbn.
  destruct (path_exists file_path) as [[]|msg]; cbn; try discriminate.
  destruct (loader_mapping _) as [[]|]; cbn;
    [ destruct (PyPDFLoader file_path); cbn;
      [|destruct (UnstructuredPDFLoader file_path); cbn]
    | destruct (TextLoader file_path); cbn
    | destruct (UnstructuredWordDocumentLoader file_path); cbn
    | destruct (UnstructuredMarkdownLoader file_path); cbn
    | destruct (CSVLoader file_path); cbn
    | ];
    try (destruct (split_documents _); cbn);
    intros [= <- <-]; eexists; reflexivity.
Qed.

(** X7.  Every chunk [load_single_document] or [process_text] returns
    carries its position as [chunk_index] and the number of chunks returned
    as [total_chunks]. *)
Theorem chunks_are_numbered (file_path text : string)
    (meta : option (gmap string MetaVal)) (w w' : LoaderWorld)
    (chunks : list Document) :
  load_single_document file_path w = (Ok chunks, w') ∨
  process_text text meta w = (Ok chunks, w') →
  ∀ i c, chunks !! i = Some c →
    metadata c !! "chunk_index" = Some (MInt (Z.of_nat i)) ∧
    metadata c !! "total_chunks" = Some (MInt (Z.of_nat (length chunks))).
Proof.
  intros Hrun.
  assert (∃ split, chunks = add_chunk_metadata split) as [split ->].
  { destruct Hrun as [Hrun|Hrun]; [by eapply load_single_document_chunks|].
    unfold process_text, bind, call in Hrun.
    destruct (split_documents _); cbn in Hrun; [|discriminate].
    injection Hrun as <- _. eexists; reflexivity. }
  intros i c Hc.
  destruct (add_chunk_metadata_spec split) as [Hlen Hspec].
  destruct (Hspec i c Hc) as (c0 & _ & _ & Hindex & Htotal & _).
  rewrite Hlen. done.
Qed.

(** X8.  A PDF is parsed by [PyPDFLoader]; when that raises, the error is
    logged and [UnstructuredPDFLoader] is tried; loading the file fails in
    the parser only when both do, and then with the second error. *)
Theorem pdf_falls_back_to_unstructured (file_path : string) (w : LoaderWorld) :
  path_exists file_path = Returns true →
  lower (path_suffix file_path) = ".pdf" →
  (load_single_document file_path w).1 =
    match PyPDFLoader file_path with
    | Returns docs => finish_loading file_path docs
    | Fails _ =>
        match UnstructuredPDFLoader file_path with
        | Returns docs => finish_loading file_path docs
        | Fails msg => Raise (ExternalError msg)
        end
    end ∧
  (∀ msg, PyPDFLoader file_path = Fails msg →
     (ERROR, "Error loading PDF " +:+ file_path +:+ ": " +:+ msg)
       ∈ loader_log (load_single_document file_path w).2).
Proof.
  intros Hexists Hext. destruct w as [log].
  unfold load_single_document, finish_loading, run_loader, try_except,
    bind, call, logger, modify, ret, raise.
  rewrite Hexists, Hext. cbn.
  destruct (PyPDFLoader file_path) as [docs|msg1]; cbn.
  - destruct (split_documents _); cbn; (split; [reflexivity|discriminate]).
  - destruct (UnstructuredPDFLoader file_path) as [docs|msg2]; cbn;
      try (destruct (split_documents _); cbn);
      (split; [reflexivity|]); intros m [= <-];
      repeat first [ apply list_elem_of_here
                   | apply elem_of_app; right; apply list_elem_of_here
                   | apply elem_of_app; left ].
Qed.

(** The ways the file system can make [load_documents] fail with [msg]:
    the existence test fails, the listing fails, or [is_file] fails on an
    entry after answering for the entries before it. *)
Lemma load_documents_raises directory_path w msg :
  path_exists directory_path = Fails msg ∨
  path_exists directory_path = Returns true ∧
  (iterdir directory_path = Fails msg ∨
   ∃ before f after,
     iterdir directory_path = Returns (before ++ f :: after) ∧
     Forall (λ p, ∃ b, path_is_file p = Returns b) before ∧
     path_is_file f = Fails msg) →
  (load_documents directory_path w).1 = Raise (ExternalError msg).
Proof.
  unfold load_documents.
  intros [-> | [-> [-> | (before & f & after & -> & Hbefore & Hf)]]];
    try reflexivity.
  unfold bind at 1. cbn [call ret negb]. unfold bind at 1. cbn [ret].
  unfold bind at 1.
  by destruct (load_entries_abort before f after msg [] w Hbefore Hf) as [w' ->].
Qed.

Lemma load_documents_raise_cause directory_path w e :
  (load_documents directory_path w).1 = Raise e →
  ∃ msg, e = ExternalError msg ∧
    (path_exists directory_path = Fails msg ∨
     path_exists directory_path = Returns true ∧
     (iterdir directory_path = Fails msg ∨
      ∃ before f after,
        iterdir directory_path = Returns (before ++ f :: after) ∧
        Forall (λ p, ∃ b, path_is_file p = Returns b) before ∧
        path_is_file f = Fails msg)).
Proof.
  unfold load_documents. intros Hrun.
  destruct (path_exists directory_path) as [[]|msg] eqn:Hexists.
  - destruct (iterdir directory_path) as [entries|msg] eqn:Hiter.
    + unfold bind at 1 in Hrun. cbn [call ret negb] in Hrun.
      unfold bind at 1 in Hrun. cbn [ret] in Hrun.
      unfold bind at 1 in Hrun.
      destruct (is_file_answers_or_fails entries)
        as [Hall|(before & f & after & msg & -> & Hbefore & Hf)].
      * destruct (load_entries_spec entries [] w Hall) as (extra & Hok & _).
        rewrite Hok in Hrun. discriminate.
      * destruct (load_entries_abort before f after msg [] w Hbefore Hf)
          as [w1 Habort].
        rewrite Habort in Hrun. injection Hrun as <-.
        exists msg. split; [done|]. right. split; [done|]. right.
        by exists before, f, after.
    + injection Hrun as <-. exists msg. split; [done|]. right.
      split; [done|]. by left.
  - discriminate.
  - injection Hrun as <-. exists msg. split; [done|]. by left.
Qed.

(** What [load_documents] returns or raises does not depend on the log it
    starts from. *)
Lemma load_documents_log directory_path w :
  (load_documents directory_path w).1
    = (load_documents directory_path {| loader_log := [] |}).1.
Proof.
  destruct (load_documents directory_path {| loader_log := [] |}).1
    as [documents|e] eqn:Hempty.
  - unfold load_documents in *.
    destruct (path_exists directory_path) as [[]|msg]; [|done|done].
    destruct (iterdir directory_path) as [entries|msg]; [|done].
    unfold bind at 1 in Hempty. cbn [call ret negb] in Hempty.
    unfold bind at 1 in Hempty. cbn [ret] in Hempty.
    unfold bind at 1 in Hempty.
    unfold bind at 1. cbn [call ret negb]. unfold bind at 1. cbn [ret].
    unfold bind at 1.
    destruct (is_file_answers_or_fails entries)
      as [Hall|(before & f & after & msg & -> & Hbefore & Hf)].
    + destruct (load_entries_spec entries [] w Hall) as (extra & -> & _).
      destruct (load_entries_spec entries [] {| loader_log := [] |} Hall)
        as (extra0 & Hok & _).
      rewrite Hok in Hempty. exact Hempty.
    + destruct (load_entries_abort before f after msg []
                  {| loader_log := [] |} Hbefore Hf) as [w1 Habort].
      rewrite Habort in Hempty. discriminate.
  - apply load_documents_raise_cause in Hempty as (msg & -> & Hcause).
    by apply load_documents_raises.
Qed.

(** X9.  [load_documents] raises only for the file system: exactly when the
    existence test on the directory fails, or the directory exists and
    listing it fails, or [is_file] fails on one of its entries (the loop stops
    there).  No error of a parser or of the splitter gets out.  A directory
    that does not exist gives the empty list and a warning. *)
Theorem load_documents_raises_only_for_file_system (directory_path : string)
    (w : LoaderWorld) :
  ∃ o w',
    load_documents directory_path w = (o, w') ∧
    (path_exists directory_path = Returns false →
     o = Ok [] ∧
     loader_log w' = loader_log w ++
       [(WARNING, "Directory " +:+ directory_path +:+ " does not exist")]) ∧
    (∀ e, o = Raise e ↔
          ∃ msg, e = ExternalError msg ∧
            (path_exists directory_path = Fails msg ∨
             path_exists directory_path = Returns true ∧
             (iterdir directory_path = Fails msg ∨
              ∃ before f after,
                iterdir directory_path = Returns (before ++ f :: after) ∧
                Forall (λ p, ∃ b, path_is_file p = Returns b) before ∧
                path_is_file f = Fails msg))).
Proof.
  destruct (load_documents directory_path w) as [o w'] eqn:Hrun.
  exists o, w'. split; [reflexivity|]. split.
  - intros Hno. unfold load_documents in Hrun. rewrite Hno in Hrun.
    by injection Hrun as <- <-.
  - intros e. split.
    + intros ->. apply (load_documents_raise_cause directory_path w).
      by rewrite Hrun.
    + intros (msg & -> & Hcause).
      pose proof (load_documents_raises directory_path w msg Hcause) as Hraise.
      by rewrite Hrun in Hraise.
Qed.
End LoaderMore.

(** The first chunk of [docs/a.txt] is chunk 0 of 1. *)
Lemma chunks_are_numbered_a_txt :
  ∃ c,
    (@DocumentLoader.chunks_of Examples.docs_folder "docs/a.txt") !! 0%nat = Some c ∧
    metadata c !! "chunk_index" = Some (MInt 0) ∧
    metadata c !! "total_chunks" = Some (MInt 1).
Proof.
  exists (Examples.only_chunk "alpha" "docs/a.txt" "a.txt" ".txt").
  split; [vm_compute; reflexivity|].
  assert (@DocumentLoader.load_single_document Examples.docs_folder
            "docs/a.txt" Examples.empty_log
          = (Ok [Examples.only_chunk "alpha" "docs/a.txt" "a.txt" ".txt"],
             (@DocumentLoader.load_single_document Examples.docs_folder
                "docs/a.txt" Examples.empty_log).2)) as Hrun
    by (vm_compute; reflexivity).
  destruct (@chunks_are_numbered Examples.docs_folder "docs/a.txt" "" None
              _ _ _ (or_introl Hrun) 0%nat _ eq_refl) as [Hindex Htotal].
  split; [exact Hindex | exact Htotal].
Defined.

(** [docs/b.pdf]: both parsers fail, the second error is raised. *)
Lemma pdf_both_parsers_fail :
  (@DocumentLoader.load_single_document Examples.docs_folder
     "docs/b.pdf" Examples.empty_log).1
    = Raise (ExternalError "cannot parse pdf") ∧
  (ERROR, "Error loading PDF docs/b.pdf: invalid pdf header")
    ∈ loader_log (@DocumentLoader.load_single_document Examples.docs_folder
                    "docs/b.pdf" Examples.empty_log).2.
Proof.
  destruct (@pdf_falls_back_to_unstructured Examples.docs_folder
              "docs/b.pdf" Examples.empty_log eq_refl eq_refl) as [Hout Hlog].
  split; [exact Hout|]. exact (Hlog "invalid pdf header" eq_refl).
Defined.

(** ** Sessions and agents, continued *)

Section ChatMore.
Context {chat_env : ChatEnv}.
Import Chat Sessions.

Lemma new_session_ok created : session_ok (new_session created).
Proof.
  unfold session_ok. cbn. repeat split; try lia; constructor.
Qed.

Lemma clear_session_spec sid w :
  ∃ reply w1,
    clear_session sid w = (Ok reply, w1) ∧
    sessions w1 = delete sid (sessions w) ∧
    executor_calls w1 = executor_calls w ∧
    status reply = match sessions w !! sid with
                   | Some _ => "success"
                   | None => "not_found"
                   end.
Proof.
  unfold clear_session, try_except, bind, get.
  destruct (sessions w !! sid) as [s|] eqn:Hsid; cbn.
  - do 2 eexists. split; [reflexivity|]. done.
  - do 2 eexists. split; [reflexivity|]. by rewrite delete_id.
Qed.

(** X10.  Every session stays well formed under turns and clearing:
    [agents_used] has no duplicates and is no longer than the message count,
    the history consists of whole query/answer turns, and it holds at most
    two messages per counted turn. *)
Theorem sessions_stay_well_formed (w : ChatWorld) :
  sessions_ok w →
  (∀ request, sessions_ok (send_message request w).2) ∧
  (∀ sid, sessions_ok (clear_session sid w).2).
Proof.
  intros Hok. split.
  - intros request sid s Hs.
    destruct (send_message request w) as [o w'] eqn:Hrun. cbn in Hs.
    destruct (send_message_session _ _ _ _ Hrun)
      as (Hother & s' & Hs' & Hcount & Hused & Hmem).
    destruct (decide (sid = turn_session_id request w)) as [->|Hne];
      [|rewrite Hother in Hs by done; by eapply Hok].
    rewrite Hs' in Hs. injection Hs as ->.
    assert (session_ok (session_at_start request w))
      as (Hnodup & Hlen & Hturns & Hmlen).
    { unfold session_at_start.
      destruct (sessions w !! turn_session_id request w) eqn:Hstart; cbn;
        [by eapply Hok | apply new_session_ok]. }
    unfold session_ok. rewrite Hused, Hcount. cbn [session_booked track_agent
      agents_used incr_message_count].
    split; [|split; [|split]].
    + case_bool_decide as Hin; [done|]. apply NoDup_app.
      split; [done|]. split; [|apply NoDup_singleton].
      intros x Hx ->%list_elem_of_singleton. done.
    + case_bool_decide; [lia|]. rewrite length_app. cbn. lia.
    + destruct Hmem as [[_ ->] | (resp & _ & _ & _ & ->)]; [done|].
      by constructor.
    + destruct Hmem as [[_ ->] | (resp & _ & _ & _ & ->)]; [lia|].
      rewrite length_app. cbn. lia.
  - intros sid sid' s Hs.
    destruct (clear_session_spec sid w) as (reply & w1 & Hrun & Hsessions & _).
    rewrite Hrun in Hs. cbn in Hs. rewrite Hsessions in Hs.
    apply lookup_delete_Some in Hs as [_ Hs]. by eapply Hok.
Qed.

(** X11.  [clear_session] never raises; it removes the session if there is
    one and says so.  A turn that then carries the same id starts over: the
    agent is given an empty history and the session ends with message count 1
    and the selected agent as its only used agent. *)
Theorem cleared_session_starts_over (sid : string) (request : ChatRequest)
    (w : ChatWorld) :
  sid ≠ EmptyString →
  session_id request = Some sid →
  ∃ reply w1,
    clear_session sid w = (Ok reply, w1) ∧
    status reply = match sessions w !! sid with
                   | Some _ => "success"
                   | None => "not_found"
                   end ∧
    sessions w1 = delete sid (sessions w) ∧
    ∀ o w2, send_message request w1 = (o, w2) →
      (∃ s, sessions w2 !! sid = Some s ∧
            message_count s = 1%Z ∧
            agents_used s = [turn_agent request w1]) ∧
      (∀ call, executor_calls w2 = executor_calls w1 ++ [call] → call.2 = []).
Proof.
  intros Hne Hid.
  destruct (clear_session_spec sid w) as (reply & w1 & Hclear & Hsessions & _ & Hstatus).
  exists reply, w1. split; [exact Hclear|]. split; [exact Hstatus|].
  split; [exact Hsessions|]. intros o w2 Hrun.
  assert (turn_session_id request w1 = sid) as Hsid.
  { unfold turn_session_id, truthy. rewrite Hid.
    by destruct (String.eqb_spec sid EmptyString). }
  assert (session_at_start request w1 = new_session (now_isoformat (clock_reads w1)))
    as Hstart.
  { unfold session_at_start. by rewrite Hsid, Hsessions, lookup_delete_eq. }
  split.
  - destruct (send_message_session _ _ _ _ Hrun)
      as (_ & s & Hs & Hcount & Hused & _).
    rewrite Hsid in Hs. exists s. split; [exact Hs|].
    rewrite Hcount, Hused. unfold session_booked. by rewrite Hstart.
  - intros call Hcall.
    destruct (send_message_run request w1) as (o0 & w0 & Hrun0 & _ & Hcases).
    rewrite Hrun in Hrun0. injection Hrun0 as <- <-.
    destruct Hcases as [(_ & _ & _ & Hx) | [(_ & e & _ & _ & _ & _ & Hx)
                                           | (_ & input & _ & Hx & _)]].
    + rewrite Hx in Hcall. by destruct (app_singleton_neq _ _ Hcall).
    + rewrite Hx in Hcall. by destruct (app_singleton_neq _ _ Hcall).
    + rewrite Hx in Hcall. apply app_inj_tail in Hcall as [_ <-].
      cbn. by rewrite Hstart.
Qed.

(** X12.  [get_agent] builds an agent at most once.  A failed call, for an
    unknown name or a constructor that raises, leaves the state as it was; a
    successful call leaves the agent in the cache, changes no other entry,
    and makes every later call for that name return at once. *)
Theorem get_agent_caches (agent_name : string) (w : ChatWorld) :
  ∃ o w1,
    get_agent agent_name w = (o, w1) ∧
    (∀ other, other ≠ agent_name →
              _agent_cache w1 !! other = _agent_cache w !! other) ∧
    match o with
    | Raise e =>
        w1 = w ∧
        (e = unknown_agent agent_name ∧ agent_name ∉ agents ∨
         construct_agent agent_name = Raise e ∧ agent_name ∈ agents ∧
         _agent_cache w !! agent_name = None)
    | Ok agent =>
        agent = agent_name ∧ agent_name ∈ agents ∧
        is_Some (_agent_cache w1 !! agent_name) ∧
        get_agent agent_name w1 = (Ok agent_name, w1)
    end.
Proof.
  unfold get_agent. destruct (decide (agent_name ∈ agents)) as [Hin|Hout].
  - rewrite bool_decide_eq_true_2 by done. cbn [negb].
    unfold bind at 1, get at 1.
    destruct (_agent_cache w !! agent_name) as [agent|] eqn:Hcache.
    + exists (Ok agent_name), w. split; [reflexivity|]. split; [done|].
      split; [done|]. split; [done|]. split; [by rewrite Hcache|].
      unfold bind, get. by rewrite Hcache.
    + unfold bind at 1, lift_outcome.
      destruct (construct_agent agent_name) as [agent|e] eqn:Hctor.
      * do 2 eexists. split; [reflexivity|]. cbn. split.
        -- intros other Hne. by rewrite lookup_insert_ne.
        -- split; [done|]. split; [done|].
           split; [by rewrite lookup_insert_eq|].
           unfold bind, get. cbn. by rewrite lookup_insert_eq.
      * exists (Raise e), w. split; [reflexivity|]. split; [done|].
        split; [done|]. by right.
  - rewrite bool_decide_eq_false_2 by done.
    exists (Raise (unknown_agent agent_name)), w. split; [reflexivity|].
    split; [done|]. split; [done|]. by left.
Qed.


(** Slices and lengths count code points, not bytes. *)
Example str_take_counts_code_points :
  str_take 2 "é€x" = "é€" ∧ str_len "é€x" = 3%nat ∧ String.length "é€x" = 6%nat.
Proof. repeat split; vm_compute; reflexivity. Qed.



(** X14.  The two ways a turn ends.  A failure is always the HTTP 500 error
    whose detail carries the cause.  A success names one of the six agents
    and the session of the turn, and its text is what the executor of that
    agent returned for this turn's call. *)
Theorem turn_ends_in_answer_or_500 (request : ChatRequest) (w w' : ChatWorld)
    (o : outcome ChatResponse) :
  send_message request w = (o, w') →
  match o with
  | Raise e =>
      ∃ cause, e = HTTPException 500
                     ("Failed to process message: " +:+ exn_str cause)
  | Ok resp =>
      agent_used resp = turn_agent request w ∧
      agent_used resp ∈ agents ∧
      response_session_id resp = turn_session_id request w ∧
      ∃ input chat_history,
        executor_calls w' =
          executor_calls w ++ [(agent_used resp, input, chat_history)] ∧
        agent_ainvoke (length (executor_calls w)) (agent_used resp) input
          chat_history = Ok (response resp)
  end.
Proof.
  intros Hrun.
  destruct (send_message_run request w) as (o0 & w0 & Hrun0 & _ & Hcases).
  rewrite Hrun in Hrun0. injection Hrun0 as <- <-.
  destruct Hcases as [(_ & -> & _) | [(_ & e & _ & _ & -> & _)
                                     | (Hin & input & _ & Hx & Hcall)]].
  - by eexists.
  - by eexists.
  - destruct (agent_ainvoke _ _ _ _) as [output|e] eqn:Hinvoke.
    + destruct Hcall as (resp & -> & Hresp & Hsid & Hagent & _).
      rewrite Hagent. split; [done|]. split; [done|]. split; [done|].
      do 2 eexists. split; [exact Hx|]. by rewrite Hinvoke, Hresp.
    + destruct Hcall as [-> _]. by eexists.
Qed.
End ChatMore.

(** A first turn and a clearing, from the empty session store. *)
Lemma sessions_stay_well_formed_fresh :
  Sessions.sessions_ok
    (@Chat.send_message Examples.answering_agents
       Examples.weather_request Examples.fresh_chat).2 ∧
  Sessions.sessions_ok (Sessions.clear_session "s1" Examples.fresh_chat).2.
Proof.
  assert (Sessions.sessions_ok Examples.fresh_chat) as Hok.
  { intros sid s Hs. cbn in Hs. by rewrite lookup_empty in Hs. }
  destruct (@sessions_stay_well_formed Examples.answering_agents
              Examples.fresh_chat Hok) as [Hsend Hclear].
  split; [apply Hsend | apply Hclear].
Defined.

(** Session [s1] is cleared; the next turn on [s1] counts as its first. *)
Lemma cleared_s1_starts_over :
  ∃ reply w1,
    Sessions.clear_session "s1" Examples.one_session = (Ok reply, w1) ∧
    status reply = "success" ∧
    ∃ s, sessions (@Chat.send_message Examples.answering_agents
                     Examples.knee_request w1).2 !! "s1" = Some s ∧
         message_count s = 1%Z.
Proof.
  destruct (@cleared_session_starts_over Examples.answering_agents
              "s1" Examples.knee_request Examples.one_session)
    as (reply & w1 & Hclear & Hstatus & _ & Hturn); [done|done|].
  exists reply, w1. split; [exact Hclear|]. split; [exact Hstatus|].
  destruct (Hturn _ _ (surjective_pairing _)) as [(s & Hs & Hcount & _) _].
  by exists s.
Defined.


(** The weather turn succeeds and names the general agent. *)
Lemma weather_turn_answers :
  ∃ resp w',
    @Chat.send_message Examples.answering_agents
      Examples.weather_request Examples.fresh_chat = (Ok resp, w') ∧
    agent_used resp ∈ Chat.agents ∧
    response_session_id resp = "session-0".
Proof.
  destruct (@Chat.send_message Examples.answering_agents
              Examples.weather_request Examples.fresh_chat)
    as [[resp|e] w'] eqn:Hrun; [|vm_compute in Hrun; discriminate].
  destruct (@turn_ends_in_answer_or_500 Examples.answering_agents _ _ _ _ Hrun)
    as (_ & Hagent & Hsid & _).
  exists resp, w'. split; [reflexivity|]. split; [exact Hagent|exact Hsid].
Defined.

(** ** The RAG endpoints *)

Section RagEndpoints.
Context {rag_env : RagEnv}.
Import Rag.

Ltac step_ok := erewrite bind_ok by reflexivity; cbv beta.
Ltac step_raise := erewrite bind_raise by reflexivity; cbv beta.

Lemma in_vectors_run {A} (m : M VectorWorld A) w o v' :
  m (rag_vectors w) = (o, v') → in_vectors m w = (o, set_vectors v' w).
Proof. unfold in_vectors, zoom. by intros ->. Qed.

Lemma in_loader_run {A} (m : M LoaderWorld A) w o l' :
  m (rag_loader w) = (o, l') → in_loader m w = (o, set_loader l' w).
Proof. unfold in_loader, zoom. by intros ->. Qed.

Lemma add_documents_count agent docs v n v' :
  VectorStore.add_documents agent docs v = (Ok n, v') →
  n = Z.of_nat (length docs).
Proof.
  intros Hrun.
  destruct (add_documents_spec agent docs v) as (o & v0 & Hrun0 & _ & Hcase).
  rewrite Hrun in Hrun0. injection Hrun0 as <- <-.
  destruct docs as [|d docs]; [by destruct Hcase as [[= ->] _]|].
  destruct (vector_stores v !! agent) as [[store|]|].
  - destruct Hcase as [_ Ho]. destruct (store_add_documents _ _).2; congruence.
  - by destruct Hcase as [[=] _].
  - destruct (from_documents _); destruct Hcase as [Ho _]; congruence.
Qed.

Lemma remove_document_spec agent filename v :
  ∃ v', VectorStoreService.remove_document agent filename v = (Ok tt, v') ∧
        vector_stores v' = vector_stores v.
Proof.
  unfold VectorStoreService.remove_document,
    VectorStoreService._rebuild_store_without_file, try_except, bind, get,
    VectorStoreService.logger, modify, ret.
  destruct (vector_stores v !! agent); cbn; eexists; (split; [reflexivity|done]).
Qed.

(** X15.  [upload_document] never answers with status 400: the two
    validation errors it raises are caught by its own handler and leave as
    HTTP 500, like every other failure, and nothing is indexed.  A successful
    upload reports as [chunks_created] the number of chunks the loader made of
    the saved file. *)
Theorem upload_failures_are_status_500 (filename agent : string) (w : RagWorld) :
  ∃ o w',
    upload_document filename agent w = (o, w') ∧
    (∀ e, o = Raise e →
          ∃ cause, e = HTTPException 500
                         ("Failed to process document: " +:+ str_of cause)) ∧
    (agent ∉ valid_agents →
     o = Raise (HTTPException 500
                  ("Failed to process document: " +:+ str_of invalid_agent)) ∧
     rag_vectors w' = rag_vectors w) ∧
    (agent ∈ valid_agents →
     lower (DocumentLoader.path_suffix filename) ∉ allowed_extensions →
     o = Raise (HTTPException 500
                  ("Failed to process document: " +:+ str_of unsupported_upload)) ∧
     rag_vectors w' = rag_vectors w) ∧
    (∀ resp, o = Ok resp →
       upload_agent resp = agent ∧
       ∃ docs,
         (DocumentLoader.load_single_document (upload_path agent filename)
            (rag_loader w)).1 = Ok docs ∧
         chunks_created resp = Z.of_nat (length docs)).
Proof.
  unfold upload_document, try_except.
  destruct (decide (agent ∈ valid_agents)) as [Hagent|Hagent].
  2:{ rewrite bool_decide_eq_false_2 by done. cbn [negb].
      do 2 eexists. split; [reflexivity|].
      split; [intros e [= <-]; by exists invalid_agent|]. split; [done|].
      split; [done|discriminate]. }
  rewrite bool_decide_eq_true_2 by done. cbn [negb].
  destruct (decide (lower (DocumentLoader.path_suffix filename) ∈ allowed_extensions))
    as [Hext|Hext].
  2:{ rewrite bool_decide_eq_false_2 by done. cbn [negb].
      do 2 eexists. split; [reflexivity|].
      split; [intros e [= <-]; by exists unsupported_upload|]. split; [done|].
      split; [done|discriminate]. }
  rewrite bool_decide_eq_true_2 by done. cbn [negb].
  destruct (write_upload (upload_path agent filename)) as [msg|] eqn:Hwrite.
  { step_raise. do 2 eexists. split; [reflexivity|].
    split; [intros e [= <-]; by exists (ExternalError msg)|]. split; [done|].
    split; [done|discriminate]. }
  step_ok. step_ok.
  destruct (DocumentLoader.load_single_document (upload_path agent filename)
              (rag_loader w)) as [[docs|e] l'] eqn:Hload.
  2:{ erewrite bind_raise by (apply in_loader_run; cbn; exact Hload).
      do 2 eexists. split; [reflexivity|].
      split; [intros e' [= <-]; by exists e|]. split; [done|].
      split; [done|discriminate]. }
  erewrite bind_ok by (apply in_loader_run; cbn; exact Hload). cbv beta.
  match goal with
  | |- context [bind (in_vectors (VectorStore.add_documents agent docs)) _ ?w1] =>
      destruct (VectorStore.add_documents agent docs (rag_vectors w1))
        as [[n|e] v'] eqn:Hadd
  end.
  2:{ erewrite bind_raise by (apply in_vectors_run; exact Hadd).
      do 2 eexists. split; [reflexivity|].
      split; [intros e' [= <-]; by exists e|]. split; [done|].
      split; [done|discriminate]. }
  erewrite bind_ok by (apply in_vectors_run; exact Hadd). cbv beta.
  do 2 eexists. split; [reflexivity|]. cbn.
  split; [discriminate|]. split; [done|]. split; [done|].
  intros resp [= <-]. cbn. split; [done|]. exists docs. split; [done|].
  by eapply add_documents_count.
Qed.

Lemma retrieve_documents_eq request w :
  ∃ w',
    retrieve_documents request w =
      (Ok {| response_query := retrieval_query request;
             response_agent := retrieval_agent request;
             documents :=
               map (λ r, {| retrieved_content := page_content r.1;
                            retrieved_metadata := metadata r.1;
                            relevance_score := r.2 |})
                 (filter (λ r, score_ge r.2 (similarity_threshold request) = true)
                    (VectorStoreService.store_results (rag_vectors w)
                       (retrieval_agent request) (retrieval_query request)
                       (top_k request)));
             total_results :=
               Z.of_nat (length
                 (filter (λ r, score_ge r.2 (similarity_threshold request) = true)
                    (VectorStoreService.store_results (rag_vectors w)
                       (retrieval_agent request) (retrieval_query request)
                       (top_k request)))) |}, w') ∧
    vector_stores (rag_vectors w') = vector_stores (rag_vectors w).
Proof.
  unfold retrieve_documents, try_except. step_ok.
  destruct (search_eq (retrieval_agent request) (retrieval_query request)
              (top_k request) (similarity_threshold request) (rag_vectors w))
    as [log' Hsearch].
  erewrite bind_ok by (apply in_vectors_run; cbn; exact Hsearch). cbv beta.
  step_ok. step_ok. rewrite length_map.
  eexists. split; [reflexivity|]. reflexivity.
Qed.


(** X17.  [delete_document] never changes the agent's index, whether it
    succeeds or fails: a retrieval afterwards returns what it returned before,
    chunks of the deleted file included.  A file that does not exist is
    reported with status 500, not 404. *)
Theorem delete_document_keeps_index (agent filename : string) (w : RagWorld) :
  ∃ o w',
    delete_document agent filename w = (o, w') ∧
    vector_stores (rag_vectors w') = vector_stores (rag_vectors w) ∧
    (∀ request, (retrieve_documents request w').1 = (retrieve_documents request w).1) ∧
    (path_exists (dataset_file agent filename) = Returns false →
     o = Raise (HTTPException 500
                  ("Failed to delete document: "
                   +:+ http_exception_str 404 "Document not found"))) ∧
    (∀ reply, o = Ok reply →
              path_exists (dataset_file agent filename) = Returns true ∧
              unlink_file (dataset_file agent filename) = None).
Proof.
  assert (∃ o w', delete_document agent filename w = (o, w') ∧
            vector_stores (rag_vectors w') = vector_stores (rag_vectors w) ∧
            (path_exists (dataset_file agent filename) = Returns false →
             o = Raise (HTTPException 500
                          ("Failed to delete document: "
                           +:+ http_exception_str 404 "Document not found"))) ∧
            (∀ reply, o = Ok reply →
                      path_exists (dataset_file agent filename) = Returns true ∧
                      unlink_file (dataset_file agent filename) = None))
    as (o & w' & Hrun & Hstores & H404 & Hok).
  { unfold delete_document, try_except.
    destruct (path_exists (dataset_file agent filename)) as [[]|msg0].
    3:{ step_raise. do 2 eexists. split; [reflexivity|]. cbn. split; [done|].
        split; discriminate. }
    all: step_ok; cbn [negb].
    - destruct (remove_document_spec agent filename (rag_vectors w))
        as (v' & Hremove & Hv).
      erewrite bind_ok by (apply in_vectors_run; exact Hremove). cbv beta.
      destruct (unlink_file (dataset_file agent filename)) as [msg|].
      + step_raise. do 2 eexists. split; [reflexivity|]. cbn.
        split; [exact Hv|]. split; discriminate.
      + step_ok. step_ok. do 2 eexists. split; [reflexivity|]. cbn.
        split; [exact Hv|]. split; [discriminate|]. done.
    - do 2 eexists. split; [reflexivity|]. cbn. split; [done|].
      split; [done|discriminate]. }
  exists o, w'. split; [exact Hrun|]. split; [exact Hstores|].
  split; [|by split]. intros request.
  destruct (retrieve_documents_eq request w') as (w1 & -> & _).
  destruct (retrieve_documents_eq request w) as (w2 & -> & _).
  cbn. unfold VectorStoreService.store_results. by rewrite Hstores.
Qed.

Lemma reindex_files_skip agent counts skipped entries w :
  Forall (λ p, path_is_file p = Returns false) skipped →
  reindex_files agent counts (skipped ++ entries) w
    = reindex_files agent counts entries w.
Proof.
  induction 1 as [|p skipped Hp _ IH]; [done|].
  cbn [app reindex_files]. rewrite Hp. by step_ok.
Qed.

(** X18.  Reindexing is not all or nothing.  The old store is cleared
    first, so when the first file of the directory fails to load the endpoint
    fails with status 500 and the agent is left without any store. *)
Theorem failed_reindex_leaves_no_index (agent : string) (w : RagWorld)
    (skipped rest : list string) (f : string) (e : exn) :
  path_exists (dataset_dir agent) = Returns true →
  iterdir (dataset_dir agent) = Returns (skipped ++ f :: rest) →
  Forall (λ p, path_is_file p = Returns false) skipped →
  path_is_file f = Returns true →
  (DocumentLoader.load_single_document f (rag_loader w)).1 = Raise e →
  ∃ w',
    reindex_agent_documents agent w
      = (Raise (HTTPException 500 ("Failed to reindex documents: " +:+ str_of e)),
         w') ∧
    vector_stores (rag_vectors w') !! agent = None.
Proof.
  intros Hdir Hiter Hskipped Hfile Hload.
  unfold reindex_agent_documents, try_except. rewrite Hdir. step_ok.
  cbn [negb].
  destruct (clear_store_spec agent (rag_vectors w)) as (v1 & Hclear & Hstores & _).
  erewrite bind_ok by (apply in_vectors_run; exact Hclear). cbv beta.
  rewrite Hiter. step_ok.
  destruct (DocumentLoader.load_single_document f (rag_loader w))
    as [o l'] eqn:Hrun. cbn in Hload. subst o.
  erewrite (bind_raise (reindex_files _ _ _)).
  2:{ rewrite reindex_files_skip by done. cbn [reindex_files]. rewrite Hfile.
      step_ok. cbv iota. erewrite bind_raise; [reflexivity|].
      apply in_loader_run. exact Hrun. }
  eexists. split; [reflexivity|]. cbn. rewrite Hstores.
  apply lookup_delete_eq.
Qed.

Lemma reindex_files_counts agent entries counts w counts' w' :
  reindex_files agent counts entries w = (Ok counts', w') →
  counts'.2 = (counts.2 +
    Z.of_nat (length (filter (λ p, path_is_file p = Returns true) entries)))%Z ∧
  counts'.1 = (counts.1 +
    Z.of_nat (length (concat (map DocumentLoader.chunks_of
                (filter (λ p, path_is_file p = Returns true) entries)))))%Z.
Proof.
  revert counts w. induction entries as [|p entries IH]; intros counts w Hrun.
  - injection Hrun as <- _. cbn. lia.
  - cbn [reindex_files] in Hrun. rewrite filter_cons.
    destruct (path_is_file p) as [[]|msg] eqn:Hp.
    3:{ erewrite bind_raise in Hrun by reflexivity. discriminate. }
    all: erewrite bind_ok in Hrun by reflexivity; cbv beta iota in Hrun.
    + rewrite decide_True by done. cbn [map concat].
      destruct (load_single_document_log p (rag_loader w)) as [extra Hload].
      unfold DocumentLoader.chunks_of at 1.
      destruct (DocumentLoader.load_single_document p {| loader_log := [] |}).1
        as [docs|e].
      * erewrite bind_ok in Hrun by (apply in_loader_run; exact Hload).
        cbv beta in Hrun.
        match type of Hrun with
        | context [bind (in_vectors (VectorStore.add_documents agent docs)) _ ?w1] =>
            destruct (VectorStore.add_documents agent docs (rag_vectors w1))
              as [[n|e] v'] eqn:Hadd
        end.
        -- erewrite bind_ok in Hrun by (apply in_vectors_run; exact Hadd).
           cbv beta in Hrun. apply IH in Hrun as [Hfiles Hchunks].
           apply add_documents_count in Hadd as ->. cbn [fst snd] in *.
           rewrite length_app. cbn [length]. lia.
        -- erewrite bind_raise in Hrun by (apply in_vectors_run; exact Hadd).
           discriminate.
      * erewrite bind_raise in Hrun by (apply in_loader_run; exact Hload).
        discriminate.
    + rewrite decide_False by discriminate. by apply IH in Hrun.
Qed.

(** X19.  A reindex that succeeds has loaded every file of the directory:
    [files_processed] is the number of files and [total_chunks] the number of
    chunks the loader makes of them. *)
Theorem reindex_counts_files_and_chunks (agent : string) (w w' : RagWorld)
    (reply : ReindexReply) (entries : list string) :
  reindex_agent_documents agent w = (Ok reply, w') →
  iterdir (dataset_dir agent) = Returns entries →
  reindex_status reply = "success" ∧
  files_processed reply =
    Z.of_nat (length (filter (λ p, path_is_file p = Returns true) entries)) ∧
  total_chunks reply =
    Z.of_nat (length (concat (map DocumentLoader.chunks_of
                (filter (λ p, path_is_file p = Returns true) entries)))).
Proof.
  intros Hrun Hiter. unfold reindex_agent_documents, try_except in Hrun.
  destruct (path_exists (dataset_dir agent)) as [[]|msg];
    [ erewrite bind_ok in Hrun by reflexivity; cbv beta in Hrun;
      cbn [negb] in Hrun
    | erewrite bind_ok in Hrun by reflexivity; discriminate
    | erewrite bind_raise in Hrun by reflexivity; discriminate ].
  destruct (clear_store_spec agent (rag_vectors w)) as (v1 & Hclear & _).
  erewrite bind_ok in Hrun by (apply in_vectors_run; exact Hclear).
  cbv beta in Hrun. rewrite Hiter in Hrun.
  erewrite bind_ok in Hrun by reflexivity. cbv beta in Hrun.
  match type of Hrun with
  | context [bind (reindex_files agent ?c entries) _ ?w1] =>
      destruct (reindex_files agent c entries w1) as [[counts|e] w2] eqn:Hloop
  end.
  - erewrite bind_ok in Hrun by exact Hloop. cbv beta in Hrun.
    erewrite bind_ok in Hrun by reflexivity. cbv beta in Hrun.
    injection Hrun as <- _. cbn.
    apply reindex_files_counts in Hloop as [Hfiles Hchunks]. cbn in *.
    split; [done|]. split; lia.
  - erewrite bind_raise in Hrun by exact Hloop. discriminate.
Qed.
End RagEndpoints.

(** Reindexing a folder whose first file is an unreadable PDF: the request
    fails and the store the agent had is gone. *)
Lemma failed_reindex_drops_real_estate :
  is_Some (vector_stores (rag_vectors ExtraExamples.rag_start) !! "real_estate") ∧
  ∃ w',
    @Rag.reindex_agent_documents
       (ExtraExamples.dataset_over ["docs/sub"; "docs/b.pdf"; "docs/a.txt"])
       "real_estate" ExtraExamples.rag_start
      = (Raise (HTTPException 500
                  "Failed to reindex documents: cannot parse pdf"), w') ∧
    vector_stores (rag_vectors w') !! "real_estate" = None.
Proof.
  split; [by eexists|].
  apply (@failed_reindex_leaves_no_index
           (ExtraExamples.dataset_over ["docs/sub"; "docs/b.pdf"; "docs/a.txt"])
           "real_estate" ExtraExamples.rag_start
           ["docs/sub"] ["docs/a.txt"] "docs/b.pdf"
           (ExternalError "cannot parse pdf")).
  - reflexivity.
  - reflexivity.
  - repeat constructor.
  - reflexivity.
  - vm_compute. reflexivity.
Defined.

(** Reindexing a folder of a text file, a sub-directory and a Markdown
    file: two files, two chunks. *)
Lemma reindex_two_files :
  ∃ reply,
    (@Rag.reindex_agent_documents
       (ExtraExamples.dataset_over ["docs/a.txt"; "docs/sub"; "docs/c.md"])
       "real_estate" ExtraExamples.rag_start).1 = Ok reply ∧
    reindex_status reply = "success" ∧
    files_processed reply = 2%Z ∧ total_chunks reply = 2%Z.
Proof.
  destruct (@Rag.reindex_agent_documents
              (ExtraExamples.dataset_over ["docs/a.txt"; "docs/sub"; "docs/c.md"])
              "real_estate" ExtraExamples.rag_start) as [o w'] eqn:Hrun.
  assert (∃ reply, o = Ok reply) as [reply ->].
  { vm_compute in Hrun. injection Hrun as <- _. by eexists. }
  exists reply. split; [reflexivity|].
  exact (@reindex_counts_files_and_chunks
           (ExtraExamples.dataset_over ["docs/a.txt"; "docs/sub"; "docs/c.md"])
           "real_estate" ExtraExamples.rag_start w' reply
           ["docs/a.txt"; "docs/sub"; "docs/c.md"] Hrun eq_refl).
Defined.

(** ** Startup *)

Section Startup.
Context {main_env : MainEnv}.
Import Main.

Ltac step_ok := erewrite bind_ok by reflexivity; cbv beta.
Ltac step_raise := erewrite bind_raise by reflexivity; cbv beta.

Lemma main_in_vectors_run {A} (m : M VectorWorld A) w o v' :
  m (main_vectors w) = (o, v') → in_vectors m w = (o, set_vectors v' w).
Proof. unfold in_vectors, zoom. by intros ->. Qed.

Lemma main_in_loader_run {A} (m : M LoaderWorld A) w o l' :
  m (main_loader w) = (o, l') → in_loader m w = (o, set_loader l' w).
Proof. unfold in_loader, zoom. by intros ->. Qed.

(** One entry of [dataset]: by what [is_dir] says of it and what
    [load_documents] makes of it. *)
Lemma load_agent_folder_spec agent_folder w :
  ∃ o w1,
    load_agent_folder agent_folder w = (o, w1) ∧
    match path_is_dir agent_folder with
    | Fails msg => o = Raise (ExternalError msg)
    | Returns false => o = Ok tt ∧ w1 = w
    | Returns true =>
        match (DocumentLoader.load_documents agent_folder
                 {| loader_log := [] |}).1 with
        | Raise e => o = Raise e
        | Ok [] =>
            o = Ok tt ∧
            vector_stores (main_vectors w1) = vector_stores (main_vectors w)
        | Ok documents =>
            match from_documents documents with
            | Returns store =>
                o = Ok tt ∧
                vector_stores (main_vectors w1) =
                  <[DocumentLoader.path_name agent_folder := Some store]>
                    (vector_stores (main_vectors w))
            | Fails msg => o = Raise (ExternalError msg)
            end
        end
    end.
Proof.
  unfold load_agent_folder. destruct (path_is_dir agent_folder) as [[]|msg].
  2:{ step_ok. exists (Ok tt), w. done. }
  2:{ step_raise. do 2 eexists. done. }
  step_ok. cbv iota zeta. step_ok.
  match goal with
  | |- context [bind (in_loader _) _ ?w0] =>
      destruct (DocumentLoader.load_documents agent_folder (main_loader w0))
        as [o l'] eqn:Hload;
      pose proof (load_documents_log agent_folder (main_loader w0)) as Hlog
  end.
  rewrite Hload in Hlog. cbn [fst] in Hlog. rewrite <- Hlog.
  destruct o as [[|d documents]|e].
  - erewrite bind_ok by (apply main_in_loader_run; exact Hload). cbv beta.
    do 2 eexists. done.
  - erewrite bind_ok by (apply main_in_loader_run; exact Hload). cbv beta iota.
    match goal with
    | |- context [bind (in_vectors _) _ ?w1] =>
        pose proof (create_vector_store_spec
                      (DocumentLoader.path_name agent_folder) (d :: documents)
                      (main_vectors w1) ltac:(done)) as Hcreate
    end.
    destruct (from_documents (d :: documents)) as [store|msg] eqn:Hfrom;
      destruct Hcreate as (v' & Hrun & Hstores).
    + erewrite bind_ok by (apply main_in_vectors_run; exact Hrun). cbv beta.
      do 2 eexists. split; [reflexivity|]. split; [done|]. cbn.
      by rewrite Hstores.
    + erewrite bind_raise by (apply main_in_vectors_run; exact Hrun).
      do 2 eexists. done.
  - erewrite bind_raise by (apply main_in_loader_run; exact Hload).
    do 2 eexists. done.
Qed.

(** The loop stops at the first entry that fails, with one of these
    causes. *)
Lemma load_agent_folders_raise entries w e w' :
  load_agent_folders entries w = (Raise e, w') →
  ∃ msg folder,
    e = ExternalError msg ∧ folder ∈ entries ∧
    (path_is_dir folder = Fails msg ∨
     path_is_dir folder = Returns true ∧
     ((DocumentLoader.load_documents folder {| loader_log := [] |}).1
        = Raise (ExternalError msg) ∨
      folder_documents folder ≠ [] ∧
      from_documents (folder_documents folder) = Fails msg)).
Proof.
  revert w. induction entries as [|folder rest IH]; intros w Hrun; [done|].
  cbn [load_agent_folders] in Hrun.
  destruct (load_agent_folder_spec folder w) as (o & w1 & Hstep & Hcase).
  destruct o as [[]|e1].
  - erewrite bind_ok in Hrun by exact Hstep.
    apply IH in Hrun as (msg & f & -> & Hin & Hcause).
    exists msg, f. split; [done|]. split; [by apply list_elem_of_further|done].
  - erewrite bind_raise in Hrun by exact Hstep. injection Hrun as <- _.
    unfold folder_documents.
    destruct (path_is_dir folder) as [[]|msg] eqn:Hdir; [|by destruct Hcase|].
    + destruct (DocumentLoader.load_documents folder {| loader_log := [] |}).1
        as [[|d documents]|e] eqn:Hload.
      * by destruct Hcase.
      * destruct (from_documents (d :: documents)) as [store|msg] eqn:Hfrom;
          [by destruct Hcase|].
        injection Hcase as ->. exists msg, folder. split; [done|].
        split; [apply list_elem_of_here|]. right. split; [done|]. right.
        rewrite Hload. by split.
      * injection Hcase as ->.
        destruct (load_documents_raise_cause _ _ _ Hload) as (msg & -> & _).
        exists msg, folder. split; [done|].
        split; [apply list_elem_of_here|]. right. split; [done|]. by left.
    + injection Hcase as ->. exists msg, folder. split; [done|].
      split; [apply list_elem_of_here|]. by left.
Qed.

Lemma load_agent_folders_stores entries w w' :
  load_agent_folders entries w = (Ok tt, w') →
  ∀ agent,
    (∃ folder store,
       folder ∈ entries ∧ path_is_dir folder = Returns true ∧
       DocumentLoader.path_name folder = agent ∧
       folder_documents folder ≠ [] ∧
       from_documents (folder_documents folder) = Returns store ∧
       vector_stores (main_vectors w') !! agent = Some (Some store)) ∨
    ((∀ folder, folder ∈ entries → path_is_dir folder = Returns true →
                folder_documents folder ≠ [] →
                DocumentLoader.path_name folder ≠ agent) ∧
     vector_stores (main_vectors w') !! agent
       = vector_stores (main_vectors w) !! agent).
Proof.
  revert w. induction entries as [|folder rest IH]; intros w Hrun agent.
  - injection Hrun as <-. right. split; [|done].
    intros folder Hin. by apply elem_of_nil in Hin.
  - cbn [load_agent_folders] in Hrun.
    destruct (load_agent_folder_spec folder w) as (o & w1 & Hstep & Hcase).
    destruct o as [[]|e1].
    2:{ erewrite bind_raise in Hrun by exact Hstep. discriminate. }
    erewrite bind_ok in Hrun by exact Hstep.
    destruct (IH w1 Hrun agent)
      as [(f & store & Hin & Hdir & Hname & Hdocs & Hfrom & Hentry)
         |[Hnone Hentry]].
    { left. exists f, store. split; [by apply list_elem_of_further|done]. }
    assert (Hskip :
      (path_is_dir folder = Returns true → folder_documents folder = []) →
      vector_stores (main_vectors w1) = vector_stores (main_vectors w) →
      (∀ f, f ∈ folder :: rest → path_is_dir f = Returns true →
            folder_documents f ≠ [] → DocumentLoader.path_name f ≠ agent) ∧
      vector_stores (main_vectors w') !! agent
        = vector_stores (main_vectors w) !! agent).
    { intros Hempty Hsame. split; [|by rewrite Hentry, Hsame].
      intros f [->|Hin]%elem_of_cons Hdir Hdocs; [|by apply Hnone].
      by destruct (Hdocs (Hempty Hdir)). }
    unfold folder_documents in *.
    destruct (path_is_dir folder) as [[]|msg] eqn:Hdir; [| |done].
    2:{ right. destruct Hcase as [_ ->]. by apply Hskip. }
    destruct (DocumentLoader.load_documents folder {| loader_log := [] |}).1
      as [[|d documents]|e] eqn:Hload; [| |done].
    { right. destruct Hcase as [_ Hsame]. by apply Hskip. }
    destruct (from_documents (d :: documents)) as [store|msg] eqn:Hfrom; [|done].
    destruct Hcase as [_ Hstores].
    destruct (decide (DocumentLoader.path_name folder = agent)) as [Hname|Hname].
    + left. exists folder, store. split; [apply list_elem_of_here|].
      rewrite Hdir, Hload. split; [done|]. split; [done|]. split; [done|].
      split; [done|]. by rewrite Hentry, Hstores, <- Hname, lookup_insert_eq.
    + right. split.
      * intros f [->|Hin]%elem_of_cons; [done|by apply Hnone].
      * by rewrite Hentry, Hstores, lookup_insert_ne.
Qed.

(** [VectorStoreService()] *)
Lemma VectorStoreService_init_spec v :
  ∃ o v',
    VectorStoreService_init v = (o, v') ∧
    match o with
    | Raise e =>
        ∃ msg, e = ExternalError msg ∧
          (OpenAIEmbeddings = Some msg ∨ mkdir_vector_store_path = Some msg)
    | Ok _ =>
        ∀ agent, vector_stores v' !! agent = persisted (disk v) agent
    end.
Proof.
  unfold VectorStoreService_init, construct.
  destruct OpenAIEmbeddings as [msg|].
  { step_raise. do 2 eexists. split; [reflexivity|]. exists msg. by split; [|left]. }
  step_ok. step_ok.
  destruct mkdir_vector_store_path as [msg|].
  { step_raise. do 2 eexists. split; [reflexivity|]. exists msg. by split; [|right]. }
  step_ok. unfold VectorStore._load_existing_stores. step_ok.
  match goal with
  | |- context [VectorStore.load_each ?files ?v0] =>
      destruct (load_each_spec files v0) as (v' & -> & _ & Hstores)
  end.
  do 2 eexists. split; [reflexivity|]. intros agent.
  rewrite Hstores. unfold persisted. cbn [disk vector_stores VectorStore.set_stores].
  destruct (decide _); [done|apply lookup_empty].
Qed.

(** X20.  What can stop the startup.  [startup_event] passes on the error
    it catches, and that error comes from a constructor of a service, from
    the existence test or the listing of [dataset], or from one of the
    entries of [dataset]: its [is_dir] test, loading the folder (which fails
    only for the file system), or building the index of the folder's
    documents.  Files that cannot be parsed, persisted stores that cannot be
    read and indexes that cannot be saved never stop it. *)
Theorem startup_fails_only_on (w w' : MainWorld) (e : exn) :
  startup_event w = (Raise e, w') →
  ∃ msg, e = ExternalError msg ∧
    (RecursiveCharacterTextSplitter = Some msg ∨
     OpenAIEmbeddings = Some msg ∨
     mkdir_vector_store_path = Some msg ∨
     path_exists "dataset" = Fails msg ∨
     iterdir "dataset" = Fails msg ∨
     ∃ entries folder,
       iterdir "dataset" = Returns entries ∧ folder ∈ entries ∧
       (path_is_dir folder = Fails msg ∨
        path_is_dir folder = Returns true ∧
        ((DocumentLoader.load_documents folder {| loader_log := [] |}).1
           = Raise (ExternalError msg) ∨
         folder_documents folder ≠ [] ∧
         from_documents (folder_documents folder) = Fails msg))).
Proof.
  unfold startup_event, try_except. intros Hrun.
  match type of Hrun with
  | context [match ?body w with _ => _ end] =>
      destruct (body w) as [[[]|e0] w0] eqn:Hbody; [discriminate|]
  end.
  erewrite bind_ok in Hrun by reflexivity. injection Hrun as <- _.
  erewrite bind_ok in Hbody by reflexivity. cbv beta in Hbody.
  unfold DocumentLoader_init, construct in Hbody.
  destruct RecursiveCharacterTextSplitter as [msg|].
  { erewrite bind_raise in Hbody by reflexivity. injection Hbody as <- _.
    exists msg. split; [done|]. by left. }
  erewrite bind_ok in Hbody by reflexivity. cbv beta in Hbody.
  match type of Hbody with
  | context [bind (in_vectors _) _ ?w1] =>
      destruct (VectorStoreService_init_spec (main_vectors w1))
        as ([[]|e1] & v' & Hinit & Hcase)
  end.
  2:{ erewrite bind_raise in Hbody by (apply main_in_vectors_run; exact Hinit).
      injection Hbody as <- _. destruct Hcase as (msg & -> & [?|?]);
        exists msg; split; [done|tauto|done|tauto]. }
  erewrite bind_ok in Hbody by (apply main_in_vectors_run; exact Hinit).
  cbv beta in Hbody.
  destruct (path_exists "dataset") as [[]|msg].
  2:{ erewrite bind_ok in Hbody by reflexivity. cbv beta iota in Hbody.
      erewrite bind_ok in Hbody by reflexivity. discriminate. }
  2:{ erewrite bind_raise in Hbody by reflexivity. injection Hbody as <- _.
      exists msg. split; [done|]. tauto. }
  erewrite bind_ok in Hbody by reflexivity. cbv beta iota in Hbody.
  destruct (iterdir "dataset") as [entries|msg] eqn:Hiter.
  2:{ erewrite bind_raise in Hbody by (erewrite bind_raise; reflexivity).
      injection Hbody as <- _. exists msg. split; [done|]. tauto. }
  match type of Hbody with
  | context [bind (bind (call _) _) _ ?w2] =>
      destruct (load_agent_folders entries w2) as [[[]|e2] w3] eqn:Hloop
  end.
  - erewrite bind_ok in Hbody by (erewrite bind_ok by reflexivity; exact Hloop).
    discriminate.
  - erewrite bind_raise in Hbody by (erewrite bind_ok by reflexivity; exact Hloop).
    injection Hbody as <- _.
    apply load_agent_folders_raise in Hloop as (msg & folder & -> & Hin & Hcause).
    exists msg. split; [done|]. do 5 right. by exists entries, folder.
Qed.

(** X21.  What a startup that succeeds leaves in memory.  An agent named by
    a folder of [dataset] that holds at least one loadable chunk has the
    index built from such a folder's documents, in place of any persisted
    one; every other agent has what the store folder held for it. *)
Theorem startup_indexes_dataset (w w' : MainWorld) (entries : list string) :
  startup_event w = (Ok tt, w') →
  path_exists "dataset" = Returns true →
  iterdir "dataset" = Returns entries →
  ∀ agent,
    (∃ folder store,
       folder ∈ entries ∧ path_is_dir folder = Returns true ∧
       DocumentLoader.path_name folder = agent ∧
       folder_documents folder ≠ [] ∧
       from_documents (folder_documents folder) = Returns store ∧
       vector_stores (main_vectors w') !! agent = Some (Some store)) ∨
    ((∀ folder, folder ∈ entries → path_is_dir folder = Returns true →
                folder_documents folder ≠ [] →
                DocumentLoader.path_name folder ≠ agent) ∧
     vector_stores (main_vectors w') !! agent
       = persisted (disk (main_vectors w)) agent).
Proof.
  unfold startup_event, try_except. intros Hrun Hexists Hiter agent.
  match type of Hrun with
  | context [match ?body w with _ => _ end] =>
      destruct (body w) as [[[]|e0] w0] eqn:Hbody
  end.
  2:{ erewrite bind_ok in Hrun by reflexivity. discriminate. }
  injection Hrun as <-.
  erewrite bind_ok in Hbody by reflexivity. cbv beta in Hbody.
  unfold DocumentLoader_init, construct in Hbody.
  destruct RecursiveCharacterTextSplitter as [msg|].
  { erewrite bind_raise in Hbody by reflexivity. discriminate. }
  erewrite bind_ok in Hbody by reflexivity. cbv beta in Hbody.
  match type of Hbody with
  | context [bind (in_vectors _) _ ?w1] =>
      destruct (VectorStoreService_init_spec (main_vectors w1))
        as ([[]|e1] & v' & Hinit & Hcase)
  end.
  2:{ erewrite bind_raise in Hbody by (apply main_in_vectors_run; exact Hinit).
      discriminate. }
  erewrite bind_ok in Hbody by (apply main_in_vectors_run; exact Hinit).
  cbv beta in Hbody. rewrite Hexists in Hbody.
  erewrite bind_ok in Hbody by reflexivity. cbv beta iota in Hbody.
  rewrite Hiter in Hbody.
  match type of Hbody with
  | context [bind (bind (call _) _) _ ?w2] =>
      destruct (load_agent_folders entries w2) as [[[]|e2] w3] eqn:Hloop
  end.
  2:{ erewrite bind_raise in Hbody
        by (erewrite bind_ok by reflexivity; exact Hloop).
      discriminate. }
  erewrite bind_ok in Hbody by (erewrite bind_ok by reflexivity; exact Hloop).
  cbv beta in Hbody. injection Hbody as <-.
  destruct (load_agent_folders_stores _ _ _ Hloop agent)
    as [(f & store & Hin & Hdir & Hname & Hdocs & Hfrom & Hentry)
       |[Hnone Hentry]].
  - left. by exists f, store.
  - right. split; [exact Hnone|]. cbn in Hentry |- *.
    by rewrite Hentry, Hcase.
Qed.
End Startup.

(** Startup over the example dataset when nothing can be embedded: it
    stops with the error of the index build, at a folder of the dataset. *)
Lemma startup_without_embeddings :
  (@Main.startup_event (ExtraExamples.dataset_tree ExtraExamples.offline_index)
     ExtraExamples.before_startup).1
    = Raise (ExternalError "embedding request failed") ∧
  ∃ folder,
    folder ∈ ["dataset/real_estate"; "dataset/readme.txt"; "dataset/medical"] ∧
    @from_documents ExtraExamples.offline_index
      (@Main.folder_documents ExtraExamples.tree folder)
      = Fails "embedding request failed".
Proof.
  assert (Hrun : @Main.startup_event
            (ExtraExamples.dataset_tree ExtraExamples.offline_index)
            ExtraExamples.before_startup
          = (Raise (ExternalError "embedding request failed"),
             (@Main.startup_event
                (ExtraExamples.dataset_tree ExtraExamples.offline_index)
                ExtraExamples.before_startup).2))
    by (vm_compute; reflexivity).
  split; [by rewrite Hrun|].
  destruct (@startup_fails_only_on
              (ExtraExamples.dataset_tree ExtraExamples.offline_index)
              _ _ _ Hrun) as (msg & Hmsg & Hcause).
  clear Hrun. injection Hmsg as <-.
  destruct Hcause
    as [H|[H|[H|[H|[H|(entries & folder & Hiter & Hin & Hfolder)]]]]];
    try (vm_compute in H; discriminate H).
  vm_compute in Hiter. injection Hiter as <-.
  exists folder. split; [exact Hin|].
  destruct Hfolder as [Hdir|[Hdir [Hload|[Hdocs Hfrom]]]]; [| |exact Hfrom].
  - cbv in Hdir. discriminate Hdir.
  - exfalso.
    apply elem_of_cons in Hin as [->|Hin]; [vm_compute in Hload; discriminate Hload|].
    apply elem_of_cons in Hin as [->|Hin]; [vm_compute in Hdir; discriminate Hdir|].
    apply elem_of_cons in Hin as [->|Hin]; [vm_compute in Hload; discriminate Hload|].
    apply elem_of_nil in Hin. destruct Hin.
Defined.

(** Startup over the example dataset: the real-estate agent gets the index
    of its folder, the medical agent, whose folder is empty, keeps the
    unreadable store found on disk. *)
Lemma startup_over_example_dataset :
  vector_stores
    (main_vectors
       (@Main.startup_event
          (ExtraExamples.dataset_tree ExtraExamples.unreadable_index)
          ExtraExamples.before_startup).2) !! "real_estate"
    = Some (Some {| docstore :=
                      [Examples.only_chunk "alpha" "dataset/real_estate/a.txt"
                         "a.txt" ".txt"] |}) ∧
  vector_stores
    (main_vectors
       (@Main.startup_event
          (ExtraExamples.dataset_tree ExtraExamples.unreadable_index)
          ExtraExamples.before_startup).2) !! "medical"
    = Some None.
Proof.
  pose proof (@startup_indexes_dataset
                (ExtraExamples.dataset_tree ExtraExamples.unreadable_index)
                ExtraExamples.before_startup
                (@Main.startup_event
                   (ExtraExamples.dataset_tree ExtraExamples.unreadable_index)
                   ExtraExamples.before_startup).2
                ["dataset/real_estate"; "dataset/readme.txt"; "dataset/medical"])
    as Hstart.
  assert (Hrun : @Main.startup_event
            (ExtraExamples.dataset_tree ExtraExamples.unreadable_index)
            ExtraExamples.before_startup
          = (Ok tt,
             (@Main.startup_event
                (ExtraExamples.dataset_tree ExtraExamples.unreadable_index)
                ExtraExamples.before_startup).2))
    by (vm_compute; reflexivity).
  specialize (Hstart Hrun eq_refl eq_refl). clear Hrun. split.
  - destruct (Hstart "real_estate")
      as [(folder & store & Hin & _ & Hname & _ & Hfrom & Hentry)|[Hnone _]].
    + rewrite Hentry.
      apply elem_of_cons in Hin as [->|Hin].
      { assert (Returns store
                = Returns {| docstore :=
                               [Examples.only_chunk "alpha"
                                  "dataset/real_estate/a.txt" "a.txt" ".txt"] |})
          as [= ->] by (rewrite <- Hfrom; vm_compute; reflexivity).
        reflexivity. }
      apply elem_of_cons in Hin as [->|Hin]; [vm_compute in Hname; discriminate Hname|].
      apply elem_of_cons in Hin as [->|Hin]; [vm_compute in Hname; discriminate Hname|].
      apply elem_of_nil in Hin. destruct Hin.
    + exfalso. apply (Hnone "dataset/real_estate").
      * apply list_elem_of_here.
      * vm_compute. reflexivity.
      * vm_compute. intros [=].
      * vm_compute. reflexivity.
  - destruct (Hstart "medical")
      as [(folder & store & Hin & _ & Hname & Hdocs & _)|[_ Hentry]].
    + exfalso.
      apply elem_of_cons in Hin as [->|Hin]; [vm_compute in Hname; discriminate Hname|].
      apply elem_of_cons in Hin as [->|Hin]; [vm_compute in Hname; discriminate Hname|].
      apply elem_of_cons in Hin as [->|Hin]; [apply Hdocs; vm_compute; reflexivity|].
      apply elem_of_nil in Hin. destruct Hin.
    + rewrite Hentry. vm_compute. reflexivity.
Defined.
